(** * ai_training_catalog: a shallow embedding and its verified properties

    This development embeds the parts of the [ai_training_catalog] package
    that its specification makes promises about:

    - [models/resource.py]  (resource identity),
    - [discovery/catalog.py] (the catalog's upsert),
    - [utils/text_processing.py] and [ingestion/deduplicator.py]
      (near-duplicate clustering),
    - [curriculum/learning_path.py] (provider diversity and the beginner
      hour cap),
    - [discovery/evaluator.py] and [discovery/agent.py] (scoring and the
      search fan-out),

    and, around them, [storage/repository.py], [ingestion/pipeline.py]
    (the duplicate flags), [ingestion/categorizer.py] and
    [curriculum/best_practices.py].

    Conventions.

    - A Python [str] is a Rocq [string] whose characters are the code
      points 0..255; [str.lower], [str.isspace] and the [re] classes are
      written out for that range.
    - A Python [float] is a binary64 [float] of the kernel; every sum,
      product, quotient and comparison below is the IEEE operation the
      interpreter performs, in the order the source performs it.
    - A Python [int] is a [Z]; lengths and counts are [nat].
    - Python objects that are mutated through several references (the
      resources held by the catalog) live in an explicit heap.
    - A call that may raise returns an [outcome]. *)

From Stdlib Require Import ZArith Floats Uint63 String Ascii List Lia Bool.
From stdpp Require Import gmap strings list pretty.

#[global] Set Warnings "-inexact-float,-register-all".

Local Open Scope Z_scope.

(** ** Python strings *)

Module Py.

Definition ord (c : ascii) : N := N_of_ascii c.

(** [str.isspace] on one character (code points below 256). *)
Definition isspace (c : ascii) : bool :=
  let n := ord c in
  (((9 <=? n) && (n <=? 13)) || ((28 <=? n) && (n <=? 32))
   || (n =? 133) || (n =? 160))%N.

(** [str.lower] on one character: A-Z, and the Latin-1 capitals. *)
Definition lower_char (c : ascii) : ascii :=
  let n := ord c in
  if (((65 <=? n) && (n <=? 90))
      || ((192 <=? n) && (n <=? 222) && negb (n =? 215)))%N
  then ascii_of_N (n + 32) else c.

Fixpoint lower (s : string) : string :=
  match s with
  | EmptyString => EmptyString
  | String c s' => String (lower_char c) (lower s')
  end.

Fixpoint lstrip_by (p : ascii -> bool) (s : string) : string :=
  match s with
  | EmptyString => EmptyString
  | String c s' => if p c then lstrip_by p s' else s
  end.

Fixpoint rstrip_by (p : ascii -> bool) (s : string) : string :=
  match s with
  | EmptyString => EmptyString
  | String c s' =>
      match rstrip_by p s' with
      | EmptyString => if p c then EmptyString else String c EmptyString
      | r => String c r
      end
  end.

(** [s.strip()] *)
Definition strip (s : string) : string := rstrip_by isspace (lstrip_by isspace s).

(** [s.rstrip(chars)] for a one-character [chars]. *)
Definition rstrip_char (ch : ascii) (s : string) : string :=
  rstrip_by (Ascii.eqb ch) s.

(** [s[:n]] *)
Definition slice_to (n : nat) (s : string) : string := String.substring 0 n s.

Fixpoint map_chars (f : ascii -> ascii) (s : string) : string :=
  match s with
  | EmptyString => EmptyString
  | String c s' => String (f c) (map_chars f s')
  end.

(** [needle in hay] *)
Fixpoint contains (needle hay : string) : bool :=
  String.prefix needle hay ||
  match hay with
  | EmptyString => false
  | String _ hay' => contains needle hay'
  end.

(** [hay.count(needle)]: occurrences that do not overlap, leftmost first.
    [skip] characters of a match just counted are still to be passed. *)
Fixpoint count_from (needle : string) (skip : nat) (hay : string) : nat :=
  match hay with
  | EmptyString => 0
  | String _ hay' =>
      match skip with
      | S k => count_from needle k hay'
      | O =>
          if String.prefix needle hay
          then S (count_from needle (String.length needle - 1) hay')
          else count_from needle 0 hay'
      end
  end.

Definition count (needle hay : string) : nat :=
  match needle with
  | EmptyString => S (String.length hay)
  | _ => count_from needle 0 hay
  end.

(** [s.replace(old, new)] for a one-character [old]. *)
Fixpoint replace_char (old : ascii) (new : string) (s : string) : string :=
  match s with
  | EmptyString => EmptyString
  | String c s' =>
      if Ascii.eqb c old then new ++ replace_char old new s'
      else String c (replace_char old new s')
  end.

(** [s.split()] : the maximal runs of characters that are not white space.
    [cur] is the run being read, reversed. *)
Fixpoint split_ws_aux (cur : list ascii) (s : string) : list string :=
  let flush := match cur with
               | [] => []
               | _ => [string_of_list_ascii (rev cur)]
               end in
  match s with
  | EmptyString => flush
  | String c s' =>
      if isspace c then flush ++ split_ws_aux [] s'
      else split_ws_aux (c :: cur) s'
  end.

Definition split_ws (s : string) : list string := split_ws_aux [] s.

(** [sep.join(parts)] *)
Fixpoint join (sep : string) (parts : list string) : string :=
  match parts with
  | [] => EmptyString
  | [p] => p
  | p :: ps => p ++ sep ++ join sep ps
  end.

(** [s.encode()] : UTF-8, one or two bytes for a code point below 256. *)
Fixpoint encode (s : string) : list Z :=
  match s with
  | EmptyString => []
  | String c s' =>
      let n := Z.of_N (ord c) in
      (if n <? 128 then [n]
       else [Z.lor 192 (Z.shiftr n 6); Z.lor 128 (Z.land n 63)])
      ++ encode s'
  end.

(** [s.title()] for ASCII text: the first letter of every run of letters
    in upper case, the rest of the run in lower case.  (The source applies
    it to enum values and Bloom verbs.) *)
Definition is_ascii_upper (c : ascii) : bool :=
  let n := ord c in ((65 <=? n) && (n <=? 90))%N.
Definition is_ascii_lower (c : ascii) : bool :=
  let n := ord c in ((97 <=? n) && (n <=? 122))%N.

Fixpoint title_from (previous_is_cased : bool) (s : string) : string :=
  match s with
  | EmptyString => EmptyString
  | String c s' =>
      if is_ascii_lower c then
        String (if previous_is_cased then c else ascii_of_N (ord c - 32))
               (title_from true s')
      else if is_ascii_upper c then
        String (if previous_is_cased then ascii_of_N (ord c + 32) else c)
               (title_from true s')
      else String c (title_from false s')
  end.

Definition title (s : string) : string := title_from false s.

(** [s * n] *)
Fixpoint repeat_str (s : string) (n : nat) : string :=
  match n with
  | O => EmptyString
  | S n' => s ++ repeat_str s n'
  end.

(** [min(a, b)] and [max(a, b)] on strings: the first argument is kept
    unless the second is strictly smaller (greater). *)
Definition str_min (a b : string) : string := if String.ltb b a then b else a.
Definition str_max (a b : string) : string := if String.ltb a b then b else a.

End Py.

(** ** Python floats *)

Module PyFloat.

Local Open Scope float_scope.

(** [float(n)] for an integer below 2^63 in magnitude. *)
Definition of_Z (z : Z) : float :=
  match z with
  | Z0 => 0
  | Zpos _ => PrimFloat.of_uint63 (Uint63.of_Z z)
  | Zneg _ => - PrimFloat.of_uint63 (Uint63.of_Z (Z.opp z))
  end.

Definition of_nat (n : nat) : float := of_Z (Z.of_nat n).

(** [int(x)] : truncation toward zero; [None] where Python raises
    ([ValueError] on a NaN, [OverflowError] on an infinity). *)
Definition to_int (x : float) : option Z :=
  match Prim2SF x with
  | S754_zero _ => Some 0%Z
  | S754_finite s m e =>
      let mag := if (0 <=? e)%Z then Z.shiftl (Zpos m) e
                 else Z.shiftr (Zpos m) (Z.opp e) in
      Some (if s then Z.opp mag else mag)
  | S754_infinity _ | S754_nan => None
  end.

(** [round(x, ndigits)] for [ndigits >= 0]: the exact value of [x] is
    rounded to a multiple of [10^-ndigits], ties to the even multiple, and
    the result is the float nearest that decimal.  The decimal is the
    quotient of two integers, [n] by [10^ndigits]; [SFdiv] rounds the
    exact quotient of two mantissas of any size once, to nearest, ties to
    even.  An infinity, a NaN and a float without fractional part are
    returned as they are. *)
Definition round_half_even (num den : Z) : Z :=
  let q := (num / den)%Z in
  let r := (num mod den)%Z in
  match (2 * r ?= den)%Z with
  | Lt => q
  | Gt => (q + 1)%Z
  | Eq => if Z.even q then q else (q + 1)%Z
  end.

Definition round (x : float) (ndigits : nat) : float :=
  let p := (10 ^ Z.of_nat ndigits)%Z in
  match Prim2SF x with
  | S754_finite s m e =>
      if (0 <=? e)%Z then x
      else
        match round_half_even (Zpos m * p) (2 ^ (Z.opp e)) with
        | Zpos n =>
            SF2Prim (SFdiv prec emax (S754_finite s n 0)
                                     (S754_finite false (Z.to_pos p) 0))
        | _ => if s then -0 else 0
        end
  | _ => x
  end.

(** [x] is not a NaN. *)
Definition is_number (x : float) : bool := (x =? x).

(** [max(a, b)] and [min(a, b)] : the first argument is kept unless the
    second compares strictly greater (smaller). *)
Definition max (a b : float) : float := if a <? b then b else a.
Definition min (a b : float) : float := if b <? a then b else a.

(** [sorted(xs, key=key, reverse=True)] : descending and stable. *)
Section Sorted.
Context {A : Type} (key : A -> float).

Fixpoint insert_desc (x : A) (sorted : list A) : list A :=
  match sorted with
  | [] => [x]
  | y :: rest =>
      if key x <? key y then y :: insert_desc x rest
      else x :: sorted
  end.

Definition sorted_desc (xs : list A) : list A :=
  fold_right insert_desc [] xs.
End Sorted.

(** [sum(xs)] : left to right from 0. *)
Definition sum (xs : list float) : float := fold_left PrimFloat.add xs 0.

End PyFloat.


(** ** SHA-256 ([hashlib.sha256]) *)

Module SHA256.

Definition w32 (x : Z) : Z := x mod 2 ^ 32.
Definition rotr (n x : Z) : Z := Z.lor (Z.shiftr x n) (w32 (Z.shiftl x (32 - n))).
Definition Ch (x y z : Z) : Z := Z.lxor (Z.land x y) (Z.land (Z.lxor x 0xffffffff) z).
Definition Maj (x y z : Z) : Z :=
  Z.lxor (Z.lxor (Z.land x y) (Z.land x z)) (Z.land y z).
Definition Sigma0 (x : Z) : Z := Z.lxor (Z.lxor (rotr 2 x) (rotr 13 x)) (rotr 22 x).
Definition Sigma1 (x : Z) : Z := Z.lxor (Z.lxor (rotr 6 x) (rotr 11 x)) (rotr 25 x).
Definition sigma0 (x : Z) : Z := Z.lxor (Z.lxor (rotr 7 x) (rotr 18 x)) (Z.shiftr x 3).
Definition sigma1 (x : Z) : Z := Z.lxor (Z.lxor (rotr 17 x) (rotr 19 x)) (Z.shiftr x 10).

(** The round constants and the initial hash value are the first 32 bits
    of the fractional parts of the cube roots of the first 64 primes, and
    of the square roots of the first 8. *)
Definition is_prime (n : Z) : bool :=
  (1 <? n) && forallb (fun d => negb (n mod d =? 0))
                      (map Z.of_nat (seq 2 (Z.to_nat n - 2))).

Definition primes (count : nat) : list Z :=
  firstn count (List.filter is_prime (map Z.of_nat (seq 2 310))).

(** The greatest [r] below [2 ^ bits] with [power r <= n], one bit at a
    time from the top. *)
Fixpoint integer_root (power : Z -> Z) (n : Z) (bits : nat) (r : Z) : Z :=
  match bits with
  | O => r
  | S b =>
      let candidate := r + 2 ^ Z.of_nat b in
      integer_root power n b (if power candidate <=? n then candidate else r)
  end.

Definition K : list Z :=
  Eval vm_compute in
    map (fun p => w32 (integer_root (fun r => r * r * r) (p * 2 ^ 96) 40 0))
        (primes 64).

Definition H0 : list Z :=
  Eval vm_compute in
    map (fun p => w32 (integer_root (fun r => r * r) (p * 2 ^ 64) 40 0))
        (primes 8).

(** Padding: a 1 bit, zeros up to 56 mod 64 bytes, the bit length on 8 bytes. *)
Definition be_bytes (width : nat) (x : Z) : list Z :=
  map (fun i => Z.land (Z.shiftr x (8 * Z.of_nat i)) 255) (rev (seq 0 width)).

Definition pad (msg : list Z) : list Z :=
  let n := Z.of_nat (length msg) in
  let zeros := Z.to_nat ((55 - n) mod 64) in
  msg ++ [128] ++ repeat 0 zeros ++ be_bytes 8 (8 * n).

Fixpoint be_words (fuel : nat) (bs : list Z) : list Z :=
  match fuel, bs with
  | S f, b0 :: b1 :: b2 :: b3 :: rest =>
      (Z.shiftl b0 24 + Z.shiftl b1 16 + Z.shiftl b2 8 + b3) :: be_words f rest
  | _, _ => []
  end.

(** The message schedule, most recent word first: [W t] from the sixteen
    words before it. *)
Fixpoint schedule (n : nat) (ws : list Z) : list Z :=
  match n with
  | O => ws
  | S n' =>
      let w := w32 (sigma1 (nth 1 ws 0) + nth 6 ws 0
                    + sigma0 (nth 14 ws 0) + nth 15 ws 0) in
      schedule n' (w :: ws)
  end.

Definition round_step (st : list Z) (kw : Z * Z) : list Z :=
  match st with
  | [a; b; c; d; e; f; g; h] =>
      let t1 := h + Sigma1 e + Ch e f g + fst kw + snd kw in
      let t2 := Sigma0 a + Maj a b c in
      [w32 (t1 + t2); a; b; c; w32 (d + t1); e; f; g]
  | _ => st
  end.

Definition compress (h : list Z) (block : list Z) : list Z :=
  let ws := rev (schedule 48 (rev block)) in
  let st := fold_left round_step (combine K ws) h in
  map (fun p => w32 (fst p + snd p)) (combine h st).

Fixpoint blocks (fuel : nat) (ws : list Z) : list (list Z) :=
  match fuel, ws with
  | S f, _ :: _ => firstn 16 ws :: blocks f (skipn 16 ws)
  | _, _ => []
  end.

(** The digest, as 32 bytes. *)
Definition digest (msg : list Z) : list Z :=
  let bytes := pad msg in
  let ws := be_words (length bytes) bytes in
  let h := fold_left compress (blocks (length ws) ws) H0 in
  flat_map (be_bytes 4) h.

Definition hex_digit (n : Z) : ascii :=
  ascii_of_N (Z.to_N (if n <? 10 then 48 + n else 87 + n)).

(** [hashlib.sha256(msg).hexdigest()] *)
Definition hexdigest (msg : list Z) : string :=
  string_of_list_ascii
    (flat_map (fun b => [hex_digit (Z.shiftr b 4); hex_digit (Z.land b 15)])
              (digest msg)).

End SHA256.

(** ** [utils/text_processing.py] *)

Module TextProcessing.
Import Py.

Definition is_az09 (c : ascii) : bool :=
  let n := ord c in
  (((97 <=? n) && (n <=? 122)) || ((48 <=? n) && (n <=? 57)))%N.

(** [re.sub(r"[^a-z0-9\s]", " ", text)] *)
Definition blank_other (c : ascii) : ascii :=
  if is_az09 c || isspace c then c else " "%char.

(** [re.sub(r"\s+", " ", text)] : every maximal run of white space becomes
    one space.  [in_run] holds when the previous character was white space. *)
Fixpoint collapse_ws (in_run : bool) (s : string) : string :=
  match s with
  | EmptyString => EmptyString
  | String c s' =>
      if isspace c
      then (if in_run then collapse_ws true s'
            else String " "%char (collapse_ws true s'))
      else String c (collapse_ws false s')
  end.

Definition normalise (text : string) : string :=
  let text := lower text in
  let text := map_chars blank_other text in
  strip (collapse_ws false text).

Definition trigrams (text : string) : gset string :=
  let t := normalise text in
  if (3 <=? String.length t)%nat
  then list_to_set (map (fun i => String.substring i 3 t)
                        (seq 0 (String.length t - 2)))
  else {[ t ]}.

Definition jaccard (a b : gset string) : float :=
  if bool_decide (a = ∅) && bool_decide (b = ∅) then 1%float
  else
    let intersection := size (a ∩ b) in
    let union := size (a ∪ b) in
    if (union =? 0)%nat then 0%float
    else (PyFloat.of_nat intersection / PyFloat.of_nat union)%float.

(** [content_hash] *)
Definition content_hash (text : string) : string :=
  SHA256.hexdigest (encode (normalise text)).

(** [Counter(words).get(w, 0)] *)
Definition word_count (w : string) (words : list string) : nat :=
  length (filter (fun w' => w' = w) words).

Definition keyword_hits (text : string) (words : list string) (kw : string) : nat :=
  let kw_parts := split_ws (normalise kw) in
  match kw_parts with
  | [w] => word_count w words
  | _ => count (join " " kw_parts) (normalise text)
  end.

Definition keyword_score (text : string) (keywords : list string) : float :=
  let words := split_ws (normalise text) in
  let total := match length words with O => 1%nat | n => n end in
  let hit_count := fold_left (fun acc kw => (acc + keyword_hits text words kw)%nat)
                             keywords 0%nat in
  let raw := (PyFloat.of_nat hit_count / PyFloat.of_nat total)%float in
  PyFloat.min (raw * 10)%float 1%float.

End TextProcessing.

(** ** Exceptions, JSON values, insertion-ordered dictionaries *)

(** An exception, by what an [except Exception] clause does with it and
    by its text [str(exc)].  [Exception text] is an instance of
    [Exception]; [BaseException text] is one that is not
    ([asyncio.CancelledError], [KeyboardInterrupt], [SystemExit]), which
    such a clause lets through.  A text read as an exception is an
    instance of [Exception]. *)
Inductive exn : Type :=
  | Exception (text : string)
  | BaseException (text : string).
Coercion Exception : string >-> exn.

(** The result of a call that may raise. *)
Inductive outcome (A : Type) : Type :=
  | Returned (a : A)
  | Raised (e : exn).
Arguments Returned {A} a.
Arguments Raised {A} e.

(** JSON-like values, as held by the [raw] dictionaries. *)
Inductive json : Type :=
  | JNull
  | JBool (b : bool)
  | JInt (n : Z)
  | JFloat (x : float)
  | JStr (s : string)
  | JList (items : list json)
  | JDict (items : list (string * json)).

(** A [dict] whose iteration order is observed: keys in insertion order;
    assigning to a key that is present keeps its position. *)
Module Dict.
Section Dict.
Context {V : Type}.

Fixpoint get (k : string) (d : list (string * V)) : option V :=
  match d with
  | [] => None
  | (k', v) :: d' => if String.eqb k' k then Some v else get k d'
  end.

Fixpoint set (k : string) (v : V) (d : list (string * V)) : list (string * V) :=
  match d with
  | [] => [(k, v)]
  | (k', v') :: d' =>
      if String.eqb k' k then (k', v) :: d' else (k', v') :: set k v d'
  end.

Definition keys (d : list (string * V)) : list string := map fst d.
Definition values (d : list (string * V)) : list V := map snd d.
Definition contains (k : string) (d : list (string * V)) : bool :=
  match get k d with Some _ => true | None => false end.
End Dict.
End Dict.

(** ** [models/resource.py] *)

Inductive SkillDomain :=
  | ML_BASICS | DEEP_LEARNING | NLP | COMPUTER_VISION | MLOPS | GENERATIVE_AI
  | REINFORCEMENT_LEARNING | DATA_ENGINEERING
  | AI_STRATEGY | AI_ETHICS | AI_PROJECT_MANAGEMENT | AI_ROI | AI_GOVERNANCE.

Inductive ContentType :=
  | COURSE | TUTORIAL | DOCUMENTATION | VIDEO_SERIES | BOOK | PAPER
  | BLOG_SERIES | INTERACTIVE_NOTEBOOK | CERTIFICATION_PREP.

Inductive DifficultyLevel := BEGINNER | INTERMEDIATE | ADVANCED.

Inductive LicenseType :=
  | CC_BY | CC_BY_SA | CC_BY_NC | MIT | APACHE_2 | FREE_ACCESS | UNKNOWN.

#[global] Instance SkillDomain_eq_dec : EqDecision SkillDomain.
Proof. solve_decision. Defined.
#[global] Instance ContentType_eq_dec : EqDecision ContentType.
Proof. solve_decision. Defined.
#[global] Instance DifficultyLevel_eq_dec : EqDecision DifficultyLevel.
Proof. solve_decision. Defined.

(** A [datetime] with a time zone: microseconds since the epoch. *)
Definition datetime := Z.

(** The canonical form of a URL: [url.strip().rstrip("/").lower()]. *)
Definition canonical_url (url : string) : string :=
  Py.lower (Py.rstrip_char "/" (Py.strip url)).

(** [_resource_id] : the first 16 hex digits of the canonical URL's SHA-256. *)
Definition _resource_id (url : string) : string :=
  Py.slice_to 16 (SHA256.hexdigest (Py.encode (canonical_url url))).

Module Resource.
Record t := mk {
  id : string;
  url : string;
  title : string;
  description : string;
  provider : string;
  domains : list SkillDomain;
  content_type : ContentType;
  difficulty : DifficultyLevel;
  license_type : LicenseType;
  language : string;
  estimated_hours : option float;
  prerequisites : list string;
  tags : list string;
  quality_score : float;
  discovered_at : datetime;
  last_verified_at : option datetime;
  is_active : bool;
  raw_metadata : list (string * json)
}.

Definition set_id (v : string) (r : t) : t :=
  mk v (url r) (title r) (description r) (provider r) (domains r)
     (content_type r) (difficulty r) (license_type r) (language r)
     (estimated_hours r) (prerequisites r) (tags r) (quality_score r)
     (discovered_at r) (last_verified_at r) (is_active r) (raw_metadata r).

Definition set_quality_score (v : float) (r : t) : t :=
  mk (id r) (url r) (title r) (description r) (provider r) (domains r)
     (content_type r) (difficulty r) (license_type r) (language r)
     (estimated_hours r) (prerequisites r) (tags r) v
     (discovered_at r) (last_verified_at r) (is_active r) (raw_metadata r).

Definition set_discovered_at (v : datetime) (r : t) : t :=
  mk (id r) (url r) (title r) (description r) (provider r) (domains r)
     (content_type r) (difficulty r) (license_type r) (language r)
     (estimated_hours r) (prerequisites r) (tags r) (quality_score r)
     v (last_verified_at r) (is_active r) (raw_metadata r).

(** [model_post_init] : an empty id is replaced by the one derived from
    the URL. *)
Definition model_post_init (r : t) : t :=
  if String.eqb (id r) "" then set_id (_resource_id (url r)) r else r.

(** [Resource(url=..., title=..., ...)] with the remaining fields at
    their defaults; [now] is what the [discovered_at] factory reads off
    the clock. *)
Definition create (now : datetime) (url title description provider : string)
    (domains : list SkillDomain) (content_type : ContentType)
    (difficulty : DifficultyLevel) (quality_score : float)
    (raw_metadata : list (string * json)) : t :=
  model_post_init
    (mk "" url title description provider domains content_type difficulty
        UNKNOWN "en" None [] [] quality_score now None true raw_metadata).
End Resource.

(** ** [discovery/catalog.py] and [storage/repository.py] *)

Module Catalog.

Definition loc := positive.

(** The Python heap (the [Resource] objects alive), the JSON file behind
    the repository ([data["resources"]], by id), and the catalog's own
    fields. *)
Record state := mk {
  objects : gmap loc Resource.t;
  repo : list (string * Resource.t);
  _cache : gmap string loc;
  _loaded : bool
}.

(** [Resource.model_validate(v)] for each stored value, each a new object,
    and [{r.id: r for r in resources}]. *)
Fixpoint load (stored : list Resource.t) (objs : gmap loc Resource.t)
    (cache : gmap string loc) : gmap loc Resource.t * gmap string loc :=
  match stored with
  | [] => (objs, cache)
  | v :: rest =>
      let r := Resource.model_post_init v in
      let l := fresh (dom objs) in
      load rest (<[l := r]> objs) (<[Resource.id r := l]> cache)
  end.

Definition _ensure_loaded (st : state) : state :=
  if _loaded st then st
  else
    let '(objs, cache) := load (Dict.values (repo st)) (objects st) ∅ in
    mk objs (repo st) cache true.

(** [ResourceRepository.save] *)
Definition save (r : Resource.t) (file : list (string * Resource.t)) :=
  Dict.set (Resource.id r) r file.

(** [upsert(resource, min_score)], [resource] being the object at [l].
    [None] stands for a reference to no object, which Python rules out. *)
Definition upsert (l : loc) (min_score : float) (st : state)
    : option (bool * state) :=
  r ← objects st !! l;
  if (Resource.quality_score r <? min_score)%float then Some (false, st)
  else
    let st := _ensure_loaded st in
    match _cache st !! Resource.id r with
    | None =>
        Some (true,
              mk (objects st) (save r (repo st))
                 (<[Resource.id r := l]> (_cache st)) true)
    | Some le =>
        existing ← objects st !! le;
        let r' :=
          Resource.set_discovered_at (Resource.discovered_at existing)
            (Resource.set_quality_score
               (PyFloat.max (Resource.quality_score r)
                            (Resource.quality_score existing)) r) in
        Some (false,
              mk (<[l := r']> (objects st)) (save r' (repo st))
                 (<[Resource.id r := l]> (_cache st)) true)
    end.

(** A run of upserts, one after the other. *)
Fixpoint upsert_all (ls : list loc) (min_score : float) (st : state)
    : option (list bool * state) :=
  match ls with
  | [] => Some ([], st)
  | l :: ls' =>
      '(b, st1) ← upsert l min_score st;
      '(bs, st2) ← upsert_all ls' min_score st1;
      Some (b :: bs, st2)
  end.

(** [count()] *)
Definition count (st : state) : nat := size (_cache (_ensure_loaded st)).

End Catalog.

(** ** [ingestion/scrapers/base.py] and [ingestion/deduplicator.py] *)

Module ScrapedContent.
Record t := mk {
  resource_id : string;
  url : string;
  text_content : string;
  headings : list string;
  code_blocks : list string;
  links : list string;
  content_hash : string;
  word_count : Z;
  scraped_at : datetime
}.
End ScrapedContent.

Module DuplicateGroup.
Record t := mk {
  canonical_id : string;
  duplicate_ids : list string;
  similarity : float
}.
End DuplicateGroup.

Module ContentDeduplicator.
Import TextProcessing.

(** The number of leading characters of a document that are compared. *)
Definition PREFIX : nat := Z.to_nat 5000.

(** [find] : the loop runs at most [fuel] times; [None] when it has not
    ended by then (or a key is missing, which the caller rules out). *)
Fixpoint find (fuel : nat) (parent : gmap string string) (x : string)
    : option (gmap string string * string) :=
  match fuel with
  | O => None
  | S fuel' =>
      px ← parent !! x;
      if bool_decide (px ≠ x) then
        ppx ← parent !! px;
        find fuel' (<[x := ppx]> parent) ppx
      else Some (parent, x)
  end.

(** [heading_counts.get(k, 0)] *)
Definition heading_count (heading_counts : gmap string nat) (k : string) : nat :=
  default 0%nat (heading_counts !! k).

Definition union (fuel : nat) (heading_counts : gmap string nat)
    (parent : gmap string string) (a b : string) : option (gmap string string) :=
  '(parent, ra) ← find fuel parent a;
  '(parent, rb) ← find fuel parent b;
  if bool_decide (ra ≠ rb) then
    if (heading_count heading_counts rb <=? heading_count heading_counts ra)%nat
    then Some (<[rb := ra]> parent)
    else Some (<[ra := rb]> parent)
  else Some parent.

(** The state of the pair loop: [parent] and [pair_sim]. *)
Definition pairs_state : Type := gmap string string * gmap (string * string) float.

Section FindDuplicates.
Variable _threshold : float.

(** The inner loop, for one [i] : [x] is [ids[i]], [ys] is [ids[i+1:]]. *)
Fixpoint compare_with (fuel : nat) (tri_map : list (string * gset string))
    (heading_counts : gmap string nat) (x : string) (ys : list string)
    (st : pairs_state) : option pairs_state :=
  match ys with
  | [] => Some st
  | y :: ys' =>
      tx ← Dict.get x tri_map;
      ty ← Dict.get y tri_map;
      let sim := jaccard tx ty in
      st' ← (if (_threshold <=? sim)%float then
               parent ← union fuel heading_counts st.1 x y;
               Some (parent, <[(x, y) := sim]> st.2)
             else Some st);
      compare_with fuel tri_map heading_counts x ys' st'
  end.

(** The outer loop over [ids]. *)
Fixpoint compare_all (fuel : nat) (tri_map : list (string * gset string))
    (heading_counts : gmap string nat) (ids : list string)
    (st : pairs_state) : option pairs_state :=
  match ids with
  | [] => Some st
  | x :: rest =>
      st' ← compare_with fuel tri_map heading_counts x rest st;
      compare_all fuel tri_map heading_counts rest st'
  end.

(** [groups_map.setdefault(root, []).append(rid)] for every id. *)
Fixpoint build_groups (fuel : nat) (ids : list string)
    (parent : gmap string string) (groups_map : list (string * list string))
    : option (list (string * list string)) :=
  match ids with
  | [] => Some groups_map
  | rid :: rest =>
      '(parent, root) ← find fuel parent rid;
      let members := default [] (Dict.get root groups_map) in
      build_groups fuel rest parent (Dict.set root (members ++ [rid]) groups_map)
  end.

(** The loop over [dupes] : the sum and the number of the similarities
    found under the key [(min(canonical, d), max(canonical, d))]. *)
Fixpoint sum_similarities (pair_sim : gmap (string * string) float)
    (canonical : string) (dupes : list string) (avg_sim : float) (count : Z)
    : float * Z :=
  match dupes with
  | [] => (avg_sim, count)
  | d :: rest =>
      let key := (Py.str_min canonical d, Py.str_max canonical d) in
      match pair_sim !! key with
      | Some sim => sum_similarities pair_sim canonical rest
                      (avg_sim + sim)%float (count + 1)
      | None => sum_similarities pair_sim canonical rest avg_sim count
      end
  end.

Definition make_group (pair_sim : gmap (string * string) float)
    (canonical : string) (members : list string) : DuplicateGroup.t :=
  let dupes := filter (fun m => m ≠ canonical) members in
  let '(avg_sim, count) := sum_similarities pair_sim canonical dupes 0%float 0 in
  DuplicateGroup.mk canonical dupes
    (if (count =? 0)%Z then 0%float else (avg_sim / PyFloat.of_Z count)%float).

Definition find_duplicates (contents : list ScrapedContent.t)
    : option (list DuplicateGroup.t) :=
  if (length contents <? 2)%nat then Some []
  else
    let tri_map :=
      fold_left (fun d c => Dict.set (ScrapedContent.resource_id c)
                   (trigrams (Py.slice_to PREFIX (ScrapedContent.text_content c))) d)
                contents [] in
    let heading_counts : gmap string nat :=
      fold_left (fun d c => <[ScrapedContent.resource_id c :=
                                length (ScrapedContent.headings c)]> d)
                contents ∅ in
    let ids := Dict.keys tri_map in
    let parent : gmap string string :=
      fold_left (fun d rid => <[rid := rid]> d) ids ∅ in
    let fuel := S (length ids) in
    '(parent, pair_sim) ← compare_all fuel tri_map heading_counts ids (parent, ∅);
    groups_map ← build_groups fuel ids parent [];
    Some (map (fun g => make_group pair_sim g.1 g.2)
              (filter (fun g => (2 <=? length g.2)%nat) groups_map)).
End FindDuplicates.

End ContentDeduplicator.

(** ** [config.py] : the settings the core reads *)

Module Settings.
Record t := mk {
  min_quality_score : float;
  max_resources_per_module : Z;
  max_hours_beginner_path : float;
  provider_diversity_cap : float
}.

(** The defaults of the source. *)
Definition default : t := mk 0.3 5 20 0.4.
End Settings.

(** ** [models/curriculum.py] *)

Module LearningObjective.
Record t := mk {
  description : string;
  bloom_level : string
}.
End LearningObjective.

(** A module of a path.  Its [description] is display text and is left out. *)
Module ModuleUnit.
Record t := mk {
  title : string;
  resource_ids : list string;
  objectives : list LearningObjective.t;
  estimated_hours : float;
  order : Z
}.
End ModuleUnit.

(** A learning path.  Its [title] (display text), [created_at] and
    [version] are left out. *)
Module LearningPath.
Record t := mk {
  id : string;
  description : string;
  target_audience : string;
  difficulty : DifficultyLevel;
  domains : list SkillDomain;
  modules : list ModuleUnit.t;
  total_estimated_hours : float;
  prerequisites : list string
}.
End LearningPath.

(** ** [curriculum/learning_path.py] *)

Module LearningPathBuilder.

(** The enum values. *)
Definition domain_value (d : SkillDomain) : string :=
  match d with
  | ML_BASICS => "ml_basics" | DEEP_LEARNING => "deep_learning" | NLP => "nlp"
  | COMPUTER_VISION => "computer_vision" | MLOPS => "mlops"
  | GENERATIVE_AI => "generative_ai"
  | REINFORCEMENT_LEARNING => "reinforcement_learning"
  | DATA_ENGINEERING => "data_engineering" | AI_STRATEGY => "ai_strategy"
  | AI_ETHICS => "ai_ethics" | AI_PROJECT_MANAGEMENT => "ai_project_management"
  | AI_ROI => "ai_roi" | AI_GOVERNANCE => "ai_governance"
  end.

Definition difficulty_value (d : DifficultyLevel) : string :=
  match d with
  | BEGINNER => "beginner" | INTERMEDIATE => "intermediate" | ADVANCED => "advanced"
  end.

Definition DEPENDENCY_MAP (d : SkillDomain) : list SkillDomain :=
  match d with
  | DEEP_LEARNING => [ML_BASICS]
  | NLP => [DEEP_LEARNING]
  | COMPUTER_VISION => [DEEP_LEARNING]
  | MLOPS => [ML_BASICS]
  | GENERATIVE_AI => [DEEP_LEARNING; NLP]
  | REINFORCEMENT_LEARNING => [ML_BASICS]
  | AI_PROJECT_MANAGEMENT => [AI_STRATEGY]
  | AI_ROI => [AI_STRATEGY]
  | AI_GOVERNANCE => [AI_ETHICS]
  | _ => []
  end.

Definition _AUDIENCE (d : DifficultyLevel) : string :=
  match d with
  | BEGINNER => "Newcomers with no prior experience in this domain"
  | INTERMEDIATE => "Practitioners with foundational knowledge seeking deeper skills"
  | ADVANCED => "Experienced professionals aiming for expert-level mastery"
  end.

Definition _path_id (domain : SkillDomain) (difficulty : DifficultyLevel) : string :=
  Py.slice_to 12
    (SHA256.hexdigest
       (Py.encode (domain_value domain ++ "-" ++ difficulty_value difficulty))).

Definition _bloom_from_difficulty (d : DifficultyLevel) : string :=
  match d with
  | BEGINNER => "understand" | INTERMEDIATE => "apply" | ADVANCED => "evaluate"
  end.

(** [domain.value.replace('_', ' ').title()] *)
Definition domain_title (d : SkillDomain) : string :=
  Py.title (Py.replace_char "_" " " (domain_value d)).

(** [r.provider or "unknown"] *)
Definition provider_key (r : Resource.t) : string :=
  if String.eqb (Resource.provider r) "" then "unknown" else Resource.provider r.

(** The loop of [_apply_diversity] : [result] and [deferred] as they grow,
    [provider_counts] a [Counter]. *)
Fixpoint diversity_pass (max_per_provider : Z) (provider_counts : gmap string Z)
    (resources result deferred : list Resource.t)
    : list Resource.t * list Resource.t :=
  match resources with
  | [] => (result, deferred)
  | r :: rest =>
      let p := provider_key r in
      let n := default 0 (provider_counts !! p) in
      if n <? max_per_provider
      then diversity_pass max_per_provider (<[p := n + 1]> provider_counts)
             rest (result ++ [r]) deferred
      else diversity_pass max_per_provider provider_counts
             rest result (deferred ++ [r])
  end.

(** [max(1, int(total * self._diversity_cap))] *)
Definition max_per_provider (_diversity_cap : float) (total : nat) : outcome Z :=
  let x := (PyFloat.of_nat total * _diversity_cap)%float in
  match PyFloat.to_int x with
  | Some n => Returned (Z.max 1 n)
  | None =>
      Raised (if PyFloat.is_number x
              then "cannot convert float infinity to integer"
              else "cannot convert float NaN to integer")
  end.

Definition _apply_diversity (_diversity_cap : float) (resources : list Resource.t)
    : outcome (list Resource.t) :=
  match resources with
  | [] => Returned resources
  | _ =>
      match max_per_provider _diversity_cap (length resources) with
      | Raised e => Raised e
      | Returned m =>
          let '(result, deferred) := diversity_pass m ∅ resources [] [] in
          Returned (result ++ deferred)
      end
  end.

(** [xs[:n]] for an integer [n]. *)
Definition slice_to_int {A} (n : Z) (xs : list A) : list A :=
  if 0 <=? n then firstn (Z.to_nat n) xs
  else firstn (length xs - Z.to_nat (- n)) xs.

(** The chunks [selected[i : i + n]] for [i] in [range(0, len(selected), n)],
    [n] positive. *)
Fixpoint chunks {A} (fuel n : nat) (selected : list A) : list (list A) :=
  match fuel, selected with
  | S fuel', _ :: _ => firstn n selected :: chunks fuel' n (skipn n selected)
  | _, _ => []
  end.

(** [r.estimated_hours or 2.0] *)
Definition hours_or_default (r : Resource.t) : float :=
  match Resource.estimated_hours r with
  | None => 2
  | Some h => if (h =? 0)%float then 2 else h
  end%float.

Definition make_module (domain : SkillDomain) (difficulty : DifficultyLevel)
    (module_order : Z) (chunk : list Resource.t) : ModuleUnit.t :=
  ModuleUnit.mk
    ("Module " ++ pretty module_order ++ ": " ++ domain_title domain)
    (map Resource.id chunk)
    (map (fun r => LearningObjective.mk
                     (Py.title (_bloom_from_difficulty difficulty) ++ " "
                      ++ Resource.title r)
                     (_bloom_from_difficulty difficulty)) chunk)
    (PyFloat.sum (map hours_or_default chunk))
    module_order.

(** The modules, one per chunk, numbered from [first]. *)
Fixpoint make_modules (domain : SkillDomain) (difficulty : DifficultyLevel)
    (first : Z) (cs : list (list Resource.t)) : list ModuleUnit.t :=
  match cs with
  | [] => []
  | chunk :: rest =>
      make_module domain difficulty first chunk
      :: make_modules domain difficulty (first + 1) rest
  end.

(** The trimming loop: modules are kept while the running total with the
    next one stays within the cap, and the loop stops at the first that
    does not fit. *)
Fixpoint trim (cap : float) (modules : list ModuleUnit.t) (running : float)
    : list ModuleUnit.t :=
  match modules with
  | [] => []
  | m :: rest =>
      if (running + ModuleUnit.estimated_hours m <=? cap)%float
      then m :: trim cap rest (running + ModuleUnit.estimated_hours m)%float
      else []
  end.

Definition total_hours (modules : list ModuleUnit.t) : float :=
  PyFloat.sum (map ModuleUnit.estimated_hours modules).

(** The modules of a path before the hour cap is looked at. *)
Definition untrimmed_modules (settings : Settings.t) (domain : SkillDomain)
    (difficulty : DifficultyLevel) (resources : list Resource.t)
    : outcome (list ModuleUnit.t) :=
  let _max_per_module := Settings.max_resources_per_module settings in
  let resources := PyFloat.sorted_desc Resource.quality_score resources in
  match _apply_diversity (Settings.provider_diversity_cap settings) resources with
  | Raised e => Raised e
  | Returned resources =>
      let selected := slice_to_int (_max_per_module * 3) resources in
      if _max_per_module =? 0 then Raised "range() arg 3 must not be zero"
      else if _max_per_module <? 0 then Returned []
      else Returned (make_modules domain difficulty 1
                       (chunks (length selected) (Z.to_nat _max_per_module) selected))
  end.

Definition prerequisites_for (domain : SkillDomain) (difficulty : DifficultyLevel)
    : list string :=
  map (fun dep => ("Complete the " ++ domain_title dep ++ " path")%string)
      (DEPENDENCY_MAP domain)
  ++ match difficulty with
     | BEGINNER => []
     | INTERMEDIATE =>
         [("Complete the Beginner path for " ++ domain_title domain)%string]
     | ADVANCED =>
         [("Complete the Intermediate path for " ++ domain_title domain)%string]
     end.

Definition _build_path (settings : Settings.t) (domain : SkillDomain)
    (difficulty : DifficultyLevel) (resources : list Resource.t)
    : outcome LearningPath.t :=
  match untrimmed_modules settings domain difficulty resources with
  | Raised e => Raised e
  | Returned modules =>
      let _max_hours_beginner := Settings.max_hours_beginner_path settings in
      let modules :=
        if bool_decide (difficulty = BEGINNER)
           && (_max_hours_beginner <? total_hours modules)%float
        then trim _max_hours_beginner modules 0%float
        else modules in
      Returned
        (LearningPath.mk
           (_path_id domain difficulty)
           ("A " ++ difficulty_value difficulty ++ "-level learning path covering "
            ++ Py.replace_char "_" " " (domain_value domain)
            ++ " using curated free and open-source resources.")
           (_AUDIENCE difficulty)
           difficulty
           [domain]
           modules
           (PyFloat.round (total_hours modules) 1)
           (prerequisites_for domain difficulty))
  end.

(** [build] : one path per difficulty level that has resources and ends
    with at least one module. *)
Fixpoint build_levels (settings : Settings.t) (domain : SkillDomain)
    (resources : list Resource.t) (levels : list DifficultyLevel)
    : outcome (list LearningPath.t) :=
  match levels with
  | [] => Returned []
  | diff :: rest =>
      let bucket := filter (fun r => Resource.difficulty r = diff) resources in
      match bucket with
      | [] => build_levels settings domain resources rest
      | _ =>
          match _build_path settings domain diff bucket with
          | Raised e => Raised e
          | Returned path =>
              match build_levels settings domain resources rest with
              | Raised e => Raised e
              | Returned paths =>
                  Returned (match LearningPath.modules path with
                            | [] => paths
                            | _ => path :: paths
                            end)
              end
          end
      end
  end.

Definition build (settings : Settings.t) (domain : SkillDomain)
    (resources : list Resource.t) : outcome (list LearningPath.t) :=
  build_levels settings domain resources [BEGINNER; INTERMEDIATE; ADVANCED].

End LearningPathBuilder.

(** ** [models/taxonomy.py] *)

Module TaxonomyNode.
Record t := mk {
  domain : SkillDomain;
  display_name : string;
  subtopics : list string;
  keywords : list string
}.
End TaxonomyNode.

Definition TAXONOMY : list TaxonomyNode.t :=
  [
    TaxonomyNode.mk ML_BASICS "Machine Learning Fundamentals"
      [ "supervised learning"; "unsupervised learning"; "feature engineering";
        "model evaluation"; "cross-validation"; "bias-variance tradeoff" ]
      [ "machine learning"; "regression"; "classification"; "clustering";
        "decision tree"; "random forest"; "SVM"; "scikit-learn";
        "gradient descent"; "overfitting"; "training set"; "test set";
        "feature selection" ];
    TaxonomyNode.mk DEEP_LEARNING "Deep Learning"
      [ "neural networks"; "backpropagation"; "convolutional networks";
        "recurrent networks"; "attention mechanisms"; "transfer learning" ]
      [ "deep learning"; "neural network"; "CNN"; "RNN"; "LSTM";
        "transformer"; "PyTorch"; "TensorFlow"; "Keras"; "backpropagation";
        "activation function"; "dropout"; "batch normalization";
        "GPU training" ];
    TaxonomyNode.mk NLP "Natural Language Processing"
      [ "text classification"; "named entity recognition";
        "sentiment analysis"; "machine translation"; "question answering";
        "text generation" ]
      [ "NLP"; "natural language processing"; "tokenization"; "embedding";
        "word2vec"; "BERT"; "GPT"; "language model"; "text mining"; "corpus";
        "spaCy"; "Hugging Face"; "seq2seq" ];
    TaxonomyNode.mk COMPUTER_VISION "Computer Vision"
      [ "image classification"; "object detection"; "image segmentation";
        "generative models for images"; "video analysis" ]
      [ "computer vision"; "image recognition"; "object detection"; "YOLO";
        "ResNet"; "image segmentation"; "OpenCV"; "convolutional";
        "data augmentation"; "bounding box" ];
    TaxonomyNode.mk MLOPS "MLOps & Production ML"
      [ "model deployment"; "CI/CD for ML"; "experiment tracking";
        "model monitoring"; "feature stores"; "ML pipelines" ]
      [ "MLOps"; "model deployment"; "MLflow"; "Kubeflow"; "model serving";
        "feature store"; "experiment tracking"; "model registry";
        "containerization"; "Docker"; "Kubernetes"; "CI/CD" ];
    TaxonomyNode.mk GENERATIVE_AI "Generative AI"
      [ "large language models"; "prompt engineering"; "fine-tuning"; "RAG";
        "diffusion models"; "AI agents" ]
      [ "generative AI"; "LLM"; "large language model"; "prompt engineering";
        "fine-tuning"; "RLHF"; "diffusion model"; "Stable Diffusion";
        "ChatGPT"; "RAG"; "retrieval augmented"; "AI agent"; "langchain" ];
    TaxonomyNode.mk REINFORCEMENT_LEARNING "Reinforcement Learning"
      [ "Markov decision processes"; "Q-learning"; "policy gradient";
        "multi-agent RL"; "reward shaping" ]
      [ "reinforcement learning"; "RL"; "Q-learning"; "policy gradient";
        "reward"; "environment"; "agent"; "Markov decision"; "exploration";
        "exploitation"; "OpenAI Gym" ];
    TaxonomyNode.mk DATA_ENGINEERING "Data Engineering for AI"
      [ "data pipelines"; "data warehousing"; "ETL"; "data quality";
        "streaming data" ]
      [ "data engineering"; "ETL"; "data pipeline"; "Apache Spark";
        "data warehouse"; "data lake"; "Airflow"; "Kafka"; "data quality";
        "data governance" ];
    TaxonomyNode.mk AI_STRATEGY "AI Strategy"
      [ "AI roadmap"; "AI maturity model"; "build vs buy";
        "AI use case identification"; "organizational readiness" ]
      [ "AI strategy"; "digital transformation"; "AI adoption"; "AI roadmap";
        "AI maturity"; "use case"; "competitive advantage"; "AI initiative";
        "executive"; "business strategy" ];
    TaxonomyNode.mk AI_ETHICS "AI Ethics & Responsible AI"
      [ "fairness"; "bias detection"; "explainability"; "privacy";
        "accountability"; "AI safety" ]
      [ "AI ethics"; "responsible AI"; "fairness"; "bias"; "explainability";
        "interpretability"; "XAI"; "privacy"; "GDPR"; "accountability";
        "AI safety"; "alignment"; "transparency" ];
    TaxonomyNode.mk AI_PROJECT_MANAGEMENT "AI Project Management"
      [ "ML project lifecycle"; "team structure"; "agile for AI";
        "stakeholder management"; "risk management" ]
      [ "AI project management"; "ML lifecycle"; "data science team"; "agile";
        "scrum"; "stakeholder"; "risk management"; "project planning";
        "cross-functional"; "delivery" ];
    TaxonomyNode.mk AI_ROI "AI Return on Investment"
      [ "cost-benefit analysis"; "AI value measurement";
        "total cost of ownership"; "scaling AI" ]
      [ "AI ROI"; "return on investment"; "cost-benefit"; "business value";
        "total cost"; "scaling AI"; "monetization"; "KPI"; "business case";
        "value measurement" ];
    TaxonomyNode.mk AI_GOVERNANCE "AI Governance & Compliance"
      [ "model risk management"; "regulatory compliance"; "AI audit";
        "documentation standards" ]
      [ "AI governance"; "model risk"; "compliance"; "regulation"; "audit";
        "documentation"; "EU AI Act"; "model card"; "risk assessment";
        "policy" ]
  ]%string.

(** ** [discovery/searchers/base.py] *)

Module SearchResult.
Record t := mk {
  url : string;
  title : string;
  snippet : string;
  source : string;
  raw : list (string * json)
}.
End SearchResult.

(** A search backend: its name and what one call of [search] does in the
    run at hand. *)
Module Searcher.
Record t := mk {
  name : string;
  search : string -> Z -> outcome (list SearchResult.t)
}.
End Searcher.

(** ** [discovery/evaluator.py] *)

Module Evaluator.
Import TextProcessing.
Local Open Scope float_scope.

Definition REPUTABLE_PROVIDERS : list (string * float) :=
  [ ("fast.ai", 0.20); ("deeplearning.ai", 0.20); ("stanford", 0.20);
    ("mit", 0.20); ("google", 0.15); ("microsoft", 0.15);
    ("huggingface", 0.18); ("openai", 0.15); ("coursera", 0.12);
    ("kaggle", 0.14); ("arxiv", 0.10); ("github", 0.10) ]%string.

(** [any(kw in combined for kw in kws)] *)
Definition any_in (kws : list string) (combined : string) : bool :=
  existsb (fun kw => Py.contains kw combined) kws.

Definition _detect_provider (url title : string) : string :=
  let combined := Py.lower (url ++ " " ++ title)%string in
  match filter (fun name => Py.contains name combined = true)
               (Dict.keys REPUTABLE_PROVIDERS) with
  | name :: _ => name
  | [] => ""%string
  end.

Definition _detect_content_type (url snippet : string) : ContentType :=
  let combined := Py.lower (url ++ " " ++ snippet)%string in
  if any_in ["course"; "mooc"; "syllabus"; "lecture"]%string combined then COURSE
  else if any_in ["tutorial"; "how to"; "step by step"; "guide"]%string combined
  then TUTORIAL
  else if Py.contains "arxiv" combined || Py.contains "paper" combined then PAPER
  else if any_in ["video"; "youtube"; "watch"]%string combined then VIDEO_SERIES
  else if any_in ["book"; "textbook"; "ebook"]%string combined then BOOK
  else if any_in ["notebook"; "colab"; "jupyter"]%string combined
  then INTERACTIVE_NOTEBOOK
  else if Py.contains "documentation" combined || Py.contains "docs" combined
  then DOCUMENTATION
  else TUTORIAL.

Definition _detect_difficulty (snippet : string) : DifficultyLevel :=
  let s := Py.lower snippet in
  if any_in ["advanced"; "expert"; "research"; "state-of-the-art"]%string s
  then ADVANCED
  else if any_in ["intermediate"; "practical"; "hands-on project"]%string s
  then INTERMEDIATE
  else BEGINNER.

Definition _detect_domains (text : string) : list SkillDomain :=
  let scored :=
    flat_map (fun node =>
                let score := keyword_score text (TaxonomyNode.keywords node) in
                if 0.02 <? score then [(score, TaxonomyNode.domain node)] else [])
             TAXONOMY in
  map snd (firstn 3 (PyFloat.sorted_desc fst scored)).

(** The richness table, by content type. *)
Definition richness (ctype : ContentType) : float :=
  match ctype with
  | COURSE => 0.15
  | INTERACTIVE_NOTEBOOK => 0.14
  | BOOK => 0.12
  | VIDEO_SERIES => 0.11
  | TUTORIAL => 0.10
  | PAPER => 0.08
  | DOCUMENTATION => 0.07
  | BLOG_SERIES => 0.06
  | CERTIFICATION_PREP => 0.10
  end.

(** [type(v).__name__] *)
Definition type_name (v : json) : string :=
  match v with
  | JNull => "NoneType"
  | JBool _ => "bool"
  | JInt _ => "int"
  | JFloat _ => "float"
  | JStr _ => "str"
  | JList _ => "list"
  | JDict _ => "dict"
  end.

(** [bool(v)] *)
Definition truthy (v : json) : bool :=
  match v with
  | JNull => false
  | JBool b => b
  | JInt n => negb (n =? 0)%Z
  | JFloat x => negb (x =? 0)
  | JStr s => negb (String.eqb s "")
  | JList items => match items with [] => false | _ => true end
  | JDict items => match items with [] => false | _ => true end
  end.

(** [max(xs)] over a non-empty sequence: the first greatest element. *)
Definition max_of (xs : list float) : float :=
  match xs with
  | [] => 0
  | x :: rest => fold_left PyFloat.max rest x
  end.

Section Evaluate.
(** The two library functions [evaluate] calls that are not written out:
    [datetime.fromisoformat], giving the instant of a string that has a
    UTC offset and [None] where the [try] block ends in [ValueError] or
    (for a time without offset) [TypeError]; and [math.log10] on an
    integer. *)
Variable fromisoformat : string -> option datetime.
Variable log10 : Z -> float.
(** The text of the [ValidationError] pydantic raises for a
    [quality_score] outside [Field(ge=0.0, le=1.0)] : the library's. *)
Variable validation_error : float -> string.

(** Step 4 : community signals. *)
Definition add_stars (raw : list (string * json)) (score : float) : float :=
  let stars := default (JInt 0) (Dict.get "stars" raw) in
  let as_int := match stars with
                | JInt n => Some n
                | JBool b => Some (if b then 1%Z else 0%Z)
                | _ => None
                end in
  match as_int with
  | Some n =>
      if (0 <? n)%Z then score + PyFloat.min (log10 (n + 1) / 35) 0.15
      else score
  | None => score
  end.

(** The band the age of [updated_at] falls in at the instant [now] :
    [Some 0] under 365 days, [Some 1] under 730, [Some 2] beyond,
    [None] when there is no date to read. *)
Definition age_band (now : datetime) (raw : list (string * json)) : option nat :=
  match default (JStr "") (Dict.get "updated_at" raw) with
  | JStr updated =>
      if String.eqb updated "" then None
      else
        match fromisoformat (Py.replace_char "Z" "+00:00" updated) with
        | Some dt =>
            let age_days := ((now - dt) / 86400000000)%Z in
            Some (if (age_days <? 365)%Z then 0%nat
                  else if (age_days <? 730)%Z then 1%nat else 2%nat)
        | None => None
        end
  | _ => None
  end.

(** Step 5 : freshness.  A value of [updated_at] that is true and is not
    a string has no [replace] : [AttributeError], which the [try] block
    does not catch. *)
Definition add_freshness (now : datetime) (raw : list (string * json))
    (score : float) : outcome float :=
  let updated := default (JStr "") (Dict.get "updated_at" raw) in
  if truthy updated then
    match updated with
    | JStr _ =>
        Returned (match age_band now raw with
                  | Some 0%nat => score + 0.15
                  | Some 1%nat => score + 0.08
                  | _ => score
                  end)
    | _ =>
        Raised ("'" ++ type_name updated
                ++ "' object has no attribute 'replace'")%string
    end
  else Returned score.

(** [evaluate(result)] ; [now] is the clock as step 5 reads it, [created]
    as the [discovered_at] factory reads it. *)
Definition evaluate (now created : datetime) (result : SearchResult.t)
    : outcome Resource.t :=
  let combined_text :=
    (SearchResult.title result ++ " " ++ SearchResult.snippet result)%string in
  let score := 0 in
  (* 1. provider reputation *)
  let provider := _detect_provider (SearchResult.url result) (SearchResult.title result) in
  let score := score + default 0 (Dict.get provider REPUTABLE_PROVIDERS) in
  (* 2. keyword relevance *)
  let domains := _detect_domains combined_text in
  let score :=
    match domains with
    | [] => score
    | _ =>
        let best_kw :=
          max_of (map (fun node => keyword_score combined_text (TaxonomyNode.keywords node))
                      (filter (fun node => TaxonomyNode.domain node ∈ domains) TAXONOMY)) in
        score + PyFloat.min best_kw 0.25
    end in
  (* 3. content type richness *)
  let ctype := _detect_content_type (SearchResult.url result) (SearchResult.snippet result) in
  let score := score + richness ctype in
  (* 4. community signals *)
  let score := add_stars (SearchResult.raw result) score in
  (* 5. freshness *)
  match add_freshness now (SearchResult.raw result) score with
  | Raised e => Raised e
  | Returned score =>
      (* 6. description completeness *)
      let n := String.length (SearchResult.snippet result) in
      let score := if (50 <? n)%nat then score + 0.10
                   else if (10 <? n)%nat then score + 0.05 else score in
      let score := PyFloat.min score 1 in
      let quality_score := PyFloat.round score 3 in
      (* [Field(ge=0.0, le=1.0)] *)
      if (0 <=? quality_score) && (quality_score <=? 1) then
        Returned (Resource.create created (SearchResult.url result)
                    (SearchResult.title result) (SearchResult.snippet result)
                    provider domains ctype
                    (_detect_difficulty (SearchResult.snippet result))
                    quality_score (SearchResult.raw result))
      else Raised (validation_error quality_score)
  end.
End Evaluate.

End Evaluator.

(** ** [discovery/agent.py] *)

Module DiscoveryReport.
Record t := mk {
  queries_executed : Z;
  raw_results : Z;
  new_resources : Z;
  updated_resources : Z;
  below_threshold : Z;
  errors : list string
}.
End DiscoveryReport.

Module DiscoveryAgent.

Definition all_domains : list SkillDomain :=
  [ ML_BASICS; DEEP_LEARNING; NLP; COMPUTER_VISION; MLOPS; GENERATIVE_AI;
    REINFORCEMENT_LEARNING; DATA_ENGINEERING; AI_STRATEGY; AI_ETHICS;
    AI_PROJECT_MANAGEMENT; AI_ROI; AI_GOVERNANCE ].

(** [tmpl.format(topic=topic)] for each of [_QUERY_TEMPLATES]. *)
Definition _QUERY_TEMPLATES (topic : string) : list string :=
  [ "free " ++ topic ++ " course open source";
    topic ++ " tutorial beginner 2024 2025";
    topic ++ " training materials open access";
    "learn " ++ topic ++ " free online";
    "best free resources " ++ topic ]%string.

(** [tmpl.format(topic=topic, keyword=keyword)] for each of
    [_GITHUB_TEMPLATES]. *)
Definition _GITHUB_TEMPLATES (topic keyword : string) : list string :=
  [ topic ++ " tutorial notebook";
    topic ++ " course exercises";
    "awesome " ++ topic;
    topic ++ " hands-on examples";
    topic ++ " learning resources";
    topic ++ " workshop lab";
    keyword ++ " jupyter notebook tutorial";
    keyword ++ " project beginner" ]%string.

Definition _build_queries (nodes : list TaxonomyNode.t) (domains : list SkillDomain)
    : list string :=
  flat_map
    (fun node =>
       if bool_decide (TaxonomyNode.domain node ∈ domains) then
         _QUERY_TEMPLATES (TaxonomyNode.display_name node)
         ++ map (fun kw => ("free " ++ kw ++ " tutorial course")%string)
                (firstn 3 (TaxonomyNode.keywords node))
       else [])
    nodes.

(** [node.keywords[0]] raises [IndexError] on a node without keywords. *)
Fixpoint _build_github_queries (nodes : list TaxonomyNode.t)
    (domains : list SkillDomain) : outcome (list string) :=
  match nodes with
  | [] => Returned []
  | node :: rest =>
      if bool_decide (TaxonomyNode.domain node ∈ domains) then
        match TaxonomyNode.keywords node with
        | [] => Raised "list index out of range"
        | keyword :: _ =>
            match _build_github_queries rest domains with
            | Raised e => Raised e
            | Returned queries =>
                Returned
                  (_GITHUB_TEMPLATES (TaxonomyNode.display_name node) keyword
                   ++ map (fun kw => (kw ++ " tutorial notebook exercises")%string)
                          (firstn 5 (TaxonomyNode.keywords node))
                   ++ queries)
            end
        end
      else _build_github_queries rest domains
  end.

(** [_search_one] : what the searcher returns, or the empty list when it
    raises an instance of [Exception]; the clause is [except Exception],
    another exception goes on to the caller. *)
Definition _search_one (searcher : Searcher.t) (query : string) (max_results : Z)
    : outcome (list SearchResult.t) :=
  match Searcher.search searcher query max_results with
  | Returned results => Returned results
  | Raised (Exception _) => Returned []
  | Raised (BaseException text) => Raised (BaseException text)
  end.

(** [asyncio.gather] over the tasks : the results in the order of the tasks; the
    first exception of a task is raised to the caller (the first of the
    list stands for the first in time). *)
Fixpoint gather {A} (tasks : list (outcome A)) : outcome (list A) :=
  match tasks with
  | [] => Returned []
  | Raised e :: _ => Raised e
  | Returned a :: rest =>
      match gather rest with
      | Returned results => Returned (a :: results)
      | Raised e => Raised e
      end
  end.

(** Flatten and deduplicate by canonical URL, first occurrence kept. *)
Fixpoint unique_by_url (seen_urls : gset string) (results : list SearchResult.t)
    : list SearchResult.t :=
  match results with
  | [] => []
  | result :: rest =>
      let canonical := canonical_url (SearchResult.url result) in
      if bool_decide (canonical ∈ seen_urls) then unique_by_url seen_urls rest
      else result :: unique_by_url ({[ canonical ]} ∪ seen_urls) rest
  end.

Section Run.
Variable settings : Settings.t.
(** The evaluator the agent was built with, and the clock: evaluation
    number [i] reads [clock (2 i)] in its scoring and [clock (2 i + 1)]
    when the resource is created. *)
Variable evaluate : datetime -> datetime -> SearchResult.t -> outcome Resource.t.
Variable clock : nat -> datetime.

(** The loop over [unique_results], from evaluation number [i] : the
    report, or the exception that is not an instance of [Exception] and
    ends the loop, with the catalog as it is then.  [None] stands for a
    reference to no object, which Python rules out. *)
Fixpoint catalogue (i : nat) (unique_results : list SearchResult.t)
    (report : DiscoveryReport.t) (st : Catalog.state)
    : option (outcome DiscoveryReport.t * Catalog.state) :=
  match unique_results with
  | [] => Some (Returned report, st)
  | result :: rest =>
      match evaluate (clock (2 * i)) (clock (2 * i + 1)) result with
      | Raised (BaseException text) => Some (Raised (BaseException text), st)
      | Raised (Exception exc) =>
          let msg := ("Failed to evaluate " ++ SearchResult.url result
                      ++ ": " ++ exc)%string in
          catalogue (S i) rest
            (DiscoveryReport.mk
               (DiscoveryReport.queries_executed report)
               (DiscoveryReport.raw_results report)
               (DiscoveryReport.new_resources report)
               (DiscoveryReport.updated_resources report)
               (DiscoveryReport.below_threshold report)
               (DiscoveryReport.errors report ++ [msg]))
            st
      | Returned resource =>
          let l := fresh (dom (Catalog.objects st)) in
          let st := Catalog.mk (<[l := resource]> (Catalog.objects st))
                      (Catalog.repo st) (Catalog._cache st) (Catalog._loaded st) in
          '(is_new, st) ← Catalog.upsert l (Settings.min_quality_score settings) st;
          resource ← Catalog.objects st !! l;
          let report :=
            if is_new : bool then
              DiscoveryReport.mk
                (DiscoveryReport.queries_executed report)
                (DiscoveryReport.raw_results report)
                (DiscoveryReport.new_resources report + 1)
                (DiscoveryReport.updated_resources report)
                (DiscoveryReport.below_threshold report)
                (DiscoveryReport.errors report)
            else if (Settings.min_quality_score settings
                       <=? Resource.quality_score resource)%float then
              DiscoveryReport.mk
                (DiscoveryReport.queries_executed report)
                (DiscoveryReport.raw_results report)
                (DiscoveryReport.new_resources report)
                (DiscoveryReport.updated_resources report + 1)
                (DiscoveryReport.below_threshold report)
                (DiscoveryReport.errors report)
            else
              DiscoveryReport.mk
                (DiscoveryReport.queries_executed report)
                (DiscoveryReport.raw_results report)
                (DiscoveryReport.new_resources report)
                (DiscoveryReport.updated_resources report)
                (DiscoveryReport.below_threshold report + 1)
                (DiscoveryReport.errors report) in
          catalogue (S i) rest report st
      end
  end.

(** [run(domains, max_results_per_query)] : the report or the exception,
    and the catalog as the run leaves it. *)
Definition run (searchers : list Searcher.t) (domains : option (list SkillDomain))
    (max_results_per_query : Z) (st : Catalog.state)
    : option (outcome DiscoveryReport.t * Catalog.state) :=
  let target_domains :=
    match domains with
    | None | Some [] => all_domains
    | Some ds => ds
    end in
  let queries := _build_queries TAXONOMY target_domains in
  match _build_github_queries TAXONOMY target_domains with
  | Raised e => Some (Raised e, st)
  | Returned github_queries =>
      let github_searchers :=
        filter (fun s => Searcher.name s = "github"%string) searchers in
      let total_tasks :=
        Z.of_nat (length queries) * Z.of_nat (length searchers)
        + Z.of_nat (length github_queries) * Z.of_nat (length github_searchers) in
      let report := DiscoveryReport.mk total_tasks 0 0 0 0 [] in
      let tasks :=
        flat_map (fun query =>
                    map (fun searcher => _search_one searcher query max_results_per_query)
                        searchers) queries
        ++ flat_map (fun query =>
                       map (fun searcher => _search_one searcher query max_results_per_query)
                           github_searchers) github_queries in
      match gather tasks with
      | Raised e => Some (Raised e, st)
      | Returned all_results_nested =>
          let unique_results := unique_by_url ∅ (concat all_results_nested) in
          let report :=
            DiscoveryReport.mk total_tasks (Z.of_nat (length unique_results)) 0 0 0 [] in
          catalogue 0 unique_results report st
      end
  end.
End Run.

End DiscoveryAgent.
(** ** [storage/repository.py] : the rest of the repositories *)

Module ResourceRepository.

(** [resources.pop(resource_id, None)] *)
Fixpoint pop {V} (k : string) (d : list (string * V)) : list (string * V) :=
  match d with
  | [] => []
  | (k', v) :: d' => if String.eqb k' k then d' else (k', v) :: pop k d'
  end.

(** [save_many] : one update of the file for all the resources. *)
Definition save_many (resources : list Resource.t) (file : list (string * Resource.t))
    : list (string * Resource.t) :=
  fold_left (fun existing r => Dict.set (Resource.id r) r existing) resources file.

(** [find_by_id] : the stored record, validated; a stored record is a
    non-empty dictionary, so it is true. *)
Definition find_by_id (resource_id : string) (file : list (string * Resource.t))
    : option Resource.t :=
  Resource.model_post_init <$> Dict.get resource_id file.

(** [delete] : whether the id was there, and the file without it. *)
Definition delete (resource_id : string) (file : list (string * Resource.t))
    : bool * list (string * Resource.t) :=
  (Dict.contains resource_id file, pop resource_id file).

End ResourceRepository.

Module CurriculumRepository.

(** [curriculum_id.replace("/", "_").replace(" ", "_")] *)
Definition safe (curriculum_id : string) : string :=
  Py.replace_char " " "_" (Py.replace_char "/" "_" curriculum_id).

(** The name of the file in the directory of the curricula. *)
Definition file_name (curriculum_id : string) : string :=
  (safe curriculum_id ++ ".json")%string.

End CurriculumRepository.

(** ** [ingestion/pipeline.py] : stage 2, flagging the duplicates *)

Module IngestionPipeline.

(** The loop over [group.duplicate_ids] : [flagged_ids] and
    [report.duplicates_flagged] as they grow. *)
Fixpoint flag_ids (dup_ids : list string) (acc : gset string * Z) : gset string * Z :=
  match dup_ids with
  | [] => acc
  | dup_id :: rest => flag_ids rest ({[ dup_id ]} ∪ acc.1, acc.2 + 1)
  end.

(** The loop over [dup_groups]. *)
Fixpoint flag_groups (dup_groups : list DuplicateGroup.t) (acc : gset string * Z)
    : gset string * Z :=
  match dup_groups with
  | [] => acc
  | group :: rest => flag_groups rest (flag_ids (DuplicateGroup.duplicate_ids group) acc)
  end.

(** [flagged_ids] and [duplicates_flagged] after stage 2, [None] standing
    for a deduplicator that does not return. *)
Definition flag_duplicates (threshold : float) (contents : list ScrapedContent.t)
    : option (gset string * Z) :=
  dup_groups ← ContentDeduplicator.find_duplicates threshold contents;
  Some (flag_groups dup_groups (∅, 0)).

End IngestionPipeline.
(** ** [curriculum/best_practices.py] *)

Module BestPracticesEngine.

Inductive SkillCategory := TECHNICAL | BUSINESS.

Definition DOMAIN_CATEGORY (d : SkillDomain) : SkillCategory :=
  match d with
  | ML_BASICS | DEEP_LEARNING | NLP | COMPUTER_VISION | MLOPS | GENERATIVE_AI
  | REINFORCEMENT_LEARNING | DATA_ENGINEERING => TECHNICAL
  | AI_STRATEGY | AI_ETHICS | AI_PROJECT_MANAGEMENT | AI_ROI | AI_GOVERNANCE => BUSINESS
  end.

Inductive Severity := INFO | WARNING | ERROR.

(** A finding.  Its [message] is display text and is left out. *)
Record ValidationIssue := mk_issue {
  path_id : string;
  rule : string;
  severity : Severity
}.

#[global] Instance Severity_eq_dec : EqDecision Severity.
Proof. solve_decision. Defined.

Section Engine.
Variable _resources : gmap string Resource.t.
Variable _max_beginner : float.
Variable _diversity_cap : float.

Definition _get_path_resources (path : LearningPath.t) : list Resource.t :=
  let rids := concat (map ModuleUnit.resource_ids (LearningPath.modules path)) in
  flat_map (fun rid => match _resources !! rid with
                       | Some r => [r]
                       | None => []
                       end) rids.

(** [Counter(providers).items()] : the providers in the order they are
    first met, each with the number of its occurrences. *)
Definition provider_counts (providers : list string) : list (string * nat) :=
  fold_left (fun counts p => Dict.set p (S (default 0%nat (Dict.get p counts))) counts)
            providers [].

(** Rule 4 looks at the first business domain of the path only. *)
Fixpoint business_rule (resources : list Resource.t) (path : LearningPath.t)
    (domains : list SkillDomain) : list ValidationIssue :=
  match domains with
  | [] => []
  | domain :: rest =>
      match DOMAIN_CATEGORY domain with
      | BUSINESS =>
          let has_strategy :=
            existsb (fun r =>
                       let text := Py.lower (Resource.description r
                                             ++ Py.join " " (Resource.tags r))%string in
                       Py.contains "case study" text || Py.contains "strategy" text)
                    resources in
          if has_strategy then []
          else [mk_issue (LearningPath.id path) "business_needs_cases" INFO]
      | TECHNICAL => business_rule resources path rest
      end
  end.

(** The findings of one path, rule after rule. *)
Definition path_issues (path : LearningPath.t) : list ValidationIssue :=
  let resources := _get_path_resources path in
  let content_types := map Resource.content_type resources in
  let providers :=
    filter (fun p => p <> ""%string) (map Resource.provider resources) in
  let issue := mk_issue (LearningPath.id path) in
  (* Rule 1: hands-on content *)
  (if existsb (fun c => bool_decide (c = INTERACTIVE_NOTEBOOK) || bool_decide (c = COURSE))
              content_types
   then [] else [issue "hands_on_required"%string WARNING])
  (* Rule 2: beginner hour cap *)
  ++ (if bool_decide (LearningPath.difficulty path = BEGINNER)
         && (_max_beginner <? LearningPath.total_estimated_hours path)%float
      then [issue "beginner_hour_cap"%string WARNING] else [])
  (* Rule 3: advanced paths need a paper *)
  ++ (if bool_decide (LearningPath.difficulty path = ADVANCED)
         && negb (bool_decide (PAPER ∈ content_types))
      then [issue "advanced_needs_paper"%string INFO] else [])
  (* Rule 4: business paths need case studies *)
  ++ business_rule resources path (LearningPath.domains path)
  (* Rule 5: prerequisites declared *)
  ++ (match LearningPath.prerequisites path with
      | [] => if bool_decide (LearningPath.difficulty path <> BEGINNER)
              then [issue "prerequisites_required"%string WARNING] else []
      | _ => []
      end)
  (* Rule 6: provider diversity *)
  ++ (let total := length providers in
      flat_map (fun pc : string * nat =>
                  if (_diversity_cap <? PyFloat.of_nat pc.2 / PyFloat.of_nat total)%float
                  then [issue "provider_diversity"%string WARNING] else [])
               (provider_counts providers))
  (* Rule 7: objectives per module *)
  ++ flat_map (fun m => match ModuleUnit.objectives m with
                        | [] => [issue "module_objectives"%string INFO]
                        | _ => []
                        end)
              (LearningPath.modules path).

(** [validate(curriculum).issues], for the learning paths of the curriculum. *)
Definition validate (learning_paths : list LearningPath.t) : list ValidationIssue :=
  flat_map path_issues learning_paths.

(** [ValidationReport.error_count] and [warning_count] *)
Definition error_count (issues : list ValidationIssue) : nat :=
  length (filter (fun i => severity i = ERROR) issues).
Definition warning_count (issues : list ValidationIssue) : nat :=
  length (filter (fun i => severity i = WARNING) issues).
End Engine.

End BestPracticesEngine.
(** ** [ingestion/categorizer.py] *)

Module ContentCategorizer.

Record CategorizedResult := mk {
  resource_id : string;
  primary_domain : option SkillDomain;
  secondary_domains : list SkillDomain;
  tags : list string;
  domain_scores : list (string * float)
}.

(** [taxonomy or TAXONOMY] *)
Definition taxonomy_or_default (taxonomy : option (list TaxonomyNode.t))
    : list TaxonomyNode.t :=
  match taxonomy with
  | None | Some [] => TAXONOMY
  | Some nodes => nodes
  end.

Section Categorize.
Variable _taxonomy : list TaxonomyNode.t.
Variable _primary_threshold : float.
Variable _secondary_threshold : float.

(** The loop over the sorted scores: [primary], [secondary] and [tags] as
    they grow. *)
Fixpoint assign (text : string) (scores : list (float * TaxonomyNode.t))
    (primary : option SkillDomain) (secondary : list SkillDomain) (tags : list string)
    : option SkillDomain * list SkillDomain * list string :=
  match scores with
  | [] => (primary, secondary, tags)
  | (score, node) :: rest =>
      if (_primary_threshold <=? score)%float
         && match primary with None => true | Some _ => false end
      then
        assign text rest (Some (TaxonomyNode.domain node)) secondary
          (tags ++ filter (fun subtopic =>
                             Py.contains (Py.lower subtopic) (Py.lower text) = true)
                          (TaxonomyNode.subtopics node))
      else if (_secondary_threshold <=? score)%float
      then assign text rest primary (secondary ++ [TaxonomyNode.domain node]) tags
      else assign text rest primary secondary tags
  end.

Definition categorize (content : ScrapedContent.t) : CategorizedResult :=
  let text :=
    (Py.join " " (ScrapedContent.headings content) ++ " "
     ++ Py.slice_to (Z.to_nat 10000) (ScrapedContent.text_content content))%string in
  let scores :=
    map (fun node => (TextProcessing.keyword_score text (TaxonomyNode.keywords node), node))
        _taxonomy in
  let scores := PyFloat.sorted_desc fst scores in
  let domain_scores :=
    fold_left (fun d (sn : float * TaxonomyNode.t) =>
                 if (0 <? sn.1)%float
                 then Dict.set (LearningPathBuilder.domain_value (TaxonomyNode.domain sn.2))
                               (PyFloat.round sn.1 4) d
                 else d)
              scores [] in
  let '(primary, secondary, tags) := assign text scores None [] [] in
  mk (ScrapedContent.resource_id content) primary
     (firstn 4 secondary) (firstn 15 tags) domain_scores.
End Categorize.

End ContentCategorizer.


(** * The vocabulary of the properties, and example inputs *)

(** ** The catalog *)

(** Every reference the loaded cache holds is to a live object. *)
Definition closed (st : Catalog.state) : Prop :=
  forall k le, Catalog._cache (Catalog._ensure_loaded st) !! k = Some le ->
    is_Some (Catalog.objects (Catalog._ensure_loaded st) !! le).

(** Two resources for one URL, and a catalog that has loaded nothing yet. *)
Definition example_first : Resource.t :=
  Resource.create 100 "https://example.com/course" "A course" "" "" []
    COURSE BEGINNER 0.5 [].
Definition example_second : Resource.t :=
  Resource.create 200 "https://EXAMPLE.com/course/" "A course" "" "" []
    COURSE BEGINNER 0.7 [].
Definition example_state : Catalog.state :=
  Catalog.mk (<[2%positive := example_second]> (<[1%positive := example_first]> ∅))
             [] ∅ false.

(** The canonical URL in the specification's words: lowercased, trailing
    slashes stripped. *)
Definition spec_canonical_url (url : string) : string :=
  Py.lower (Py.rstrip_char "/" url).

(** ** The deduplicator *)

(** The trigram set and the similarity [find_duplicates] computes for
    documents: over the first 5000 characters. *)
Definition doc_trigrams (c : ScrapedContent.t) : gset string :=
  TextProcessing.trigrams
    (Py.slice_to ContentDeduplicator.PREFIX (ScrapedContent.text_content c)).
Definition doc_similarity (c1 c2 : ScrapedContent.t) : float :=
  TextProcessing.jaccard (doc_trigrams c1) (doc_trigrams c2).

(** A document with the given id, text and headings. *)
Definition document (rid text : string) (headings : list string) : ScrapedContent.t :=
  ScrapedContent.mk rid "" text headings [] [] "" 0 0.

Definition example_A : ScrapedContent.t :=
  document "a" "Gradient descent explained: a short introduction." ["Intro"%string].
Definition example_B : ScrapedContent.t :=
  document "b" "Gradient descent explained - a short introduction!"
           ["Intro"; "Steps"]%string.
Definition example_C : ScrapedContent.t :=
  document "c" "Baking bread at home" [].

(** 5000 dashes and then two letters; and the two letters alone. *)
Definition example_long : ScrapedContent.t :=
  document "a" (Py.repeat_str "-" ContentDeduplicator.PREFIX ++ "ab") [].
Definition example_short : ScrapedContent.t :=
  document "b" "ab" [].

(** The union-find of [find_duplicates]. *)

(** [root parent x r] : the chain of parents that starts at [x] ends at the
    root [r]. *)
Inductive root (parent : gmap string string) : string -> string -> Prop :=
  | root_here x : parent !! x = Some x -> root parent x x
  | root_up x p r :
      parent !! x = Some p -> p <> x -> root parent p r -> root parent x r.

(** Two ids are in the same cluster. *)
Definition same (parent : gmap string string) (x y : string) : Prop :=
  exists r, root parent x r /\ root parent y r.

(** [parent] is a forest over [ids] : [rank] grows along every link, and is
    bounded by the number of the [linked] ids, those that are not roots. *)
Record forest (ids : gset string) (parent : gmap string string)
    (rank : string -> nat) (linked : gset string) : Prop := {
  forest_dom : dom parent = ids;
  forest_closed : forall x p, parent !! x = Some p -> p ∈ ids;
  forest_rank : forall x p, parent !! x = Some p -> p <> x -> (rank x < rank p)%nat;
  forest_linked : forall x, x ∈ linked <-> exists p, parent !! x = Some p /\ p <> x;
  forest_bound : forall x, (rank x <= size linked)%nat
}.

Definition is_forest (ids : gset string) (parent : gmap string string) : Prop :=
  exists rank linked, forest ids parent rank linked.

(** The dictionary [tri_map] and the first [parent] that [find_duplicates]
    builds, from the dictionary [d]. *)
Definition tri_map_of (contents : list ScrapedContent.t)
    (d : list (string * gset string)) : list (string * gset string) :=
  fold_left (fun d c => Dict.set (ScrapedContent.resource_id c) (doc_trigrams c) d)
            contents d.

Definition parent_of (ids : list string) (d : gmap string string) : gmap string string :=
  fold_left (fun d rid => <[rid := rid]> d) ids d.

(** The similarity of the documents stored under [x] and [y] reaches the
    threshold. *)
Definition alike_ids (thr : float) (tri_map : list (string * gset string))
    (x y : string) : Prop :=
  exists tx ty, Dict.get x tri_map = Some tx /\ Dict.get y tri_map = Some ty
                /\ (thr <=? TextProcessing.jaccard tx ty)%float = true.

(** ** The learning path builder *)

(** The number of resources of a list that fall in the provider bucket [p]. *)
Definition bucket_count (p : string) (rs : list Resource.t) : nat :=
  length (filter (fun r => LearningPathBuilder.provider_key r = p) rs).

(** The initial selection pass and the deferred tail, for a cap per provider. *)
Definition selection (m : Z) (rs : list Resource.t) : list Resource.t * list Resource.t :=
  LearningPathBuilder.diversity_pass m ∅ rs [] [].

(** One resource of the provider [p], the rest at the defaults. *)
Definition resource_of (p : string) (u : string) : Resource.t :=
  Resource.create 0 u u "" p [] TUTORIAL BEGINNER 0.5 [].

(** Ten resources, eight of them from "X". *)
Definition ten_resources : list Resource.t :=
  [ resource_of "X" "https://x.org/1"; resource_of "X" "https://x.org/2";
    resource_of "Y" "https://y.org/1"; resource_of "X" "https://x.org/3";
    resource_of "X" "https://x.org/4"; resource_of "X" "https://x.org/5";
    resource_of "" "https://z.org/1"; resource_of "X" "https://x.org/6";
    resource_of "X" "https://x.org/7"; resource_of "X" "https://x.org/8" ].

(** Every running total along [p], the total of [p] included, is within
    the cap. *)
Definition within_cap (cap : float) (p : list ModuleUnit.t) : Prop :=
  forall q, q <> [] -> q `prefix_of` p ->
    (LearningPathBuilder.total_hours q <=? cap)%float = true.

(** Two beginner resources of 10.25 and 15 hours, one resource per module,
    a cap of 20 hours. *)
Definition one_per_module : Settings.t := Settings.mk 0.3 1 20 0.4.
Definition beginner_pair : list Resource.t :=
  [ Resource.mk "r1" "https://a.org/1" "First" "" "a" [ML_BASICS] COURSE BEGINNER
      UNKNOWN "en" (Some 10.25%float) [] [] 0.9 0 None true [];
    Resource.mk "r2" "https://b.org/2" "Second" "" "b" [ML_BASICS] COURSE BEGINNER
      UNKNOWN "en" (Some 15%float) [] [] 0.8 0 None true [] ].

(** Three beginner resources of 25, -10 and 10 hours: [estimated_hours]
    has no lower bound. *)
Definition beginner_triple : list Resource.t :=
  [ Resource.mk "r1" "https://a.org/1" "First" "" "a" [ML_BASICS] COURSE BEGINNER
      UNKNOWN "en" (Some 25%float) [] [] 0.9 0 None true [];
    Resource.mk "r2" "https://b.org/2" "Second" "" "b" [ML_BASICS] COURSE BEGINNER
      UNKNOWN "en" (Some (-10)%float) [] [] 0.8 0 None true [];
    Resource.mk "r3" "https://c.org/3" "Third" "" "c" [ML_BASICS] COURSE BEGINNER
      UNKNOWN "en" (Some 10%float) [] [] 0.7 0 None true [] ].

(** ** The evaluator *)

Definition outcome_map {A B} (f : A -> B) (o : outcome A) : outcome B :=
  match o with
  | Returned a => Returned (f a)
  | Raised e => Raised e
  end.

(** A resource with the two fields that depend on the clock blanked. *)
Definition without_clock_fields (r : Resource.t) : Resource.t :=
  Resource.set_quality_score 0 (Resource.set_discovered_at 0 r).

(** What [datetime.fromisoformat] returns on the one date used below:
    1 January 2024, 00:00 UTC, in microseconds since the epoch. *)
Definition new_year_2024 (s : string) : option datetime :=
  if String.eqb s "2024-01-01T00:00:00+00:00" then Some 1704067200000000 else None.

(** 1 June 2024, 1 July 2024 and 1 June 2026, 00:00 UTC. *)
Definition june_2024 : datetime := 1717200000000000.
Definition july_2024 : datetime := 1719792000000000.
Definition june_2026 : datetime := 1780272000000000.

Definition example_result : SearchResult.t :=
  SearchResult.mk "https://github.com/example/ml-course" "example/ml-course"
    "A machine learning course." "github"
    [("updated_at"%string, JStr "2024-01-01T00:00:00Z")].

(** The same result with the date as a number, as an API may give it. *)
Definition numeric_date_result : SearchResult.t :=
  SearchResult.mk "https://github.com/example/ml-course" "example/ml-course"
    "A machine learning course." "github"
    [("updated_at"%string, JInt 1704067200)].

Definition score_and_date (o : outcome Resource.t) : option (float * datetime) :=
  match o with
  | Returned r => Some (Resource.quality_score r, Resource.discovered_at r)
  | Raised _ => None
  end.

(** ** The discovery agent *)

(** A result that is not an exception outside [Exception]. *)
Definition uninterrupted {A} (o : outcome A) : Prop :=
  match o with
  | Raised (BaseException _) => False
  | _ => True
  end.

(** The searcher [s] with its call for [query] and [max_results] replaced
    by one that returns no result. *)
Definition quiet (s : Searcher.t) (query : string) (max_results : Z) : Searcher.t :=
  Searcher.mk (Searcher.name s)
    (fun q m => if String.eqb q query && (m =? max_results) then Returned []
                else Searcher.search s q m).

(** Two lists of searchers whose tasks end alike. *)
Definition alike (ss ss' : list Searcher.t) : Prop :=
  Forall2 (fun s s' =>
             Searcher.name s = Searcher.name s'
             /\ forall q m, DiscoveryAgent._search_one s q m
                            = DiscoveryAgent._search_one s' q m) ss ss'.

(** A searcher that fails on every query, and one that finds nothing. *)
Definition failing_searcher : Searcher.t :=
  Searcher.mk "github" (fun _ _ => Raised "connection reset").
Definition silent_searcher : Searcher.t :=
  Searcher.mk "google" (fun _ _ => Returned []).

(** A searcher whose calls are cancelled: [asyncio.CancelledError()],
    whose text is empty. *)
Definition cancelled_searcher : Searcher.t :=
  Searcher.mk "google" (fun _ _ => Raised (BaseException "")).
(** ** More of the deduplicator *)

(** Every parent link is in the relation [R]. *)
Definition links (R : string -> string -> Prop) (parent : gmap string string) : Prop :=
  forall x p, parent !! x = Some p -> R x p.

(** The heading counts [find_duplicates] builds, and their order on ids. *)
Definition heading_counts_of (contents : list ScrapedContent.t) (d : gmap string nat)
    : gmap string nat :=
  fold_left (fun d c => <[ScrapedContent.resource_id c :=
                            length (ScrapedContent.headings c)]> d) contents d.

Definition fewer_headings (hc : gmap string nat) (x y : string) : Prop :=
  (ContentDeduplicator.heading_count hc x <= ContentDeduplicator.heading_count hc y)%nat.

(** The ids of a group, the canonical one first. *)
Definition group_ids (g : DuplicateGroup.t) : list string :=
  DuplicateGroup.canonical_id g :: DuplicateGroup.duplicate_ids g.
(** ** Normalised text *)

(** No character but a-z, 0-9 and the space; no space after a space, nor
    at the start when [after_space] holds. *)
Fixpoint tidy (after_space : bool) (s : string) : bool :=
  match s with
  | EmptyString => true
  | String c s' =>
      if Ascii.eqb c " " then negb after_space && tidy true s'
      else TextProcessing.is_az09 c && tidy false s'
  end.

Fixpoint no_trailing_space (s : string) : bool :=
  match s with
  | EmptyString => true
  | String c EmptyString => negb (Ascii.eqb c " ")
  | String _ s' => no_trailing_space s'
  end.

(** Words of a-z and 0-9 with one space between them. *)
Definition normal (s : string) : bool := tidy true s && no_trailing_space s.
(** ** The discovery report *)

(** The results a report accounts for: new, updated, below the threshold,
    or failed. *)
Definition accounted (report : DiscoveryReport.t) : Z :=
  DiscoveryReport.new_resources report + DiscoveryReport.updated_resources report
  + DiscoveryReport.below_threshold report
  + Z.of_nat (length (DiscoveryReport.errors report)).

(** The canonical URL of a search result, as the agent's [seen_urls] has it. *)
Definition result_url (result : SearchResult.t) : string :=
  canonical_url (SearchResult.url result).

(** The taxonomy nodes a run makes queries for: all of them when no domain
    is asked for. *)
Definition targeted (domains : option (list SkillDomain)) : list TaxonomyNode.t :=
  let target_domains :=
    match domains with
    | None | Some [] => DiscoveryAgent.all_domains
    | Some ds => ds
    end in
  filter (fun node => TaxonomyNode.domain node ∈ target_domains) TAXONOMY.
(** ** The catalog and its file *)

(** The resource the catalog holds under an id. *)
Definition held (st : Catalog.state) (k : string) : option Resource.t :=
  l ← Catalog._cache st !! k; Catalog.objects st !! l.

(** The catalog and the file have the same record under every id. *)
Definition in_sync (st : Catalog.state) : Prop :=
  forall k, held st k = Dict.get k (Catalog.repo st).

(** No key twice, and every record under its own id, which is not empty. *)
Definition well_keyed (file : list (string * Resource.t)) : Prop :=
  NoDup (Dict.keys file)
  /\ forall k v, (k, v) ∈ file -> Resource.id v = k /\ k <> ""%string.

(** A catalog made anew over the same file, and loaded. *)
Definition reopened (st : Catalog.state) : Catalog.state :=
  Catalog._ensure_loaded (Catalog.mk (Catalog.objects st) (Catalog.repo st) ∅ false).


(** * Lemmas and theorems *)

(** ** The order of binary64 numbers *)

Module FloatOrder.
Local Open Scope float_scope.

Ltac cmp_cases :=
  repeat match goal with
  | H : context [(?a ?= ?b)%Z] |- _ => destruct (Z.compare_spec a b)
  | |- context [(?a ?= ?b)%Z] => destruct (Z.compare_spec a b)
  | H : context [Pos.compare_cont Eq ?a ?b] |- _ =>
      change (Pos.compare_cont Eq a b) with (Pos.compare a b) in *;
      destruct (Pos.compare_spec a b)
  | |- context [Pos.compare_cont Eq ?a ?b] =>
      change (Pos.compare_cont Eq a b) with (Pos.compare a b) in *;
      destruct (Pos.compare_spec a b)
  end.

Ltac sf_cases :=
  intros;
  repeat match goal with x : spec_float |- _ => destruct x as [[]|[]| |[] ? ?] end;
  simpl in *; try discriminate; try congruence; try reflexivity;
  cmp_cases; simpl in *; subst; try discriminate; try congruence;
  try reflexivity; try lia.

Lemma SFleb_trans x y z : SFleb x y = true -> SFleb y z = true -> SFleb x z = true.
Proof. unfold SFleb. sf_cases. Qed.

Lemma SFltb_SFleb x y : SFltb x y = true -> SFleb x y = true.
Proof. unfold SFltb, SFleb. destruct (SFcompare x y) as [[]|]; auto. Qed.

Lemma SFleb_total x y :
  x <> S754_nan -> y <> S754_nan -> SFltb x y = false -> SFleb y x = true.
Proof. unfold SFleb, SFltb. sf_cases. Qed.

Lemma SFleb_not_ltb x y : SFleb x y = true -> SFltb y x = false.
Proof. unfold SFleb, SFltb. sf_cases. Qed.

Lemma SFleb_number_l x y : SFleb x y = true -> SFeqb x x = true.
Proof. unfold SFleb, SFeqb. sf_cases. Qed.

Lemma SFleb_number_r x y : SFleb x y = true -> SFeqb y y = true.
Proof. unfold SFleb, SFeqb. sf_cases. Qed.

Lemma SFeqb_refl_number x : SFeqb x x = true -> x <> S754_nan.
Proof. intros H ->. discriminate. Qed.

Lemma SFleb_refl x : SFeqb x x = true -> SFleb x x = true.
Proof. unfold SFleb, SFeqb. sf_cases. Qed.

Lemma leb_trans x y z : (x <=? y) = true -> (y <=? z) = true -> (x <=? z) = true.
Proof. rewrite !FloatAxioms.leb_spec. apply SFleb_trans. Qed.

Lemma ltb_leb x y : (x <? y) = true -> (x <=? y) = true.
Proof. rewrite FloatAxioms.ltb_spec, FloatAxioms.leb_spec. apply SFltb_SFleb. Qed.

Lemma not_ltb_leb x y :
  PyFloat.is_number x = true -> PyFloat.is_number y = true -> (x <? y) = false -> (y <=? x) = true.
Proof.
  unfold PyFloat.is_number. rewrite !FloatAxioms.eqb_spec, FloatAxioms.ltb_spec, FloatAxioms.leb_spec. intros Hx Hy.
  apply SFleb_total; now apply SFeqb_refl_number.
Qed.

Lemma leb_not_ltb x y : (x <=? y) = true -> (y <? x) = false.
Proof. rewrite FloatAxioms.ltb_spec, FloatAxioms.leb_spec. apply SFleb_not_ltb. Qed.

Lemma leb_number_l x y : (x <=? y) = true -> PyFloat.is_number x = true.
Proof. unfold PyFloat.is_number. rewrite FloatAxioms.eqb_spec, FloatAxioms.leb_spec. apply SFleb_number_l. Qed.

Lemma leb_number_r x y : (x <=? y) = true -> PyFloat.is_number y = true.
Proof. unfold PyFloat.is_number. rewrite FloatAxioms.eqb_spec, FloatAxioms.leb_spec. apply SFleb_number_r. Qed.

Lemma leb_refl x : PyFloat.is_number x = true -> (x <=? x) = true.
Proof. unfold PyFloat.is_number. rewrite FloatAxioms.eqb_spec, FloatAxioms.leb_spec. apply SFleb_refl. Qed.

(** [max(a, b)] is one of its arguments and bounds both. *)
Lemma max_cases a b : PyFloat.max a b = a \/ PyFloat.max a b = b.
Proof. unfold PyFloat.max. destruct (a <? b); auto. Qed.

Lemma max_ge_l a b :
  PyFloat.is_number a = true -> (a <=? PyFloat.max a b) = true.
Proof.
  intros Ha. unfold PyFloat.max. destruct (a <? b) eqn:E.
  - now apply ltb_leb.
  - now apply leb_refl.
Qed.

Lemma max_ge_r a b :
  PyFloat.is_number a = true -> PyFloat.is_number b = true -> (b <=? PyFloat.max a b) = true.
Proof.
  intros Ha Hb. unfold PyFloat.max. destruct (a <? b) eqn:E.
  - now apply leb_refl.
  - now apply not_ltb_leb.
Qed.

Lemma max_number a b :
  PyFloat.is_number a = true -> PyFloat.is_number b = true -> PyFloat.is_number (PyFloat.max a b) = true.
Proof. intros Ha Hb. destruct (max_cases a b) as [-> | ->]; assumption. Qed.

End FloatOrder.

(** [round] on a few values, as Python gives them: a tie of the exact
    binary value goes to the even digit (10.25, 0.125, 2.5), 2.675 is under
    the tie, and a value beyond 2^53 / 10 is rounded once. *)
Example round_values :
  PyFloat.round 10.25%float 1 = 10.2%float
  /\ PyFloat.round 0.125%float 2 = 0.12%float
  /\ PyFloat.round 2.675%float 2 = 2.67%float
  /\ PyFloat.round 2.5%float 0 = 2%float
  /\ PyFloat.round 1000000000000000.125%float 1 = 1000000000000000.1%float.
Proof. repeat split; vm_compute; reflexivity. Qed.


(** ** The catalog *)

Section CatalogFacts.
Import Catalog FloatOrder.
Local Open Scope float_scope.

Lemma dict_get_set {V} k (v : V) d : Dict.get k (Dict.set k v d) = Some v.
Proof.
  induction d as [|[k' v'] d IH]; simpl.
  - now rewrite String.eqb_refl.
  - destruct (String.eqb k' k) eqn:E; simpl; now rewrite E.
Qed.

Lemma load_keeps_objects stored : forall objs cache l r,
  objs !! l = Some r -> (load stored objs cache).1 !! l = Some r.
Proof.
  induction stored as [|v rest IH]; intros objs cache l r Hl; simpl; [done|].
  apply IH. rewrite lookup_insert_ne; [done|].
  intros <-. apply (is_fresh (dom objs)). apply elem_of_dom. eauto.
Qed.

Lemma ensure_loaded_keeps_objects st l r :
  objects st !! l = Some r -> objects (_ensure_loaded st) !! l = Some r.
Proof.
  intros Hl. unfold _ensure_loaded. destruct (_loaded st); [done|].
  pose proof (load_keeps_objects (Dict.values (repo st)) (objects st) ∅ l r Hl) as H.
  destruct (load _ _ _) as [objs cache]. exact H.
Qed.

Lemma ensure_loaded_loaded st : _loaded (_ensure_loaded st) = true.
Proof.
  unfold _ensure_loaded. destruct (_loaded st) eqn:E; [done|].
  now destruct (load _ _ _).
Qed.

Lemma ensure_loaded_idem st : _loaded st = true -> _ensure_loaded st = st.
Proof. intros H. unfold _ensure_loaded. now rewrite H. Qed.

Lemma ensure_loaded_repo st : repo (_ensure_loaded st) = repo st.
Proof.
  unfold _ensure_loaded. destruct (_loaded st); [done|]. now destruct (load _ _ _).
Qed.

(** What one upsert does to a resource that is at or above the threshold,
    when its id is new and when it is not. *)
Lemma upsert_new st l r min_score :
  objects st !! l = Some r ->
  (Resource.quality_score r <? min_score) = false ->
  _cache (_ensure_loaded st) !! Resource.id r = None ->
  upsert l min_score st =
    Some (true, mk (objects (_ensure_loaded st)) (save r (repo st))
                   (<[Resource.id r := l]> (_cache (_ensure_loaded st))) true).
Proof.
  intros Hl Hs Hc. unfold upsert. rewrite Hl. simpl.
  rewrite Hs, Hc, ensure_loaded_repo. reflexivity.
Qed.

Lemma upsert_merge st l r le existing min_score :
  objects st !! l = Some r ->
  (Resource.quality_score r <? min_score) = false ->
  _cache (_ensure_loaded st) !! Resource.id r = Some le ->
  objects (_ensure_loaded st) !! le = Some existing ->
  let r' := Resource.set_discovered_at (Resource.discovered_at existing)
              (Resource.set_quality_score
                 (PyFloat.max (Resource.quality_score r)
                              (Resource.quality_score existing)) r) in
  upsert l min_score st =
    Some (false, mk (<[l := r']> (objects (_ensure_loaded st))) (save r' (repo st))
                    (<[Resource.id r := l]> (_cache (_ensure_loaded st))) true).
Proof.
  intros Hl Hs Hc He. unfold upsert. rewrite Hl. simpl.
  rewrite Hs, Hc. simpl. rewrite He. simpl.
  rewrite ensure_loaded_repo. reflexivity.
Qed.

Lemma upsert_rejected st l r min_score :
  objects st !! l = Some r ->
  (Resource.quality_score r <? min_score) = true ->
  upsert l min_score st = Some (false, st).
Proof. intros Hl Hs. unfold upsert. rewrite Hl. simpl. now rewrite Hs. Qed.

(** Re-submissions of an id that is in the catalog: the entry keeps the
    first [discovered_at], and its score ends at or above every score
    submitted, and is one of them or the one it had. *)
Lemma upsert_all_merge min_score k : forall ls st lk rk,
  _loaded st = true ->
  _cache st !! k = Some lk ->
  objects st !! lk = Some rk ->
  Dict.get k (repo st) = Some rk ->
  PyFloat.is_number (Resource.quality_score rk) = true ->
  (forall l, l ∈ ls -> exists r, objects st !! l = Some r /\ Resource.id r = k
       /\ (min_score <=? Resource.quality_score r) = true) ->
  exists bs st' lk' rk',
    upsert_all ls min_score st = Some (bs, st')
    /\ _loaded st' = true
    /\ _cache st' !! k = Some lk' /\ objects st' !! lk' = Some rk'
    /\ Dict.get k (repo st') = Some rk'
    /\ dom (_cache st') = dom (_cache st)
    /\ Resource.discovered_at rk' = Resource.discovered_at rk
    /\ (Resource.quality_score rk' = Resource.quality_score rk
        \/ exists l r, l ∈ ls /\ objects st !! l = Some r
             /\ Resource.quality_score rk' = Resource.quality_score r)
    /\ (Resource.quality_score rk <=? Resource.quality_score rk') = true
    /\ (forall l r, l ∈ ls -> objects st !! l = Some r ->
          (Resource.quality_score r <=? Resource.quality_score rk') = true).
Proof.
  induction ls as [|l ls IH]; intros st lk rk Hld Hc Hlk Hrepo Hnum Hall.
  - exists [], st, lk, rk. simpl. repeat split; auto.
    + now apply leb_refl.
    + intros l r Hin. now apply elem_of_nil in Hin.
  - destruct (Hall l) as (r & Hl & Hid & Hs); [left|].
    pose proof (leb_number_r _ _ Hs) as Hnr.
    set (r' := Resource.set_discovered_at (Resource.discovered_at rk)
                 (Resource.set_quality_score
                    (PyFloat.max (Resource.quality_score r)
                                 (Resource.quality_score rk)) r)).
    assert (Hup : upsert l min_score st =
              Some (false, mk (<[l := r']> (objects st)) (save r' (repo st))
                              (<[k := l]> (_cache st)) true)).
    { unfold upsert. rewrite Hl. simpl.
      rewrite (leb_not_ltb _ _ Hs), (ensure_loaded_idem st Hld), Hid, Hc. simpl.
      rewrite Hlk. reflexivity. }
    set (st1 := mk (<[l := r']> (objects st)) (save r' (repo st))
                   (<[k := l]> (_cache st)) true) in *.
    assert (Hs' : (min_score <=? Resource.quality_score r') = true).
    { simpl. eapply leb_trans; [exact Hs|]. now apply max_ge_l. }
    destruct (IH st1 l r') as (bs & st' & lk' & rk' & Hrun & Hld' & Hc' & Hlk' & Hrepo' & Hdom
                               & Hdisc & Hone & Hge & Hall');
      simpl; auto.
    + apply lookup_insert_eq.
    + apply lookup_insert_eq.
    + unfold save. replace (Resource.id r') with k by (symmetry; exact Hid).
      apply dict_get_set.
    + now apply max_number.
    + intros l2 Hin2. destruct (decide (l2 = l)) as [->|Hne].
      * exists r'. rewrite lookup_insert_eq. auto.
      * destruct (Hall l2) as (r2 & Hl2 & Hid2 & Hs2); [now right|].
        exists r2. rewrite lookup_insert_ne by congruence. auto.
    + exists (false :: bs), st', lk', rk'. simpl. rewrite Hup. simpl. rewrite Hrun. simpl.
      repeat split; auto.
      * rewrite Hdom. simpl. apply dom_insert_lookup_L. eauto.
      * destruct Hone as [Hone | (l2 & r2 & Hin2 & Hl2 & Hone)].
        -- simpl in Hone. rewrite Hone.
           destruct (max_cases (Resource.quality_score r) (Resource.quality_score rk))
             as [-> | ->]; [right | now left].
           exists l, r. split; [left|]. auto.
        -- simpl in Hl2. destruct (decide (l2 = l)) as [->|Hne].
           ++ rewrite lookup_insert_eq in Hl2. injection Hl2 as <-. simpl in Hone.
              rewrite Hone.
              destruct (max_cases (Resource.quality_score r) (Resource.quality_score rk))
                as [-> | ->]; [right | now left].
              exists l, r. split; [left|]. auto.
           ++ rewrite lookup_insert_ne in Hl2 by congruence.
              right. exists l2, r2. split; [now right|]. auto.
      * eapply leb_trans; [|exact Hge]. simpl. now apply max_ge_r.
      * intros l2 r2 Hin2 Hl2.
        assert (Hr : (Resource.quality_score r <=? Resource.quality_score rk') = true).
        { eapply leb_trans; [|exact Hge]. simpl. now apply max_ge_l. }
        destruct (decide (l2 = l)) as [->|Hne].
        -- rewrite Hl in Hl2. injection Hl2 as <-. exact Hr.
        -- apply elem_of_cons in Hin2 as [->|Hin2]; [done|].
           apply (Hall' l2 r2 Hin2). simpl. now rewrite lookup_insert_ne by congruence.
Qed.

End CatalogFacts.

Section CatalogClaims.
Import Catalog FloatOrder.
Local Open Scope float_scope.

(** C1 (upsert idempotence).  Submissions [l0 :: ls] of resources that all
    carry the id [k], each at or above [min_score], to a catalog that has no
    entry under [k]: every upsert goes through; afterwards the catalog holds
    one more entry, the one under [k], written through to the repository;
    its score is one of the submitted scores and at or above all of them;
    its [discovered_at] is that of the first submission.  The same object
    may be submitted several times. *)
Theorem upsert_idempotence st min_score k l0 ls :
  (forall l, l ∈ l0 :: ls -> exists r, objects st !! l = Some r
      /\ Resource.id r = k /\ (min_score <=? Resource.quality_score r) = true) ->
  _cache (_ensure_loaded st) !! k = None ->
  exists bs st' lk rk,
    upsert_all (l0 :: ls) min_score st = Some (bs, st')
    /\ _cache st' !! k = Some lk /\ objects st' !! lk = Some rk
    /\ Dict.get k (repo st') = Some rk
    /\ dom (_cache st') = {[ k ]} ∪ dom (_cache (_ensure_loaded st))
    /\ Catalog.count st' = S (Catalog.count st)
    /\ (exists l r, l ∈ l0 :: ls /\ objects st !! l = Some r
          /\ Resource.quality_score rk = Resource.quality_score r)
    /\ (forall l r, l ∈ l0 :: ls -> objects st !! l = Some r ->
          (Resource.quality_score r <=? Resource.quality_score rk) = true)
    /\ (exists r0, objects st !! l0 = Some r0
          /\ Resource.discovered_at rk = Resource.discovered_at r0).
Proof.
  intros Hall Hnone.
  destruct (Hall l0) as (r0 & Hl0 & Hid0 & Hs0); [left|].
  subst k.
  pose proof (upsert_new st l0 r0 min_score Hl0 (leb_not_ltb _ _ Hs0) Hnone) as Hup.
  set (st1 := mk (objects (_ensure_loaded st)) (save r0 (repo st))
                 (<[Resource.id r0 := l0]> (_cache (_ensure_loaded st))) true) in *.
  destruct (upsert_all_merge min_score (Resource.id r0) ls st1 l0 r0)
    as (bs & st' & lk & rk & Hrun & Hld & Hc & Hlk & Hrepo & Hdom & Hdisc & Hone & Hge & Hall');
    simpl; auto.
  - apply lookup_insert_eq.
  - now apply ensure_loaded_keeps_objects.
  - apply dict_get_set.
  - exact (leb_number_r _ _ Hs0).
  - intros l Hin. destruct (Hall l) as (r & Hl & Hid & Hs); [now right|].
    exists r. split; [now apply ensure_loaded_keeps_objects | auto].
  - assert (Hback : forall l r, l ∈ ls -> objects st1 !! l = Some r ->
                      objects st !! l = Some r).
    { intros l r Hin Hl1. destruct (Hall l) as (r2 & Hl & _); [now right|].
      pose proof (ensure_loaded_keeps_objects st l r2 Hl) as E.
      unfold st1 in Hl1. simpl in Hl1. congruence. }
    exists (true :: bs), st', lk, rk. simpl. rewrite Hup. simpl. rewrite Hrun. simpl.
    assert (Hdom' : dom (_cache st') =
                    {[Resource.id r0]} ∪ dom (_cache (_ensure_loaded st))).
    { rewrite Hdom. simpl. apply dom_insert_L. }
    repeat split; auto.
    + unfold Catalog.count.
      rewrite (ensure_loaded_idem st' Hld), <- !size_dom, Hdom'.
      rewrite size_union, size_singleton; [done|].
      apply disjoint_singleton_l. now apply not_elem_of_dom.
    + destruct Hone as [Hone | (l & r & Hin & Hl & Hone)].
      * exists l0, r0. split; [left|]. auto.
      * exists l, r. split; [now right|]. eauto.
    + intros l r Hin Hl. apply elem_of_cons in Hin as [->|Hin].
      * rewrite Hl0 in Hl. now injection Hl as <-.
      * apply (Hall' l r Hin). now apply ensure_loaded_keeps_objects.
    + exists r0. auto.
Qed.

Lemma upsert_idempotence_witness :
  exists bs st' lk rk,
    upsert_all [1%positive; 2%positive; 1%positive] 0.3 example_state = Some (bs, st')
    /\ _cache st' !! "731f488ad48ecff5"%string = Some lk /\ objects st' !! lk = Some rk
    /\ Dict.get "731f488ad48ecff5"%string (repo st') = Some rk
    /\ dom (_cache st') = {[ "731f488ad48ecff5"%string ]} ∪ dom (_cache (_ensure_loaded example_state))
    /\ Catalog.count st' = S (Catalog.count example_state)
    /\ (exists l r, l ∈ [1%positive; 2%positive; 1%positive]
          /\ objects example_state !! l = Some r
          /\ Resource.quality_score rk = Resource.quality_score r)
    /\ (forall l r, l ∈ [1%positive; 2%positive; 1%positive] ->
          objects example_state !! l = Some r ->
          (Resource.quality_score r <=? Resource.quality_score rk) = true)
    /\ (exists r0, objects example_state !! 1%positive = Some r0
          /\ Resource.discovered_at rk = Resource.discovered_at r0).
Proof.
  apply (upsert_idempotence example_state 0.3 "731f488ad48ecff5" 1%positive
           [2%positive; 1%positive]).
  - intros l Hin.
    apply elem_of_cons in Hin as [->|Hin]; [|apply elem_of_cons in Hin as [->|Hin]];
      [| |apply list_elem_of_singleton in Hin as ->].
    + exists example_first. vm_compute. auto.
    + exists example_second. vm_compute. auto.
    + exists example_first. vm_compute. auto.
  - vm_compute. reflexivity.
Defined.

(** C2, as the specification words it, fails: the first submission of a
    resource at or above the threshold returns [True], the second one,
    accepted and merged, returns [False]. *)
Lemma upsert_resubmission_returns_false :
  (0.3 <=? Resource.quality_score example_first) = true
  /\ fst <$> upsert_all [1%positive; 1%positive] 0.3 example_state
     = Some [true; false].
Proof. split; vm_compute; reflexivity. Qed.

Lemma unloaded_closed st : _loaded st = false -> closed st.
Proof.
  intros Hld k le. unfold _ensure_loaded. rewrite Hld.
  assert (Hgen : forall stored objs cache,
            (forall k le, cache !! k = Some le -> is_Some (objs !! le)) ->
            forall k le, (load stored objs cache).2 !! k = Some le ->
                         is_Some ((load stored objs cache).1 !! le)).
  { induction stored as [|v rest IH]; intros objs cache Hc k' le'; simpl; [apply Hc|].
    apply IH. intros k2 l2 H2.
    apply lookup_insert_Some in H2 as [[_ <-] | [_ H2]].
    - rewrite lookup_insert_eq. eauto.
    - destruct (decide (fresh (dom objs) = l2)) as [->|Hne2];
        [rewrite lookup_insert_eq | rewrite lookup_insert_ne by done]; eauto. }
  specialize (Hgen (Dict.values (repo st)) (objects st) ∅).
  destruct (load _ _ _) as [objs cache]. simpl in *.
  apply Hgen. intros k2 l2 H2. now rewrite lookup_empty in H2.
Qed.

(** C2, amended.  For a score and a threshold that are numbers, [upsert]
    returns [True] exactly when the resource is at or above [min_score]
    and its id was not in the catalog.  Below the threshold it returns
    [False] and changes nothing.  At or above it, the submitted object is
    the catalog's entry for its id and the record written to the file
    under that id: as submitted when the id is new; when the id was there,
    with the greater of the two scores and the [discovered_at] of the
    entry it replaces, and [upsert] returns [False]. *)
Theorem upsert_returns_is_new st l r min_score :
  objects st !! l = Some r ->
  closed st ->
  PyFloat.is_number (Resource.quality_score r) = true ->
  PyFloat.is_number min_score = true ->
  exists b st',
    upsert l min_score st = Some (b, st')
    /\ (b = true <-> (min_score <=? Resource.quality_score r) = true
                     /\ _cache (_ensure_loaded st) !! Resource.id r = None)
    /\ ((min_score <=? Resource.quality_score r) = false -> b = false /\ st' = st)
    /\ ((min_score <=? Resource.quality_score r) = true ->
          exists stored,
            _cache st' !! Resource.id r = Some l
            /\ objects st' !! l = Some stored
            /\ Dict.get (Resource.id r) (repo st') = Some stored
            /\ match _cache (_ensure_loaded st) !! Resource.id r with
               | None => b = true /\ stored = r
               | Some le =>
                   b = false
                   /\ exists existing,
                        objects (_ensure_loaded st) !! le = Some existing
                        /\ stored
                           = Resource.set_discovered_at (Resource.discovered_at existing)
                               (Resource.set_quality_score
                                  (PyFloat.max (Resource.quality_score r)
                                               (Resource.quality_score existing)) r)
               end).
Proof.
  intros Hl Hclosed Hnr Hnm.
  destruct (Resource.quality_score r <? min_score) eqn:Hlt.
  - exists false, st. rewrite (upsert_rejected st l r min_score Hl Hlt).
    assert (Hle : (min_score <=? Resource.quality_score r) = false).
    { destruct (min_score <=? Resource.quality_score r) eqn:E; [|done].
      now rewrite (leb_not_ltb _ _ E) in Hlt. }
    rewrite Hle. repeat split; try done. intros [? _]. done.
  - pose proof (not_ltb_leb _ _ Hnr Hnm Hlt) as Hle. rewrite Hle.
    pose proof (ensure_loaded_keeps_objects st l r Hl) as Hl'.
    destruct (_cache (_ensure_loaded st) !! Resource.id r) as [le|] eqn:Hc.
    + destruct (Hclosed _ _ Hc) as [existing He].
      eexists false, _. rewrite (upsert_merge st l r le existing min_score Hl Hlt Hc He).
      cbn [_cache objects repo]. split_and!.
      * reflexivity.
      * split; [discriminate | intros [_ ?]; done].
      * discriminate.
      * intros _. eexists. split_and!.
        -- apply lookup_insert_eq.
        -- apply lookup_insert_eq.
        -- unfold save. cbn [Resource.id Resource.set_discovered_at
                               Resource.set_quality_score]. apply dict_get_set.
        -- reflexivity.
        -- exists existing. split; [exact He | reflexivity].
    + eexists true, _. rewrite (upsert_new st l r min_score Hl Hlt Hc).
      cbn [_cache objects repo]. split_and!.
      * reflexivity.
      * split; [done | reflexivity].
      * discriminate.
      * intros _. exists r. split_and!.
        -- apply lookup_insert_eq.
        -- exact Hl'.
        -- apply dict_get_set.
        -- reflexivity.
        -- reflexivity.
Qed.

Lemma upsert_returns_is_new_witness :
  exists b st',
    upsert 1%positive 0.3 example_state = Some (b, st')
    /\ (b = true <-> (0.3 <=? Resource.quality_score example_first) = true
                     /\ _cache (_ensure_loaded example_state)
                          !! Resource.id example_first = None)
    /\ ((0.3 <=? Resource.quality_score example_first) = false ->
          b = false /\ st' = example_state)
    /\ ((0.3 <=? Resource.quality_score example_first) = true ->
          exists stored,
            _cache st' !! Resource.id example_first = Some 1%positive
            /\ objects st' !! 1%positive = Some stored
            /\ Dict.get (Resource.id example_first) (repo st') = Some stored
            /\ match _cache (_ensure_loaded example_state)
                       !! Resource.id example_first with
               | None => b = true /\ stored = example_first
               | Some le =>
                   b = false
                   /\ exists existing,
                        objects (_ensure_loaded example_state) !! le
                        = Some existing
                        /\ stored
                           = Resource.set_discovered_at (Resource.discovered_at existing)
                               (Resource.set_quality_score
                                  (PyFloat.max (Resource.quality_score example_first)
                                               (Resource.quality_score existing))
                                  example_first)
               end).
Proof.
  apply (upsert_returns_is_new example_state 1%positive example_first 0.3).
  - reflexivity.
  - apply unloaded_closed. reflexivity.
  - reflexivity.
  - reflexivity.
Defined.

End CatalogClaims.

(** ** Resource identity *)

(** The digest of the three bytes "abc", as FIPS 180-4 gives it. *)
Example sha256_abc :
  SHA256.hexdigest (Py.encode "abc")
  = "ba7816bf8f01cfea414140de5dae2223b00361a396177a9cb410ff61f20015ad"%string.
Proof. vm_compute. reflexivity. Qed.

(** C3, as the specification words it, fails: two URLs that are equal once
    lowercased and stripped of trailing slashes, with different ids.  The
    source strips surrounding white space before the slashes. *)
Lemma resource_id_trailing_space :
  spec_canonical_url "https://example.com/ " = spec_canonical_url "https://example.com/ /"
  /\ _resource_id "https://example.com/ " <> _resource_id "https://example.com/ /".
Proof. split; [reflexivity | vm_compute; discriminate]. Qed.

(** C3, amended.  The id is a function of the canonical URL as the source
    computes it (surrounding white space stripped, then trailing slashes,
    then lowercased): URLs with the same canonical form have the same id,
    and so have the resources built from them without an id of their own. *)
Theorem resource_id_canonical u1 u2 :
  canonical_url u1 = canonical_url u2 ->
  _resource_id u1 = _resource_id u2
  /\ forall r1 r2, Resource.url r1 = u1 -> Resource.url r2 = u2 ->
       Resource.id r1 = ""%string -> Resource.id r2 = ""%string ->
       Resource.id (Resource.model_post_init r1)
       = Resource.id (Resource.model_post_init r2).
Proof.
  intros Hc.
  assert (Hid : _resource_id u1 = _resource_id u2).
  { unfold _resource_id. now rewrite Hc. }
  split; [exact Hid|].
  intros r1 r2 <- <- H1 H2. unfold Resource.model_post_init.
  rewrite H1, H2. simpl. exact Hid.
Qed.

Lemma resource_id_canonical_witness :
  _resource_id "https://EXAMPLE.com/Path/" = _resource_id "https://example.com/path"
  /\ forall r1 r2,
       Resource.url r1 = "https://EXAMPLE.com/Path/"%string ->
       Resource.url r2 = "https://example.com/path"%string ->
       Resource.id r1 = ""%string -> Resource.id r2 = ""%string ->
       Resource.id (Resource.model_post_init r1)
       = Resource.id (Resource.model_post_init r2).
Proof.
  apply (resource_id_canonical "https://EXAMPLE.com/Path/" "https://example.com/path").
  reflexivity.
Defined.
(** ** The deduplicator's union-find *)

Section DictFacts.
Context {V : Type}.
Implicit Types (d : list (string * V)) (k : string) (v : V).

Lemma dict_get_set_eq k v d : Dict.get k (Dict.set k v d) = Some v.
Proof.
  induction d as [|[k' v'] d IH]; simpl.
  - now rewrite String.eqb_refl.
  - destruct (String.eqb k' k) eqn:E; simpl; now rewrite E.
Qed.

Lemma dict_get_set_ne k k' v d :
  k <> k' -> Dict.get k' (Dict.set k v d) = Dict.get k' d.
Proof.
  intros Hne. induction d as [|[k0 v0] d IH]; simpl.
  - now rewrite (proj2 (String.eqb_neq k k')).
  - destruct (String.eqb k0 k) eqn:E; simpl.
    + apply String.eqb_eq in E. subst k0.
      now rewrite (proj2 (String.eqb_neq k k')).
    + now rewrite IH.
Qed.

Lemma dict_get_keys k d : k ∈ Dict.keys d -> is_Some (Dict.get k d).
Proof.
  induction d as [|[k' v'] d IH]; simpl.
  - intros H. now apply elem_of_nil in H.
  - intros H. destruct (String.eqb k' k) eqn:E; [eauto|].
    apply String.eqb_neq in E. apply elem_of_cons in H as [H|H]; [congruence|auto].
Qed.

Lemma dict_get_elem k v d : Dict.get k d = Some v -> (k, v) ∈ d.
Proof.
  induction d as [|[k' v'] d IH]; simpl; [discriminate|].
  destruct (String.eqb k' k) eqn:E.
  - apply String.eqb_eq in E. intros [= ->]. subst. apply elem_of_cons. now left.
  - intros H. apply elem_of_cons. right. auto.
Qed.

Lemma dict_keys_set k v d :
  Dict.keys (Dict.set k v d)
  = if bool_decide (k ∈ Dict.keys d) then Dict.keys d else Dict.keys d ++ [k].
Proof.
  unfold Dict.keys.
  induction d as [|[k' v'] d IH]; cbn [Dict.set map fst].
  - rewrite bool_decide_eq_false_2; [reflexivity | apply not_elem_of_nil].
  - destruct (String.eqb k' k) eqn:E; cbn [map fst].
    + apply String.eqb_eq in E. subst k'.
      rewrite bool_decide_eq_true_2; [reflexivity | apply elem_of_cons; now left].
    + apply String.eqb_neq in E. rewrite IH.
      destruct (bool_decide (k ∈ map fst d)) eqn:B.
      * apply bool_decide_eq_true_1 in B.
        rewrite bool_decide_eq_true_2; [reflexivity | apply elem_of_cons; now right].
      * apply bool_decide_eq_false_1 in B.
        rewrite bool_decide_eq_false_2; [reflexivity|].
        rewrite elem_of_cons. intros [H|H]; [congruence | contradiction].
Qed.

Lemma dict_keys_set_NoDup k v d :
  NoDup (Dict.keys d) -> NoDup (Dict.keys (Dict.set k v d)).
Proof.
  intros H. rewrite dict_keys_set.
  destruct (bool_decide (k ∈ Dict.keys d)) eqn:B; [exact H|].
  apply bool_decide_eq_false_1 in B.
  apply NoDup_app. split_and!; [exact H | | apply NoDup_singleton].
  intros x Hx Hk. apply list_elem_of_singleton in Hk. now subst.
Qed.

Lemma dict_keys_set_elem k k' v d :
  k' ∈ Dict.keys (Dict.set k v d) <-> k' = k \/ k' ∈ Dict.keys d.
Proof.
  rewrite dict_keys_set.
  destruct (bool_decide (k ∈ Dict.keys d)) eqn:B.
  - apply bool_decide_eq_true_1 in B. split; [now right|].
    intros [->|H]; auto.
  - rewrite elem_of_app, list_elem_of_singleton. tauto.
Qed.
End DictFacts.

(** Of two different members of a list, one comes before the other. *)
Lemma elem_of_before {A} (l : list A) (a b : A) :
  a ∈ l -> b ∈ l -> a <> b ->
  (exists l1 l2, l = l1 ++ a :: l2 /\ b ∈ l2)
  \/ (exists l1 l2, l = l1 ++ b :: l2 /\ a ∈ l2).
Proof.
  induction l as [|c l IH]; intros Ha Hb Hne.
  - now apply elem_of_nil in Ha.
  - apply elem_of_cons in Ha as [->|Ha]; apply elem_of_cons in Hb as [Hb|Hb].
    + congruence.
    + left. exists [], l. auto.
    + subst c. right. exists [], l. auto.
    + destruct (IH Ha Hb Hne) as [(l1 & l2 & -> & H)|(l1 & l2 & -> & H)].
      * left. exists (c :: l1), l2. auto.
      * right. exists (c :: l1), l2. auto.
Qed.

Section UnionFind.
Import ContentDeduplicator.

Lemma root_functional parent x r r' :
  root parent x r -> root parent x r' -> r = r'.
Proof.
  intros H. revert r'. induction H as [x Hx | x p r Hx Hne _ IH]; intros r' H'.
  - inversion H' as [? Hx' | ? p' ? Hx' Hne' _]; subst; [reflexivity | congruence].
  - inversion H' as [? Hx' | ? p' ? Hx' Hne' Hp']; subst; [congruence|].
    apply IH. congruence.
Qed.

Lemma root_is_root parent x r : root parent x r -> parent !! r = Some r.
Proof. induction 1; auto. Qed.

Lemma root_inv parent x p r :
  root parent x r -> parent !! x = Some p ->
  (p = x /\ r = x) \/ (p <> x /\ root parent p r).
Proof.
  intros H Hx. destruct H as [x Hx' | x p' r Hx' Hne H].
  - left. split; congruence.
  - right. assert (p' = p) by congruence. subst p'. auto.
Qed.

Lemma forest_linked_size ids parent rank linked :
  forest ids parent rank linked -> (size linked <= size ids)%nat.
Proof.
  intros F. apply subseteq_size. intros x Hx.
  apply (forest_linked _ _ _ _ F) in Hx as (p & Hp & _).
  rewrite <- (forest_dom _ _ _ _ F). apply elem_of_dom. eauto.
Qed.

Lemma forest_lookup ids parent rank linked x :
  forest ids parent rank linked -> x ∈ ids -> is_Some (parent !! x).
Proof. intros F Hx. apply elem_of_dom. now rewrite (forest_dom _ _ _ _ F). Qed.

(** One step of path halving: [parent[x] = parent[parent[x]]]. *)
Lemma halve_forest ids parent rank linked x px ppx :
  forest ids parent rank linked ->
  parent !! x = Some px -> px <> x -> parent !! px = Some ppx ->
  forest ids (<[x := ppx]> parent) rank linked /\ (rank x < rank ppx)%nat.
Proof.
  intros F Hx Hne Hpx.
  assert (Hlt : (rank x < rank ppx)%nat).
  { pose proof (forest_rank _ _ _ _ F x px Hx Hne).
    destruct (decide (ppx = px)) as [->|Hne']; [assumption|].
    pose proof (forest_rank _ _ _ _ F px ppx Hpx Hne'). lia. }
  split; [|exact Hlt].
  assert (Hx' : x ∈ ids).
  { rewrite <- (forest_dom _ _ _ _ F). apply elem_of_dom. eauto. }
  constructor.
  - rewrite dom_insert_L, (forest_dom _ _ _ _ F).
    now apply subseteq_union_1_L, singleton_subseteq_l.
  - intros z p Hz. apply lookup_insert_Some in Hz as [[<- <-]|[_ Hz]].
    + apply (forest_closed _ _ _ _ F px ppx Hpx).
    + apply (forest_closed _ _ _ _ F z p Hz).
  - intros z p Hz Hzp. apply lookup_insert_Some in Hz as [[<- <-]|[_ Hz]].
    + exact Hlt.
    + apply (forest_rank _ _ _ _ F z p Hz Hzp).
  - intros z. rewrite (forest_linked _ _ _ _ F z).
    destruct (decide (z = x)) as [->|Hzx].
    + rewrite lookup_insert_eq. split; intros _.
      * exists ppx. split; [reflexivity|]. intros ->. lia.
      * exists px. auto.
    + now rewrite lookup_insert_ne by congruence.
  - apply (forest_bound _ _ _ _ F).
Qed.

Lemma halve_root parent x px ppx :
  parent !! x = Some px -> px <> x -> parent !! px = Some ppx -> ppx <> x ->
  forall z r, root parent z r -> root (<[x := ppx]> parent) z r.
Proof.
  intros Hx Hne Hpx Hne' z r H.
  induction H as [z Hz | z p r Hz Hzp Hpr IH].
  - apply root_here. rewrite lookup_insert_ne by congruence. exact Hz.
  - destruct (decide (z = x)) as [->|Hzx].
    + assert (p = px) by congruence. subst p.
      apply (root_up _ x ppx r); [apply lookup_insert_eq | exact Hne' |].
      assert (Hpx' : <[x := ppx]> parent !! px = Some ppx)
        by (rewrite lookup_insert_ne by congruence; exact Hpx).
      destruct (root_inv _ _ _ _ IH Hpx') as [[-> _]|[_ Hr]]; [exact IH | exact Hr].
    + apply (root_up _ z p r); [|exact Hzp|exact IH].
      rewrite lookup_insert_ne by congruence. exact Hz.
Qed.

Lemma halve_root_back parent x px ppx :
  parent !! x = Some px -> px <> x -> parent !! px = Some ppx -> ppx <> x ->
  forall z r, root (<[x := ppx]> parent) z r -> root parent z r.
Proof.
  intros Hx Hne Hpx Hne' z r H.
  remember (<[x := ppx]> parent) as parent1 eqn:E.
  induction H as [z Hz | z p r Hz Hzp Hpr IH]; subst parent1.
  - destruct (decide (z = x)) as [->|Hzx].
    + rewrite lookup_insert_eq in Hz. congruence.
    + rewrite lookup_insert_ne in Hz by congruence. now apply root_here.
  - destruct (decide (z = x)) as [->|Hzx].
    + rewrite lookup_insert_eq in Hz. assert (p = ppx) by congruence. subst p.
      apply (root_up _ x px r Hx Hne).
      destruct (decide (ppx = px)) as [Hpp|Hpp].
      * rewrite <- Hpp. exact IH.
      * apply (root_up _ px ppx r Hpx Hpp IH).
    + rewrite lookup_insert_ne in Hz by congruence.
      apply (root_up _ z p r Hz Hzp IH).
Qed.

(** [find] returns, within [fuel] rounds, the root of [x]; the forest it
    leaves has the same roots. *)
Lemma find_forest ids rank linked fuel : forall parent x,
  forest ids parent rank linked -> x ∈ ids ->
  (size linked - rank x < fuel)%nat ->
  exists parent' r,
    find fuel parent x = Some (parent', r)
    /\ forest ids parent' rank linked
    /\ root parent x r
    /\ (forall z s, root parent z s -> root parent' z s).
Proof.
  induction fuel as [|fuel IH]; intros parent x F Hx Hfuel; [lia|].
  destruct (forest_lookup _ _ _ _ x F Hx) as [px Hpx].
  cbn [find]. rewrite Hpx. cbn [mbind option_bind].
  destruct (decide (px = x)) as [->|Hne].
  - rewrite bool_decide_eq_false_2 by (intros H; now apply H).
    exists parent, x. split_and!; auto. now apply root_here.
  - rewrite bool_decide_eq_true_2 by exact Hne.
    pose proof (forest_closed _ _ _ _ F x px Hpx) as Hpx'.
    destruct (forest_lookup _ _ _ _ px F Hpx') as [ppx Hppx].
    rewrite Hppx. cbn [mbind option_bind].
    destruct (halve_forest _ _ _ _ x px ppx F Hpx Hne Hppx) as [F' Hlt].
    assert (Hne' : ppx <> x) by (intros ->; lia).
    pose proof (forest_bound _ _ _ _ F ppx) as Hb.
    destruct (IH (<[x := ppx]> parent) ppx F'
                 (forest_closed _ _ _ _ F px ppx Hppx) ltac:(lia))
      as (parent' & r & Hfind & F'' & Hroot & Hkeep).
    exists parent', r. split_and!; auto.
    + apply (halve_root_back parent x px ppx Hpx Hne Hppx Hne').
      apply (root_up _ x ppx r); [apply lookup_insert_eq | exact Hne' | exact Hroot].
    + intros z s Hz. apply Hkeep.
      now apply (halve_root parent x px ppx Hpx Hne Hppx Hne').
Qed.

(** Linking the root [rb] under the root [ra]. *)
Lemma link_forest ids parent rank linked ra rb :
  forest ids parent rank linked ->
  parent !! ra = Some ra -> parent !! rb = Some rb -> ra <> rb ->
  forest ids (<[rb := ra]> parent)
    (fun z => if decide (z = ra) then Nat.max (rank ra) (S (rank rb)) else rank z)
    ({[ rb ]} ∪ linked).
Proof.
  intros F Ha Hb Hne.
  assert (Hfresh : rb ∉ linked).
  { intros H. apply (forest_linked _ _ _ _ F) in H as (p & Hp & Hp'). congruence. }
  constructor.
  - rewrite dom_insert_L, (forest_dom _ _ _ _ F).
    apply subseteq_union_1_L, singleton_subseteq_l.
    apply (forest_closed _ _ _ _ F rb rb Hb).
  - intros z p Hz. apply lookup_insert_Some in Hz as [[<- <-]|[_ Hz]].
    + apply (forest_closed _ _ _ _ F ra ra Ha).
    + apply (forest_closed _ _ _ _ F z p Hz).
  - intros z p Hz Hzp. apply lookup_insert_Some in Hz as [[<- <-]|[Hzb Hz]].
    + rewrite decide_False by congruence. rewrite decide_True by reflexivity. lia.
    + pose proof (forest_rank _ _ _ _ F z p Hz Hzp) as Hlt.
      assert (z <> ra) by congruence. rewrite (decide_False (P := z = ra)) by assumption.
      destruct (decide (p = ra)) as [->|_]; lia.
  - intros z. rewrite elem_of_union, elem_of_singleton, (forest_linked _ _ _ _ F z).
    destruct (decide (z = rb)) as [->|Hzb].
    + rewrite lookup_insert_eq. split; [|now left].
      intros _. exists ra. auto.
    + rewrite lookup_insert_ne by congruence. tauto.
  - intros z. rewrite size_union by set_solver. rewrite size_singleton.
    pose proof (forest_bound _ _ _ _ F ra). pose proof (forest_bound _ _ _ _ F rb).
    pose proof (forest_bound _ _ _ _ F z). destruct (decide (z = ra)) as [->|_]; lia.
Qed.

Lemma link_root parent ra rb :
  parent !! ra = Some ra -> parent !! rb = Some rb -> ra <> rb ->
  forall z r, root parent z r ->
    root (<[rb := ra]> parent) z (if decide (r = rb) then ra else r).
Proof.
  intros Ha Hb Hne z r H.
  induction H as [z Hz | z p r Hz Hzp Hpr IH].
  - destruct (decide (z = rb)) as [->|Hzb].
    + apply (root_up _ rb ra ra); [apply lookup_insert_eq | exact Hne |].
      apply root_here. rewrite lookup_insert_ne by congruence. exact Ha.
    + apply root_here. rewrite lookup_insert_ne by congruence. exact Hz.
  - apply (root_up _ z p); [|exact Hzp|exact IH].
    rewrite lookup_insert_ne by congruence. exact Hz.
Qed.

Lemma link_same parent ra rb :
  parent !! ra = Some ra -> parent !! rb = Some rb -> ra <> rb ->
  forall x y, same parent x y -> same (<[rb := ra]> parent) x y.
Proof.
  intros Ha Hb Hne x y (r & Hx & Hy).
  exists (if decide (r = rb) then ra else r). split; now apply link_root.
Qed.

(** [union] ends, keeps a forest, joins the clusters of [a] and [b] and
    separates none. *)
Lemma union_forest ids parent fuel hc a b :
  is_forest ids parent -> a ∈ ids -> b ∈ ids -> (size ids < fuel)%nat ->
  exists parent',
    union fuel hc parent a b = Some parent'
    /\ is_forest ids parent'
    /\ same parent' a b
    /\ (forall x y, same parent x y -> same parent' x y).
Proof.
  intros (rank & linked & F) Ha Hb Hfuel.
  pose proof (forest_linked_size _ _ _ _ F) as Hsize.
  destruct (find_forest ids rank linked fuel parent a F Ha ltac:(lia))
    as (parent1 & ra & Hfa & F1 & Hra & Hkeep1).
  destruct (find_forest ids rank linked fuel parent1 b F1 Hb ltac:(lia))
    as (parent2 & rb & Hfb & F2 & Hrb & Hkeep2).
  unfold union. rewrite Hfa. cbn [mbind option_bind]. rewrite Hfb.
  cbn [mbind option_bind].
  assert (Hra2 : root parent2 a ra) by auto.
  assert (Hkeep : forall x y, same parent x y -> same parent2 x y).
  { intros x y (r & Hx & Hy). exists r. auto. }
  pose proof (root_is_root _ _ _ Hra2) as Hpa.
  pose proof (root_is_root _ _ _ (Hkeep2 _ _ (root_here _ _ (root_is_root _ _ _ Hrb)))) as Hpb.
  assert (Hrb2 : root parent2 b rb) by auto.
  destruct (decide (ra = rb)) as [Heq|Hne].
  - rewrite bool_decide_eq_false_2 by (intros H; now apply H).
    exists parent2. split_and!; auto.
    + now exists rank, linked.
    + exists ra. split; [exact Hra2 | now rewrite Heq].
  - rewrite bool_decide_eq_true_2 by exact Hne.
    destruct (_ <=? _)%nat.
    + exists (<[rb := ra]> parent2). split_and!; auto.
      * eexists _, _. apply (link_forest _ _ _ _ ra rb F2 Hpa Hpb Hne).
      * exists ra.
        pose proof (link_root parent2 ra rb Hpa Hpb Hne a ra Hra2) as H1.
        pose proof (link_root parent2 ra rb Hpa Hpb Hne b rb Hrb2) as H2.
        rewrite decide_False in H1 by exact Hne.
        rewrite decide_True in H2 by reflexivity. auto.
      * intros x y H. apply link_same; auto.
    + assert (Hne' : rb <> ra) by congruence.
      exists (<[ra := rb]> parent2). split_and!; auto.
      * eexists _, _. apply (link_forest _ _ _ _ rb ra F2 Hpb Hpa Hne').
      * exists rb.
        pose proof (link_root parent2 rb ra Hpb Hpa Hne' a ra Hra2) as H1.
        pose proof (link_root parent2 rb ra Hpb Hpa Hne' b rb Hrb2) as H2.
        rewrite decide_True in H1 by reflexivity.
        rewrite decide_False in H2 by exact Hne'. auto.
      * intros x y H. apply link_same; auto.
Qed.

(** The pair loops.  Every pair whose similarity reaches the threshold is
    joined, and no cluster is ever split. *)
Section Loops.
Variable thr : float.
Variable tri_map : list (string * gset string).
Variable hc : gmap string nat.
Variable ids : gset string.
Variable fuel : nat.
Hypothesis tri_map_ids : forall z, z ∈ ids -> is_Some (Dict.get z tri_map).
Hypothesis enough_fuel : (size ids < fuel)%nat.

Lemma compare_with_forest x : forall ys st,
  is_forest ids st.1 -> x ∈ ids -> (forall y, y ∈ ys -> y ∈ ids) ->
  exists st',
    compare_with thr fuel tri_map hc x ys st = Some st'
    /\ is_forest ids st'.1
    /\ (forall u v, same st.1 u v -> same st'.1 u v)
    /\ (forall y, y ∈ ys -> alike_ids thr tri_map x y -> same st'.1 x y).
Proof.
  induction ys as [|y ys IH]; intros st F Hx Hys.
  - exists st. split_and!; auto. intros y Hy. now apply elem_of_nil in Hy.
  - assert (Hy : y ∈ ids) by (apply Hys, elem_of_cons; now left).
    destruct (tri_map_ids x Hx) as [tx Htx]. destruct (tri_map_ids y Hy) as [ty Hty].
    cbn [compare_with]. rewrite Htx, Hty. cbn [mbind option_bind].
    assert (Hrest : forall z, z ∈ ys -> z ∈ ids).
    { intros z Hz. apply Hys, elem_of_cons. now right. }
    destruct (thr <=? TextProcessing.jaccard tx ty)%float eqn:Hle.
    + destruct (union_forest ids st.1 fuel hc x y F Hx Hy enough_fuel)
        as (parent' & Hu & F' & Hxy & Hkeep1).
      rewrite Hu. cbn [mbind option_bind].
      destruct (IH (parent', <[(x, y) := TextProcessing.jaccard tx ty]> st.2)
                   F' Hx Hrest) as (st' & Hrun & F'' & Hkeep & Hjoin).
      exists st'. split_and!; auto.
      intros z Hz Hlike. apply elem_of_cons in Hz as [->|Hz]; auto.
    + cbn [mbind option_bind].
      destruct (IH st F Hx Hrest) as (st' & Hrun & F'' & Hkeep & Hjoin).
      exists st'. split_and!; auto.
      intros z Hz Hlike. apply elem_of_cons in Hz as [->|Hz]; [|auto].
      destruct Hlike as (tx' & ty' & Hx' & Hy' & Hle'). congruence.
Qed.

Lemma compare_all_forest : forall l st,
  is_forest ids st.1 -> (forall z, z ∈ l -> z ∈ ids) ->
  exists st',
    compare_all thr fuel tri_map hc l st = Some st'
    /\ is_forest ids st'.1
    /\ (forall u v, same st.1 u v -> same st'.1 u v)
    /\ (forall l1 x l2 y, l = l1 ++ x :: l2 -> y ∈ l2 -> alike_ids thr tri_map x y ->
          same st'.1 x y).
Proof.
  induction l as [|x l IH]; intros st F Hl.
  - exists st. split_and!; auto. intros l1 x l2 y H. now destruct l1.
  - destruct (compare_with_forest x l st F) as (st1 & Hrun1 & F1 & Hkeep1 & Hjoin1).
    { apply Hl, elem_of_cons. now left. }
    { intros y Hy. apply Hl, elem_of_cons. now right. }
    destruct (IH st1 F1) as (st' & Hrun & F' & Hkeep & Hjoin).
    { intros z Hz. apply Hl, elem_of_cons. now right. }
    cbn [compare_all]. rewrite Hrun1. cbn [mbind option_bind].
    exists st'. split_and!; auto.
    intros l1 a l2 b E Hb Hlike. destruct l1 as [|c l1]; cbn [app] in E.
    + injection E as <- <-. auto.
    + injection E as <- ->. eauto.
Qed.

(** The members of the list end in the group of their root. *)
Lemma build_groups_forest : forall l parent groups_map,
  is_forest ids parent -> (forall z, z ∈ l -> z ∈ ids) ->
  exists groups_map',
    build_groups fuel l parent groups_map = Some groups_map'
    /\ (forall z r, z ∈ l -> root parent z r ->
          z ∈ default [] (Dict.get r groups_map'))
    /\ (forall z r, z ∈ default [] (Dict.get r groups_map) ->
          z ∈ default [] (Dict.get r groups_map')).
Proof.
  induction l as [|rid l IH]; intros parent groups_map F Hl.
  - exists groups_map. split_and!; auto. intros z r Hz. now apply elem_of_nil in Hz.
  - destruct F as (rank & linked & F).
    pose proof (forest_linked_size _ _ _ _ F) as Hsize.
    destruct (find_forest ids rank linked fuel parent rid F) as
      (parent' & r & Hfind & F' & Hr & Hkeep).
    { apply Hl, elem_of_cons. now left. }
    { lia. }
    cbn [build_groups]. rewrite Hfind. cbn [mbind option_bind].
    destruct (IH parent'
      (Dict.set r (default [] (Dict.get r groups_map) ++ [rid]) groups_map))
      as (groups_map' & Hrun & Hin & Hmono).
    { now exists rank, linked. }
    { intros z Hz. apply Hl, elem_of_cons. now right. }
    assert (Hstep : forall z s, z ∈ default [] (Dict.get s groups_map) ->
      z ∈ default [] (Dict.get s
        (Dict.set r (default [] (Dict.get r groups_map) ++ [rid]) groups_map))).
    { intros z s Hz. destruct (decide (r = s)) as [->|Hne].
      - rewrite dict_get_set_eq. cbn [default from_option id].
        apply elem_of_app. now left.
      - now rewrite dict_get_set_ne by exact Hne. }
    exists groups_map'. split_and!; auto.
    intros z s Hz Hs. apply elem_of_cons in Hz as [->|Hz]; [|auto].
    assert (s = r) by apply (root_functional _ _ _ _ Hs Hr). subst s.
    apply Hmono. rewrite dict_get_set_eq. cbn [default from_option id].
    apply elem_of_app. right. apply list_elem_of_singleton. reflexivity.
Qed.
End Loops.

End UnionFind.

(** ** [find_duplicates] on any list of documents *)

Lemma jaccard_comm (a b : gset string) :
  TextProcessing.jaccard a b = TextProcessing.jaccard b a.
Proof.
  unfold TextProcessing.jaccard.
  assert (Hmeet : a ∩ b = b ∩ a) by (apply set_eq; intros x; rewrite !elem_of_intersection; tauto).
  assert (Hjoin : a ∪ b = b ∪ a) by (apply set_eq; intros x; rewrite !elem_of_union; tauto).
  now rewrite Hmeet, Hjoin, andb_comm.
Qed.

Section FindDuplicatesFacts.
Import ContentDeduplicator TextProcessing.

Lemma tri_map_keys_NoDup contents : forall d,
  NoDup (Dict.keys d) -> NoDup (Dict.keys (tri_map_of contents d)).
Proof.
  induction contents as [|c cs IH]; intros d H; [exact H|].
  apply IH. now apply dict_keys_set_NoDup.
Qed.

Lemma tri_map_keys contents k : forall d,
  k ∈ Dict.keys (tri_map_of contents d)
  <-> k ∈ Dict.keys d \/ k ∈ map ScrapedContent.resource_id contents.
Proof.
  induction contents as [|c cs IH]; intros d; cbn [tri_map_of fold_left map].
  - rewrite elem_of_nil. tauto.
  - fold (tri_map_of cs). rewrite IH, dict_keys_set_elem, elem_of_cons. tauto.
Qed.

Lemma tri_map_other contents k : forall d,
  k ∉ map ScrapedContent.resource_id contents ->
  Dict.get k (tri_map_of contents d) = Dict.get k d.
Proof.
  induction contents as [|c cs IH]; intros d H; [reflexivity|].
  cbn [map] in H. apply not_elem_of_cons in H as [Hne H].
  cbn [tri_map_of fold_left]. fold (tri_map_of cs).
  rewrite IH by exact H. apply dict_get_set_ne. congruence.
Qed.

(** With one document per id, the entry of an id is its document's set. *)
Lemma tri_map_lookup contents c : forall d,
  NoDup (map ScrapedContent.resource_id contents) -> c ∈ contents ->
  Dict.get (ScrapedContent.resource_id c) (tri_map_of contents d)
  = Some (doc_trigrams c).
Proof.
  induction contents as [|c' cs IH]; intros d Hnd Hc.
  - now apply elem_of_nil in Hc.
  - cbn [map] in Hnd. apply NoDup_cons in Hnd as [Hfresh Hnd].
    cbn [tri_map_of fold_left]. fold (tri_map_of cs).
    apply elem_of_cons in Hc as [->|Hc].
    + rewrite tri_map_other by exact Hfresh. apply dict_get_set_eq.
    + now apply IH.
Qed.

Lemma parent_of_lookup ids x : forall d,
  parent_of ids d !! x = if decide (x ∈ ids) then Some x else d !! x.
Proof.
  induction ids as [|i ids IH]; intros d; cbn [parent_of fold_left].
  - rewrite decide_False by apply not_elem_of_nil. reflexivity.
  - fold (parent_of ids). rewrite IH.
    destruct (decide (x ∈ ids)) as [Hin|Hout].
    + rewrite decide_True by (apply elem_of_cons; now right). reflexivity.
    + destruct (decide (x = i)) as [->|Hne].
      * rewrite decide_True by (apply elem_of_cons; now left).
        apply lookup_insert_eq.
      * rewrite decide_False by (rewrite elem_of_cons; tauto).
        now rewrite lookup_insert_ne by congruence.
Qed.

(** At the start every id is its own root. *)
Lemma parent_of_forest ids :
  forest (list_to_set ids) (parent_of ids ∅) (fun _ => 0%nat) ∅.
Proof.
  assert (Hl : forall x p, parent_of ids ∅ !! x = Some p -> p = x /\ x ∈ ids).
  { intros x p. rewrite parent_of_lookup. destruct (decide (x ∈ ids)).
    - intros [= <-]. auto.
    - now rewrite lookup_empty. }
  constructor.
  - apply set_eq. intros x. rewrite elem_of_dom, elem_of_list_to_set.
    rewrite parent_of_lookup. destruct (decide (x ∈ ids)) as [H|H].
    + split; eauto.
    + rewrite lookup_empty. split; [intros [? [=]] | contradiction].
  - intros x p H. apply Hl in H as [-> H]. now apply elem_of_list_to_set.
  - intros x p H Hne. apply Hl in H as [-> _]. now destruct Hne.
  - intros x. split; [intros H; now apply elem_of_empty in H|].
    intros (p & H & Hne). apply Hl in H as [-> _]. now destruct Hne.
  - intros _. lia.
Qed.

Lemma make_group_members pair_sim canonical members :
  DuplicateGroup.canonical_id (make_group pair_sim canonical members) = canonical
  /\ DuplicateGroup.duplicate_ids (make_group pair_sim canonical members)
     = filter (fun m => m <> canonical) members.
Proof.
  unfold make_group. destruct (sum_similarities _ _ _ _ _). split; reflexivity.
Qed.

Lemma two_members {A} (l : list A) (a b : A) :
  a ∈ l -> b ∈ l -> a <> b -> (2 <= length l)%nat.
Proof.
  intros Ha Hb Hne.
  destruct l as [|c [|c' l]]; cbn [length]; [now apply elem_of_nil in Ha | | lia].
  apply list_elem_of_singleton in Ha, Hb. congruence.
Qed.

(** What [find_duplicates] does on every input: it returns, and two ids
    whose documents' similarity reaches the threshold are members of one
    of the groups. *)
Lemma find_duplicates_joins thr contents :
  exists groups,
    find_duplicates thr contents = Some groups
    /\ ((2 <= length contents)%nat ->
        forall x y, x <> y ->
          alike_ids thr (tri_map_of contents []) x y ->
          exists g, g ∈ groups
            /\ x ∈ DuplicateGroup.canonical_id g :: DuplicateGroup.duplicate_ids g
            /\ y ∈ DuplicateGroup.canonical_id g :: DuplicateGroup.duplicate_ids g).
Proof.
  unfold find_duplicates.
  destruct (length contents <? 2)%nat eqn:Hlen.
  { exists []. split; [reflexivity|]. apply Nat.ltb_lt in Hlen. lia. }
  change (fold_left _ contents []) with (tri_map_of contents []).
  set (tri_map := tri_map_of contents []).
  set (hc := fold_left _ contents ∅).
  set (ids := Dict.keys tri_map).
  fold (parent_of ids ∅).
  assert (Hnd : NoDup ids) by (apply tri_map_keys_NoDup, NoDup_nil_2).
  assert (Hfuel : (size (list_to_set ids : gset string) < S (length ids))%nat).
  { rewrite size_list_to_set by exact Hnd. lia. }
  assert (Hget : forall z, z ∈ (list_to_set ids : gset string) ->
                           is_Some (Dict.get z tri_map)).
  { intros z Hz. apply elem_of_list_to_set in Hz. now apply dict_get_keys. }
  assert (Hids : forall z, z ∈ ids -> z ∈ (list_to_set ids : gset string)).
  { intros z Hz. now apply elem_of_list_to_set. }
  destruct (compare_all_forest thr tri_map hc (list_to_set ids) (S (length ids))
              Hget Hfuel ids (parent_of ids ∅, ∅)) as (st & Hrun & F & _ & Hjoin).
  { eexists _, _. apply parent_of_forest. }
  { exact Hids. }
  rewrite Hrun. cbn [mbind option_bind]. destruct st as [parent pair_sim].
  cbn [fst] in F, Hjoin.
  destruct (build_groups_forest (list_to_set ids) (S (length ids)) Hfuel
              ids parent [] F Hids) as (groups_map & Hbuild & Hin & _).
  rewrite Hbuild. cbn [mbind option_bind].
  eexists. split; [reflexivity|].
  intros _ x y Hne Hlike.
  assert (Hx : x ∈ ids).
  { destruct Hlike as (tx & _ & Hx & _).
    destruct (decide (x ∈ ids)) as [H|H]; [exact H|].
    unfold ids, Dict.keys in H.
    clear -Hx H. exfalso. apply H. apply dict_get_elem in Hx.
    apply list_elem_of_fmap. exists (x, tx). auto. }
  assert (Hy : y ∈ ids).
  { destruct Hlike as (_ & ty & _ & Hy & _).
    destruct (decide (y ∈ ids)) as [H|H]; [exact H|].
    unfold ids, Dict.keys in H.
    clear -Hy H. exfalso. apply H. apply dict_get_elem in Hy.
    apply list_elem_of_fmap. exists (y, ty). auto. }
  assert (Hsame : same parent x y).
  { destruct (elem_of_before ids x y Hx Hy Hne)
      as [(l1 & l2 & E & H)|(l1 & l2 & E & H)].
    - apply (Hjoin l1 x l2 y E H Hlike).
    - destruct Hlike as (tx & ty & Htx & Hty & Hle).
      destruct (Hjoin l1 y l2 x E H) as (r & Hr1 & Hr2).
      + exists ty, tx. split_and!; auto. now rewrite jaccard_comm.
      + exists r. auto. }
  destruct Hsame as (r & Hrx & Hry).
  pose proof (Hin x r Hx Hrx) as Hmx. pose proof (Hin y r Hy Hry) as Hmy.
  destruct (Dict.get r groups_map) as [members|] eqn:Hr;
    cbn [default from_option id] in Hmx, Hmy; [|now apply elem_of_nil in Hmx].
  exists (make_group pair_sim r members).
  destruct (make_group_members pair_sim r members) as [-> ->].
  split_and!.
  - apply (list_elem_of_fmap_2 (fun g => make_group pair_sim g.1 g.2) _ (r, members)).
    apply list_elem_of_filter. split; [|now apply dict_get_elem].
    cbn [snd]. apply Is_true_true, Nat.leb_le. apply (two_members members x y); auto.
  - destruct (decide (x = r)) as [->|Hxr]; [apply elem_of_cons; now left|].
    apply elem_of_cons. right. apply list_elem_of_filter. auto.
  - destruct (decide (y = r)) as [->|Hyr]; [apply elem_of_cons; now left|].
    apply elem_of_cons. right. apply list_elem_of_filter. auto.
Qed.

End FindDuplicatesFacts.

(** ** The deduplicator *)

Lemma size_singleton_meet_join (t : string) :
  size (({[ t ]} : gset string) ∩ {[ t ]}) = 1%nat
  /\ size (({[ t ]} : gset string) ∪ {[ t ]}) = 1%nat.
Proof.
  split.
  - rewrite (idemp_L (∩) ({[ t ]} : gset string)). apply size_singleton.
  - rewrite (idemp_L (∪) ({[ t ]} : gset string)). apply size_singleton.
Qed.

Section DedupFacts.
Import ContentDeduplicator TextProcessing.
Local Open Scope float_scope.

Ltac str_simpl :=
  repeat first
    [ rewrite String.eqb_refl
    | rewrite (proj2 (String.eqb_neq _ _)) by congruence ].

Lemma find_root fuel parent x :
  parent !! x = Some x -> find (S fuel) parent x = Some (parent, x).
Proof.
  intros H. simpl. rewrite H. simpl.
  rewrite bool_decide_eq_false_2; [reflexivity | intros Hne; now apply Hne].
Qed.

Lemma find_child fuel parent x p :
  parent !! x = Some p -> p <> x -> parent !! p = Some p ->
  find (S (S fuel)) parent x = Some (parent, p).
Proof.
  intros Hx Hne Hp. cbn [find]. rewrite Hx. cbn [mbind option_bind].
  rewrite bool_decide_eq_true_2 by exact Hne.
  rewrite Hp. cbn [mbind option_bind].
  rewrite (insert_id parent x p Hx), Hp. cbn [mbind option_bind].
  rewrite bool_decide_eq_false_2; [reflexivity | intros H; now apply H].
Qed.

Lemma union_roots fuel hc parent x y :
  parent !! x = Some x -> parent !! y = Some y -> x <> y ->
  union (S fuel) hc parent x y =
    Some (if (heading_count hc y <=? heading_count hc x)%nat
          then <[y := x]> parent else <[x := y]> parent).
Proof.
  intros Hx Hy Hne. unfold union.
  rewrite (find_root fuel parent x Hx). cbn [mbind option_bind].
  rewrite (find_root fuel parent y Hy). cbn [mbind option_bind].
  rewrite bool_decide_eq_true_2 by exact Hne.
  now destruct (_ <=? _)%nat.
Qed.

Ltac group_simpl :=
  cbn [mbind option_bind Dict.get Dict.set default from_option id app]; str_simpl;
  cbn [mbind option_bind Dict.get Dict.set default from_option id app].

Lemma three_documents thr A B C :
  ScrapedContent.resource_id A <> ScrapedContent.resource_id B ->
  ScrapedContent.resource_id A <> ScrapedContent.resource_id C ->
  ScrapedContent.resource_id B <> ScrapedContent.resource_id C ->
  (thr <=? doc_similarity A B) = true ->
  (thr <=? doc_similarity A C) = false ->
  (thr <=? doc_similarity B C) = false ->
  exists s,
    find_duplicates thr [A; B; C] =
      Some [ if (length (ScrapedContent.headings B) <=? length (ScrapedContent.headings A))%nat
             then DuplicateGroup.mk (ScrapedContent.resource_id A)
                    [ScrapedContent.resource_id B] s
             else DuplicateGroup.mk (ScrapedContent.resource_id B)
                    [ScrapedContent.resource_id A] s ].
Proof.
  intros Hab Hac Hbc HsAB HsAC HsBC.
  unfold find_duplicates, doc_similarity, doc_trigrams in *.
  cbn [length Nat.ltb Nat.leb fold_left].
  set (a := ScrapedContent.resource_id A) in *.
  set (b := ScrapedContent.resource_id B) in *.
  set (c := ScrapedContent.resource_id C) in *.
  set (ta := trigrams (Py.slice_to PREFIX (ScrapedContent.text_content A))) in *.
  set (tb := trigrams (Py.slice_to PREFIX (ScrapedContent.text_content B))) in *.
  set (tc := trigrams (Py.slice_to PREFIX (ScrapedContent.text_content C))) in *.
  set (ha := length (ScrapedContent.headings A)).
  set (hb := length (ScrapedContent.headings B)).
  set (hc := length (ScrapedContent.headings C)).
  clearbody a b c ta tb tc ha hb hc.
  cbn [Dict.set]. str_simpl. cbn [Dict.set]. str_simpl.
  cbn [Dict.set Dict.keys map fst fold_left length].
  cbn [compare_all compare_with Dict.get]. str_simpl.
  cbn [mbind option_bind fst snd].
  rewrite HsAB, HsAC, HsBC.
  rewrite union_roots by (simplify_map_eq; done).
  cbn [mbind option_bind fst snd].
  assert (Hha : heading_count (<[c:=hc]> (<[b:=hb]> (<[a:=ha]> ∅))) a = ha)
    by (unfold heading_count; simplify_map_eq; done).
  assert (Hhb : heading_count (<[c:=hc]> (<[b:=hb]> (<[a:=ha]> ∅))) b = hb)
    by (unfold heading_count; simplify_map_eq; done).
  rewrite Hha, Hhb.
  destruct (hb <=? ha)%nat.
  - cbn [build_groups].
    rewrite find_root by (simplify_map_eq; done). group_simpl.
    rewrite (find_child _ _ b a) by (simplify_map_eq; done). group_simpl.
    rewrite find_root by (simplify_map_eq; done). group_simpl.
    rewrite filter_cons_True by done. rewrite filter_cons_False by (simpl; tauto).
    rewrite filter_nil. cbn [map fst snd id app]. unfold make_group.
    rewrite filter_cons_False by (intros H; now apply H).
    rewrite filter_cons_True by congruence. rewrite filter_nil.
    cbn [sum_similarities]. unfold Py.str_min, Py.str_max.
    destruct (String.ltb b a), (String.ltb a b);
      rewrite ?lookup_insert_eq; rewrite ?lookup_insert_ne by congruence;
      rewrite ?lookup_empty; eexists; reflexivity.
  - cbn [build_groups].
    rewrite (find_child _ _ a b) by (simplify_map_eq; done). group_simpl.
    rewrite find_root by (simplify_map_eq; done). group_simpl.
    rewrite find_root by (simplify_map_eq; done). group_simpl.
    rewrite filter_cons_True by done. rewrite filter_cons_False by (simpl; tauto).
    rewrite filter_nil. cbn [map fst snd id app]. unfold make_group.
    rewrite filter_cons_True by congruence.
    rewrite filter_cons_False by (intros H; now apply H). rewrite filter_nil.
    cbn [sum_similarities]. unfold Py.str_min, Py.str_max.
    destruct (String.ltb b a), (String.ltb a b);
      rewrite ?lookup_insert_eq; rewrite ?lookup_insert_ne by congruence;
      rewrite ?lookup_empty; eexists; reflexivity.
Qed.

(** C4 (dedup correctness).  Three documents with pairwise different
    resource ids, A and B at or above the threshold, C below it with both:
    [find_duplicates [A; B; C]] returns one group; its canonical member is
    A when A has at least as many headings as B and B otherwise, the other
    of the two is its only duplicate, and C is in no group. *)
Theorem find_duplicates_three thr A B C :
  ScrapedContent.resource_id A <> ScrapedContent.resource_id B ->
  ScrapedContent.resource_id A <> ScrapedContent.resource_id C ->
  ScrapedContent.resource_id B <> ScrapedContent.resource_id C ->
  (thr <=? doc_similarity A B) = true ->
  (thr <=? doc_similarity A C) = false ->
  (thr <=? doc_similarity B C) = false ->
  exists g,
    find_duplicates thr [A; B; C] = Some [g]
    /\ (DuplicateGroup.canonical_id g, DuplicateGroup.duplicate_ids g) =
         (if (length (ScrapedContent.headings B) <=? length (ScrapedContent.headings A))%nat
          then (ScrapedContent.resource_id A, [ScrapedContent.resource_id B])
          else (ScrapedContent.resource_id B, [ScrapedContent.resource_id A]))
    /\ ScrapedContent.resource_id C
         ∉ DuplicateGroup.canonical_id g :: DuplicateGroup.duplicate_ids g.
Proof.
  intros Hab Hac Hbc HsAB HsAC HsBC.
  destruct (three_documents thr A B C Hab Hac Hbc HsAB HsAC HsBC) as [s Hs].
  eexists. split; [exact Hs|].
  destruct (_ <=? _)%nat; simpl; (split; [reflexivity|]);
    rewrite !not_elem_of_cons; repeat split; try congruence; apply not_elem_of_nil.
Qed.

Lemma find_duplicates_three_witness :
  exists g,
    find_duplicates 0.85 [example_A; example_B; example_C] = Some [g]
    /\ (DuplicateGroup.canonical_id g, DuplicateGroup.duplicate_ids g) =
         (if (length (ScrapedContent.headings example_B)
              <=? length (ScrapedContent.headings example_A))%nat
          then (ScrapedContent.resource_id example_A, [ScrapedContent.resource_id example_B])
          else (ScrapedContent.resource_id example_B, [ScrapedContent.resource_id example_A]))
    /\ ScrapedContent.resource_id example_C
         ∉ DuplicateGroup.canonical_id g :: DuplicateGroup.duplicate_ids g.
Proof.
  apply (find_duplicates_three 0.85 example_A example_B example_C);
    first [ discriminate | vm_compute; reflexivity ].
Defined.

(** C5: the code at an input whose ids descend.  Two documents with the
    same text, so of similarity 1, the one with the greater id first: the
    group's [similarity] is 0.  With the ids in ascending order it is 1. *)
Lemma similarity_depends_on_id_order :
  let t := "Gradient descent explained: a short introduction."%string in
  doc_similarity (document "b" t []) (document "a" t []) = 1
  /\ find_duplicates 0.85 [document "b" t []; document "a" t []]
     = Some [DuplicateGroup.mk "b" ["a"%string] 0]
  /\ find_duplicates 0.85 [document "a" t []; document "b" t []]
     = Some [DuplicateGroup.mk "a" ["b"%string] 1].
Proof. repeat split; vm_compute; reflexivity. Qed.

(** C10, as stated, fails: the two texts normalise to the same two
    characters, their trigram sets are that singleton and the Jaccard
    similarity of the sets is 1, but [find_duplicates] reads the first 5000
    characters only, which are all punctuation in the first text. *)
Lemma short_text_after_long_prefix :
  normalise (ScrapedContent.text_content example_long) = "ab"%string
  /\ normalise (ScrapedContent.text_content example_short) = "ab"%string
  /\ trigrams (ScrapedContent.text_content example_long) = {[ "ab"%string ]}
  /\ trigrams (ScrapedContent.text_content example_short) = {[ "ab"%string ]}
  /\ jaccard (trigrams (ScrapedContent.text_content example_long))
             (trigrams (ScrapedContent.text_content example_short)) = 1
  /\ find_duplicates 0.85 [example_long; example_short] = Some [].
Proof. repeat split; vm_compute; reflexivity. Qed.

Lemma trigrams_short text :
  (String.length (normalise text) < 3)%nat -> trigrams text = {[ normalise text ]}.
Proof.
  intros H. unfold trigrams.
  destruct (3 <=? String.length (normalise text))%nat eqn:E; [|reflexivity].
  apply Nat.leb_le in E. lia.
Qed.

Lemma jaccard_singleton (t : string) : jaccard {[ t ]} {[ t ]} = 1.
Proof.
  unfold jaccard.
  assert (Hne : ({[ t ]} : gset string) <> ∅).
  { intros H. assert (Hin : t ∈ (∅ : gset string)) by (rewrite <- H; set_solver).
    set_solver. }
  rewrite (bool_decide_eq_false_2 _ Hne). cbn [andb].
  destruct (size_singleton_meet_join t) as [-> ->]. vm_compute. reflexivity.
Qed.

(** C10, amended.  In a list with one document per id, two documents whose
    first 5000 characters normalise to the same string of fewer than 3
    characters: what [find_duplicates] compares is the singleton of that
    string for both, the similarity is 1, and for every threshold up to 1
    one of the returned groups has both as members. *)
Theorem short_documents_grouped thr contents A B t :
  NoDup (map ScrapedContent.resource_id contents) ->
  A ∈ contents -> B ∈ contents ->
  ScrapedContent.resource_id A <> ScrapedContent.resource_id B ->
  normalise (Py.slice_to PREFIX (ScrapedContent.text_content A)) = t ->
  normalise (Py.slice_to PREFIX (ScrapedContent.text_content B)) = t ->
  (String.length t < 3)%nat ->
  (thr <=? 1) = true ->
  doc_trigrams A = {[ t ]} /\ doc_trigrams B = {[ t ]}
  /\ doc_similarity A B = 1
  /\ exists groups g,
       find_duplicates thr contents = Some groups /\ g ∈ groups
       /\ ScrapedContent.resource_id A
            ∈ DuplicateGroup.canonical_id g :: DuplicateGroup.duplicate_ids g
       /\ ScrapedContent.resource_id B
            ∈ DuplicateGroup.canonical_id g :: DuplicateGroup.duplicate_ids g.
Proof.
  intros Hnd HA HB Hab HtA HtB Hlen Hthr.
  assert (HsA : doc_trigrams A = {[ t ]}).
  { unfold doc_trigrams. rewrite trigrams_short; rewrite HtA; auto. }
  assert (HsB : doc_trigrams B = {[ t ]}).
  { unfold doc_trigrams. rewrite trigrams_short; rewrite HtB; auto. }
  assert (Hsim : doc_similarity A B = 1).
  { unfold doc_similarity. rewrite HsA, HsB. apply jaccard_singleton. }
  split_and!; auto.
  destruct (find_duplicates_joins thr contents) as (groups & Hrun & Hjoin).
  assert (Hlen2 : (2 <= length contents)%nat).
  { apply (two_members contents A B HA HB). congruence. }
  destruct (Hjoin Hlen2 _ _ Hab) as (g & Hg & H1 & H2).
  { exists (doc_trigrams A), (doc_trigrams B).
    split_and!; [now apply tri_map_lookup | now apply tri_map_lookup |].
    fold (doc_similarity A B). now rewrite Hsim. }
  exists groups, g. auto.
Qed.

Lemma short_documents_grouped_witness :
  let contents := [document "a" "!?" []; example_C; document "b" "" ["Title"]]%string in
  doc_trigrams (document "a" "!?" []) = {[ ""%string ]}
  /\ doc_trigrams (document "b" "" ["Title"]) = {[ ""%string ]}
  /\ doc_similarity (document "a" "!?" []) (document "b" "" ["Title"]) = 1
  /\ exists groups g,
       find_duplicates 0.85 contents = Some groups /\ g ∈ groups
       /\ "a"%string ∈ DuplicateGroup.canonical_id g :: DuplicateGroup.duplicate_ids g
       /\ "b"%string ∈ DuplicateGroup.canonical_id g :: DuplicateGroup.duplicate_ids g.
Proof.
  apply (short_documents_grouped 0.85
           [document "a" "!?" []; example_C; document "b" "" ["Title"]]%string
           (document "a" "!?" []) (document "b" "" ["Title"]) "").
  - apply (bool_decide_unpack _). vm_compute. reflexivity.
  - apply elem_of_cons. now left.
  - do 2 (apply elem_of_cons; right). apply elem_of_cons. now left.
  - discriminate.
  - reflexivity.
  - reflexivity.
  - simpl. lia.
  - reflexivity.
Defined.

(** [find_duplicates] returns for every threshold and every list of
    documents: the loop of [find] ends, and no key is missing in a
    dictionary that is read. *)
Theorem find_duplicates_returns thr contents :
  exists groups, find_duplicates thr contents = Some groups.
Proof.
  destruct (find_duplicates_joins thr contents) as (groups & Hrun & _). eauto.
Qed.

(** In a list with one document per id, two documents whose similarity
    reaches the threshold are members of one of the returned groups,
    wherever they are in the list. *)
Theorem similar_documents_grouped thr contents A B :
  NoDup (map ScrapedContent.resource_id contents) ->
  A ∈ contents -> B ∈ contents ->
  ScrapedContent.resource_id A <> ScrapedContent.resource_id B ->
  (thr <=? doc_similarity A B) = true ->
  exists groups g,
    find_duplicates thr contents = Some groups /\ g ∈ groups
    /\ ScrapedContent.resource_id A
         ∈ DuplicateGroup.canonical_id g :: DuplicateGroup.duplicate_ids g
    /\ ScrapedContent.resource_id B
         ∈ DuplicateGroup.canonical_id g :: DuplicateGroup.duplicate_ids g.
Proof.
  intros Hnd HA HB Hab Hsim.
  destruct (find_duplicates_joins thr contents) as (groups & Hrun & Hjoin).
  assert (Hlen2 : (2 <= length contents)%nat).
  { apply (two_members contents A B HA HB). congruence. }
  destruct (Hjoin Hlen2 _ _ Hab) as (g & Hg & H1 & H2).
  { exists (doc_trigrams A), (doc_trigrams B).
    split_and!; [now apply tri_map_lookup | now apply tri_map_lookup | exact Hsim]. }
  exists groups, g. auto.
Qed.

Lemma similar_documents_grouped_witness :
  exists groups g,
    find_duplicates 0.85 [example_C; example_B; example_A] = Some groups /\ g ∈ groups
    /\ "b"%string ∈ DuplicateGroup.canonical_id g :: DuplicateGroup.duplicate_ids g
    /\ "a"%string ∈ DuplicateGroup.canonical_id g :: DuplicateGroup.duplicate_ids g.
Proof.
  apply (similar_documents_grouped 0.85 [example_C; example_B; example_A]
           example_B example_A).
  - apply (bool_decide_unpack _). vm_compute. reflexivity.
  - apply elem_of_cons. right. apply elem_of_cons. now left.
  - do 2 (apply elem_of_cons; right). apply elem_of_cons. now left.
  - discriminate.
  - vm_compute. reflexivity.
Defined.

End DedupFacts.

(** ** The learning path builder *)

Section DiversityFacts.
Import LearningPathBuilder.

Lemma bucket_count_app p l1 l2 :
  bucket_count p (l1 ++ l2) = (bucket_count p l1 + bucket_count p l2)%nat.
Proof. unfold bucket_count. now rewrite filter_app, length_app. Qed.

Lemma bucket_count_one_eq r : bucket_count (provider_key r) [r] = 1%nat.
Proof. unfold bucket_count. now rewrite filter_cons_True. Qed.

Lemma bucket_count_one_ne p r : provider_key r <> p -> bucket_count p [r] = 0%nat.
Proof. intros H. unfold bucket_count. now rewrite filter_cons_False. Qed.

Lemma bucket_count_perm p l1 l2 : l1 ≡ₚ l2 -> bucket_count p l1 = bucket_count p l2.
Proof. intros H. unfold bucket_count. now rewrite H. Qed.

(** The loop invariant of [_apply_diversity]. *)
Lemma diversity_pass_spec m : forall rs counts result deferred,
  (forall p, default 0 (counts !! p) = Z.of_nat (bucket_count p result)) ->
  (forall p, Z.of_nat (bucket_count p result) <= m) ->
  (forall d, d ∈ deferred -> Z.of_nat (bucket_count (provider_key d) result) = m) ->
  exists result' deferred',
    diversity_pass m counts rs result deferred = (result', deferred')
    /\ result' ++ deferred' ≡ₚ (result ++ deferred) ++ rs
    /\ (forall p, Z.of_nat (bucket_count p result') <= m)
    /\ (forall d, d ∈ deferred' ->
          Z.of_nat (bucket_count (provider_key d) result') = m)
    /\ (exists taken, result' = result ++ taken)
    /\ (exists put_off, deferred' = deferred ++ put_off).
Proof.
  induction rs as [|r rs IH]; intros counts result deferred Hc Hle Hdef.
  - exists result, deferred. simpl. rewrite app_nil_r.
    repeat split; auto; exists []; now rewrite app_nil_r.
  - simpl. rewrite (Hc (provider_key r)).
    destruct (Z.of_nat (bucket_count (provider_key r) result) <? m) eqn:E.
    + apply Z.ltb_lt in E.
      destruct (IH (<[provider_key r := Z.of_nat (bucket_count (provider_key r) result) + 1]> counts)
                   (result ++ [r]) deferred)
        as (res' & def' & Hrun & Hperm & Hle' & Hdef' & [taken Ht] & Hp).
      * intros p. rewrite bucket_count_app.
        destruct (decide (provider_key r = p)) as [<-|Hne].
        -- rewrite lookup_insert_eq, bucket_count_one_eq. simpl. lia.
        -- rewrite lookup_insert_ne by done.
           rewrite bucket_count_one_ne by done. rewrite Hc. f_equal. lia.
      * intros p. rewrite bucket_count_app.
        destruct (decide (provider_key r = p)) as [<-|Hne].
        -- rewrite bucket_count_one_eq. lia.
        -- rewrite bucket_count_one_ne by done. specialize (Hle p). lia.
      * intros d Hd. rewrite bucket_count_app, bucket_count_one_ne.
        -- rewrite <- (Hdef d Hd). f_equal. lia.
        -- intros Heq. specialize (Hdef d Hd). rewrite <- Heq in Hdef. lia.
      * exists res', def'. rewrite Hrun. repeat split; auto.
        -- rewrite Hperm. rewrite <- !app_assoc. simpl.
           apply Permutation_app_head. apply Permutation_middle.
        -- exists (r :: taken). rewrite Ht, <- app_assoc. reflexivity.
    + apply Z.ltb_ge in E.
      destruct (IH counts result (deferred ++ [r]))
        as (res' & def' & Hrun & Hperm & Hle' & Hdef' & Ht & [put_off Hp]); auto.
      * intros d Hd. apply elem_of_app in Hd as [Hd|Hd]; [auto|].
        apply list_elem_of_singleton in Hd as ->. specialize (Hle (provider_key r)). lia.
      * exists res', def'. rewrite Hrun. repeat split; auto.
        -- rewrite Hperm. now rewrite <- !app_assoc.
        -- exists (r :: put_off). rewrite Hp, <- app_assoc. reflexivity.
Qed.

Local Open Scope float_scope.

(** C6, as stated, fails: for a list of one resource and a diversity cap
    of 0.4 the initial pass keeps the resource, one item from its provider,
    which is more than 0.4 x 1. *)
Lemma diversity_single_resource :
  _apply_diversity 0.4 [resource_of "X" "https://x.org/a"]
    = Returned [resource_of "X" "https://x.org/a"]
  /\ selection 1 [resource_of "X" "https://x.org/a"]
     = ([resource_of "X" "https://x.org/a"], [])
  /\ max_per_provider 0.4 1 = Returned 1%Z
  /\ (PyFloat.of_nat (bucket_count "X" [resource_of "X" "https://x.org/a"])
        <=? 0.4 * PyFloat.of_nat 1) = false.
Proof. repeat split; vm_compute; reflexivity. Qed.

(** C6, amended.  Whenever the cap per provider [m = max(1, int(total x
    diversityCap))] is defined, [_apply_diversity] returns the initial pass
    followed by the deferred items; that is a permutation of the input; no
    provider bucket has more than [m] items in the initial pass; an item is
    deferred only when its bucket has [m] items there.  With 10 resources,
    8 of them from "X", and a cap of 0.4, the initial pass has exactly 4
    items of "X" and the deferred tail is the other 4. *)
Theorem apply_diversity_defers cap rs m :
  max_per_provider cap (length rs) = Returned m ->
  exists result deferred,
    selection m rs = (result, deferred)
    /\ _apply_diversity cap rs = Returned (result ++ deferred)
    /\ result ++ deferred ≡ₚ rs
    /\ (1 <= m)%Z
    /\ (forall p, (Z.of_nat (bucket_count p result) <= m)%Z)
    /\ (forall d, d ∈ deferred ->
          Z.of_nat (bucket_count (provider_key d) result) = m)
    /\ (cap = 0.4 -> length rs = 10%nat -> bucket_count "X" rs = 8%nat ->
          bucket_count "X" result = 4%nat
          /\ length deferred = 4%nat
          /\ forall d, d ∈ deferred -> provider_key d = "X"%string).
Proof.
  intros Hm.
  assert (H1 : (1 <= m)%Z).
  { unfold max_per_provider in Hm. destruct (PyFloat.to_int _); [|discriminate].
    injection Hm as <-. lia. }
  destruct (diversity_pass_spec m rs ∅ [] [])
    as (result & deferred & Hrun & Hperm & Hle & Hdef & _ & _).
  { intros p. rewrite lookup_empty. reflexivity. }
  { intros p. unfold bucket_count. simpl. lia. }
  { intros d Hd. now apply elem_of_nil in Hd. }
  simpl in Hperm.
  exists result, deferred. unfold selection. split_and!; auto.
  - unfold _apply_diversity. destruct rs as [|r rs].
    + simpl in Hrun. injection Hrun as <- <-. reflexivity.
    + rewrite Hm, Hrun. reflexivity.
  - (* the scenario of the specification *)
    intros -> Hlen HX. rewrite Hlen in Hm. vm_compute in Hm. injection Hm as <-.
    pose proof (bucket_count_perm "X" _ _ Hperm) as Hsplit.
    rewrite bucket_count_app, HX in Hsplit.
    assert (Hlens : (length result + length deferred = 10)%nat).
    { rewrite <- length_app, Hperm. exact Hlen. }
    assert (HdX : forall d, d ∈ deferred -> provider_key d = "X"%string).
    { intros d Hd. destruct (decide (provider_key d = "X"%string)) as [|Hne]; [done|].
      exfalso. specialize (Hdef d Hd).
      (* the bucket of [d] would hold 4 of the 2 resources that are not of "X" *)
      pose proof (Hle "X"%string) as HleX.
      assert (Hother : (bucket_count (provider_key d) rs <= length rs - bucket_count "X" rs)%nat).
      { clear -Hne. unfold bucket_count. induction rs as [|r rs IH]; simpl; [lia|].
        destruct (decide (provider_key r = provider_key d)) as [E|E];
          destruct (decide (provider_key r = "X"%string)) as [E'|E'].
        - congruence.
        - rewrite filter_cons_True by done. rewrite filter_cons_False by done.
          simpl. pose proof (length_filter (fun r => provider_key r = "X"%string) rs).
          lia.
        - rewrite filter_cons_False by done. rewrite filter_cons_True by done.
          simpl. pose proof (length_filter (fun r => provider_key r = "X"%string) rs).
          lia.
        - rewrite filter_cons_False by done. rewrite filter_cons_False by done.
          simpl. pose proof (length_filter (fun r => provider_key r = "X"%string) rs).
          lia. }
      pose proof (bucket_count_perm (provider_key d) _ _ Hperm) as Hd2.
      rewrite bucket_count_app in Hd2. lia. }
    assert (HdefX : bucket_count "X" deferred = length deferred).
    { clear -HdX. unfold bucket_count. induction deferred as [|d ds IH]; [done|].
      rewrite filter_cons_True by (apply HdX; left). simpl. f_equal.
      apply IH. intros d' Hd'. apply HdX. now right. }
    specialize (Hle "X"%string).
    destruct deferred as [|d ds].
    + simpl in *. unfold bucket_count in Hsplit at 2. simpl in Hsplit. lia.
    + specialize (Hdef d ltac:(left)). rewrite (HdX d ltac:(left)) in Hdef.
      repeat split; [lia| lia | exact HdX].
Qed.

End DiversityFacts.

Section DiversityScenario.
Import LearningPathBuilder.
Local Open Scope float_scope.

Lemma apply_diversity_defers_witness :
  exists result deferred,
    selection 4 ten_resources = (result, deferred)
    /\ _apply_diversity 0.4 ten_resources = Returned (result ++ deferred)
    /\ result ++ deferred ≡ₚ ten_resources
    /\ (1 <= 4)%Z
    /\ (forall p, (Z.of_nat (bucket_count p result) <= 4)%Z)
    /\ (forall d, d ∈ deferred ->
          Z.of_nat (bucket_count (provider_key d) result) = 4%Z)
    /\ (0.4 = 0.4 -> length ten_resources = 10%nat ->
        bucket_count "X" ten_resources = 8%nat ->
          bucket_count "X" result = 4%nat
          /\ length deferred = 4%nat
          /\ forall d, d ∈ deferred -> provider_key d = "X"%string).
Proof.
  apply (apply_diversity_defers 0.4 ten_resources 4).
  vm_compute. reflexivity.
Defined.

(** The order [_apply_diversity] returns for these ten. *)
Example apply_diversity_ten :
  option_map (map Resource.url)
    (match _apply_diversity 0.4 ten_resources with
     | Returned l => Some l
     | Raised _ => None
     end)
  = Some [ "https://x.org/1"; "https://x.org/2"; "https://y.org/1";
           "https://x.org/3"; "https://x.org/4"; "https://z.org/1";
           "https://x.org/5"; "https://x.org/6"; "https://x.org/7";
           "https://x.org/8" ]%string.
Proof. vm_compute. reflexivity. Qed.

End DiversityScenario.

Section HourCapFacts.
Import LearningPathBuilder FloatOrder.
Local Open Scope float_scope.

Lemma total_hours_snoc p m :
  total_hours (p ++ [m]) = total_hours p + ModuleUnit.estimated_hours m.
Proof. unfold total_hours, PyFloat.sum. now rewrite map_app, fold_left_app. Qed.

(** The trimming loop, started after the modules [pre] with their total
    as the running total. *)
Lemma trim_spec cap : forall ms pre,
  exists kept,
    trim cap ms (total_hours pre) = kept
    /\ (forall q, q <> [] -> q `prefix_of` kept ->
          (total_hours (pre ++ q) <=? cap) = true)
    /\ (kept = ms
        \/ exists m rest, ms = kept ++ m :: rest
             /\ (total_hours (pre ++ kept ++ [m]) <=? cap) = false).
Proof.
  induction ms as [|m ms IH]; intros pre.
  - exists []. simpl. split_and!; auto.
    intros q Hq Hpre. apply prefix_nil_inv in Hpre. contradiction.
  - simpl.
    destruct (total_hours pre + ModuleUnit.estimated_hours m <=? cap) eqn:E.
    + destruct (IH (pre ++ [m])) as (kept & Hk & Hin & Hmax).
      rewrite total_hours_snoc in Hk.
      exists (m :: kept). rewrite Hk. split_and!; auto.
      * intros q Hq Hpre. destruct q as [|m' q]; [contradiction|].
        apply prefix_cons_inv_1 in Hpre as Hm. subst m'.
        apply prefix_cons_inv_2 in Hpre.
        destruct q as [|m2 q].
        -- rewrite total_hours_snoc. exact E.
        -- replace (pre ++ m :: m2 :: q) with ((pre ++ [m]) ++ m2 :: q)
             by now rewrite <- app_assoc.
           apply Hin; [discriminate | exact Hpre].
      * destruct Hmax as [-> | (m2 & rest & -> & Hfail)]; [now left|right].
        exists m2, rest. split; [reflexivity|].
        replace (pre ++ (m :: kept) ++ [m2]) with ((pre ++ [m]) ++ kept ++ [m2])
          by now rewrite <- app_assoc.
        exact Hfail.
    + exists []. split_and!; auto.
      * intros q Hq Hpre. apply prefix_nil_inv in Hpre. contradiction.
      * right. exists m, ms. split; [reflexivity|].
        simpl. rewrite total_hours_snoc. exact E.
Qed.

(** What is kept is the longest prefix within the cap. *)
Lemma trim_longest cap ms :
  let kept := trim cap ms 0 in
  kept `prefix_of` ms
  /\ within_cap cap kept
  /\ (forall p, p `prefix_of` ms -> within_cap cap p -> (length p <= length kept)%nat).
Proof.
  destruct (trim_spec cap ms []) as (kept & Hk & Hin & Hmax).
  change (total_hours []) with 0 in Hk. simpl. rewrite Hk. clear Hk.
  split_and!.
  - destruct Hmax as [-> | (m & rest & -> & _)]; [reflexivity|].
    now apply prefix_app_r.
  - intros q Hq Hpre. now apply (Hin q).
  - intros p Hp Hwithin.
    destruct Hmax as [-> | (m & rest & -> & Hfail)].
    + now apply prefix_length.
    + destruct (decide (length p <= length kept)%nat) as [|Hlong]; [done|].
      exfalso.
      assert (Hpre : (kept ++ [m]) `prefix_of` p).
      { destruct Hp as [tail Hp].
        assert (Hk : kept ++ [m] = take (S (length kept)) (kept ++ m :: rest)).
        { rewrite take_app_ge by lia.
          replace (S (length kept) - length kept)%nat with 1%nat by lia.
          reflexivity. }
        rewrite Hk, Hp. rewrite take_app_le by lia.
        apply prefix_take. }
      simpl in Hfail.
      rewrite (Hwithin (kept ++ [m])) in Hfail; [discriminate | | exact Hpre].
      now destruct kept.
Qed.

(** C7, as stated, fails in its last part: the path keeps the first module,
    whose hours are 10.25, and reports 10.2 as its total. *)
Lemma total_hours_rounded :
  match _build_path one_per_module ML_BASICS BEGINNER beginner_pair with
  | Returned path =>
      map ModuleUnit.resource_ids (LearningPath.modules path) = [["r1"%string]]
      /\ total_hours (LearningPath.modules path) = 10.25
      /\ LearningPath.total_estimated_hours path = PyFloat.round 10.25 1
      /\ (LearningPath.total_estimated_hours path
            =? total_hours (LearningPath.modules path)) = false
  | Raised _ => False
  end.
Proof. vm_compute. repeat split; reflexivity. Qed.

(** The modules are kept from the front, while the running total stays
    within the cap: with modules of 25, -10 and 10 hours and a cap of 20
    no module is kept, although the first two total 15. *)
Example negative_hours_prefix :
  match untrimmed_modules one_per_module ML_BASICS BEGINNER beginner_triple,
        _build_path one_per_module ML_BASICS BEGINNER beginner_triple with
  | Returned modules, Returned path =>
      map ModuleUnit.estimated_hours modules = [25; -10; 10]
      /\ LearningPath.modules path = []
      /\ total_hours (firstn 2 modules) = 15
      /\ (total_hours (firstn 2 modules)
            <=? Settings.max_hours_beginner_path one_per_module) = true
  | _, _ => False
  end.
Proof. vm_compute. repeat split; reflexivity. Qed.

(** C7, amended.  A beginner path whose modules, as first built, total more
    than the cap (the cap not negative): the path keeps a prefix of them,
    every running total of that prefix and its total are within the cap,
    no longer prefix has all its running totals within the cap, and
    [total_estimated_hours] is the kept total rounded to one decimal. *)
Theorem build_path_beginner_cap settings domain resources modules :
  untrimmed_modules settings domain BEGINNER resources = Returned modules ->
  (Settings.max_hours_beginner_path settings <? total_hours modules) = true ->
  (0 <=? Settings.max_hours_beginner_path settings) = true ->
  exists path,
    _build_path settings domain BEGINNER resources = Returned path
    /\ LearningPath.modules path `prefix_of` modules
    /\ within_cap (Settings.max_hours_beginner_path settings)
                  (LearningPath.modules path)
    /\ (total_hours (LearningPath.modules path)
          <=? Settings.max_hours_beginner_path settings) = true
    /\ (forall p, p `prefix_of` modules ->
          within_cap (Settings.max_hours_beginner_path settings) p ->
          (length p <= length (LearningPath.modules path))%nat)
    /\ LearningPath.total_estimated_hours path
       = PyFloat.round (total_hours (LearningPath.modules path)) 1.
Proof.
  intros Hmods Hover Hcap.
  unfold _build_path. rewrite Hmods.
  rewrite bool_decide_eq_true_2 by reflexivity. rewrite Hover. cbn [andb].
  eexists. split; [reflexivity|]. cbn [LearningPath.modules LearningPath.total_estimated_hours].
  destruct (trim_longest (Settings.max_hours_beginner_path settings) modules)
    as (Hpre & Hwithin & Hlongest).
  split_and!; auto.
  destruct (trim (Settings.max_hours_beginner_path settings) modules 0) as [|m kept] eqn:E.
  - exact Hcap.
  - apply Hwithin; [discriminate | reflexivity].
Qed.

Lemma build_path_beginner_cap_witness :
  exists path,
    _build_path one_per_module ML_BASICS BEGINNER beginner_pair = Returned path
    /\ LearningPath.modules path
         `prefix_of` [ make_module ML_BASICS BEGINNER 1 [nth 0 beginner_pair (resource_of "" "")];
                       make_module ML_BASICS BEGINNER 2 [nth 1 beginner_pair (resource_of "" "")] ]
    /\ within_cap (Settings.max_hours_beginner_path one_per_module)
                  (LearningPath.modules path)
    /\ (total_hours (LearningPath.modules path)
          <=? Settings.max_hours_beginner_path one_per_module) = true
    /\ (forall p,
          p `prefix_of` [ make_module ML_BASICS BEGINNER 1 [nth 0 beginner_pair (resource_of "" "")];
                          make_module ML_BASICS BEGINNER 2 [nth 1 beginner_pair (resource_of "" "")] ] ->
          within_cap (Settings.max_hours_beginner_path one_per_module) p ->
          (length p <= length (LearningPath.modules path))%nat)
    /\ LearningPath.total_estimated_hours path
       = PyFloat.round (total_hours (LearningPath.modules path)) 1.
Proof.
  apply (build_path_beginner_cap one_per_module ML_BASICS beginner_pair);
    vm_compute; reflexivity.
Defined.

End HourCapFacts.

(** ** The evaluator *)

Section EvaluatorFacts.
Import Evaluator.
Local Open Scope float_scope.

Lemma add_freshness_band fromisoformat now1 now2 raw score :
  age_band fromisoformat now1 raw = age_band fromisoformat now2 raw ->
  add_freshness fromisoformat now1 raw score = add_freshness fromisoformat now2 raw score.
Proof. intros H. unfold add_freshness. now rewrite H. Qed.

Lemma create_discovered_at now url title description provider domains ctype
    difficulty q raw :
  Resource.discovered_at
    (Resource.create now url title description provider domains ctype difficulty q raw)
  = now.
Proof. reflexivity. Qed.

Lemma create_without_clock now1 now2 q1 q2 url title description provider domains
    ctype difficulty raw :
  without_clock_fields
    (Resource.create now1 url title description provider domains ctype difficulty q1 raw)
  = without_clock_fields
    (Resource.create now2 url title description provider domains ctype difficulty q2 raw).
Proof. reflexivity. Qed.

Lemma create_without_date now1 now2 q url title description provider domains
    ctype difficulty raw :
  Resource.set_discovered_at 0%Z
    (Resource.create now1 url title description provider domains ctype difficulty q raw)
  = Resource.set_discovered_at 0%Z
    (Resource.create now2 url title description provider domains ctype difficulty q raw).
Proof. reflexivity. Qed.

(** C9, as stated, fails: one search result, evaluated on 1 June 2024 and
    on 1 June 2026, whatever [math.log10] and the text of pydantic's error are: the scores differ (the
    repository was updated five months, then 29 months before), and so do
    the [discovered_at] stamps. *)
Lemma evaluate_depends_on_clock :
  (forall log10 validation_error,
     score_and_date (evaluate new_year_2024 log10 validation_error june_2024 june_2024 example_result)
     = Some (0.7, june_2024))
  /\ (forall log10 validation_error,
        score_and_date (evaluate new_year_2024 log10 validation_error june_2026 june_2026 example_result)
        = Some (0.55, june_2026))
  /\ (0.7 =? 0.55) = false.
Proof. split_and!; intros; vm_compute; reflexivity. Qed.

(** C9, amended.  [evaluate] reads the clock twice.  Two evaluations of one
    search result for which [updated_at] falls in the same age band (or
    cannot be read) end the same way, and the resources they return differ
    in [discovered_at] only, which is the instant of creation.  Whatever
    the two instants, the returned resources agree on every field but
    [quality_score] and [discovered_at]. *)
Theorem evaluate_clock_dependence fromisoformat log10 validation_error result now1 now2 created1 created2 :
  age_band fromisoformat now1 (SearchResult.raw result)
  = age_band fromisoformat now2 (SearchResult.raw result) ->
  outcome_map (Resource.set_discovered_at 0%Z)
    (evaluate fromisoformat log10 validation_error now1 created1 result)
  = outcome_map (Resource.set_discovered_at 0%Z)
      (evaluate fromisoformat log10 validation_error now2 created2 result)
  /\ (forall r, evaluate fromisoformat log10 validation_error now1 created1 result = Returned r ->
        Resource.discovered_at r = created1)
  /\ (forall now3 created3 r1 r3,
        evaluate fromisoformat log10 validation_error now1 created1 result = Returned r1 ->
        evaluate fromisoformat log10 validation_error now3 created3 result = Returned r3 ->
        without_clock_fields r1 = without_clock_fields r3).
Proof.
  intros Hband. unfold evaluate.
  set (provider := _detect_provider _ _).
  set (domains := _detect_domains _).
  set (ctype := _detect_content_type _ _).
  set (score4 := add_stars log10 _ _).
  rewrite (add_freshness_band fromisoformat now1 now2 _ score4 Hband).
  split_and!.
  - destruct (add_freshness fromisoformat now2 _ score4) as [score5|e]; [|reflexivity].
    cbv zeta. destruct (_ && _); reflexivity.
  - intros r. destruct (add_freshness fromisoformat now2 _ score4) as [score5|e];
      [|discriminate].
    cbv zeta. destruct (_ && _); [|discriminate].
    intros [= <-]. apply create_discovered_at.
  - intros now3 created3 r1 r3.
    destruct (add_freshness fromisoformat now2 _ score4) as [score5|e]; [|discriminate].
    destruct (add_freshness fromisoformat now3 _ score4) as [score5'|e']; [|discriminate].
    cbv zeta. destruct (_ && _); [|discriminate]. destruct (_ && _); [|discriminate].
    intros [= <-] [= <-]. apply create_without_clock.
Qed.

Lemma evaluate_clock_dependence_witness :
  outcome_map (Resource.set_discovered_at 0%Z)
    (evaluate new_year_2024 (fun _ => 0) (fun _ => ""%string) june_2024 june_2024 example_result)
  = outcome_map (Resource.set_discovered_at 0%Z)
      (evaluate new_year_2024 (fun _ => 0) (fun _ => ""%string) july_2024 july_2024 example_result)
  /\ (forall r,
        evaluate new_year_2024 (fun _ => 0) (fun _ => ""%string) june_2024 june_2024 example_result
        = Returned r ->
        Resource.discovered_at r = june_2024)
  /\ (forall now3 created3 r1 r3,
        evaluate new_year_2024 (fun _ => 0) (fun _ => ""%string) june_2024 june_2024 example_result
        = Returned r1 ->
        evaluate new_year_2024 (fun _ => 0) (fun _ => ""%string) now3 created3 example_result
        = Returned r3 ->
        without_clock_fields r1 = without_clock_fields r3).
Proof.
  apply (evaluate_clock_dependence new_year_2024 (fun _ => 0) (fun _ => ""%string)
           example_result
           june_2024 july_2024 june_2024 july_2024).
  vm_compute. reflexivity.
Defined.

End EvaluatorFacts.

(** ** The discovery agent *)

Section AgentFacts.
Import DiscoveryAgent Catalog.
Local Open Scope float_scope.

Lemma alike_refl ss : alike ss ss.
Proof. induction ss; constructor; auto. Qed.

Lemma alike_quiet s query max_results text before after :
  Searcher.search s query max_results = Raised (Exception text) ->
  alike (before ++ s :: after) (before ++ quiet s query max_results :: after).
Proof.
  intros Hfail. apply Forall2_app; [apply alike_refl|].
  constructor; [|apply alike_refl]. split; [reflexivity|].
  intros q m. unfold _search_one, quiet. simpl.
  destruct (String.eqb q query && (m =? max_results)%Z) eqn:E; [|reflexivity].
  apply andb_true_iff in E as [Hq Hm].
  apply String.eqb_eq in Hq. apply Z.eqb_eq in Hm. subst. now rewrite Hfail.
Qed.

Lemma alike_length ss ss' : alike ss ss' -> length ss = length ss'.
Proof. apply Forall2_length. Qed.

Lemma alike_filter ss ss' :
  alike ss ss' ->
  alike (filter (fun s => Searcher.name s = "github"%string) ss)
        (filter (fun s => Searcher.name s = "github"%string) ss').
Proof.
  induction 1 as [|s s' ss ss' [Hn Hs] _ IH]; [constructor|].
  destruct (decide (Searcher.name s = "github"%string)) as [E|E].
  - rewrite !filter_cons_True by congruence. constructor; auto.
  - rewrite !filter_cons_False by congruence. exact IH.
Qed.

Lemma alike_tasks ss ss' (queries : list string) m :
  alike ss ss' ->
  flat_map (fun query => map (fun s => _search_one s query m) ss) queries
  = flat_map (fun query => map (fun s => _search_one s query m) ss') queries.
Proof.
  intros H. induction queries as [|q qs IH]; [reflexivity|].
  simpl. rewrite IH. f_equal.
  clear IH. induction H as [|s s' ss ss' [_ Hs] _ IH]; [reflexivity|].
  simpl. now rewrite Hs, IH.
Qed.

(** A task of the fan-out returns unless the search raises an exception
    outside [Exception]; when none does, [gather] returns. *)
Lemma search_one_returns s q m :
  uninterrupted (Searcher.search s q m) ->
  exists results, _search_one s q m = Returned results.
Proof.
  unfold _search_one, uninterrupted.
  destruct (Searcher.search s q m) as [results|[text|text]]; [eauto|eauto|tauto].
Qed.

Lemma search_one_interrupted s q m text :
  Searcher.search s q m = Raised (BaseException text) ->
  _search_one s q m = Raised (BaseException text).
Proof. intros H. unfold _search_one. now rewrite H. Qed.

Lemma gather_search_one m : forall (tasks : list (Searcher.t * string)),
  (forall t, t ∈ tasks -> uninterrupted (Searcher.search t.1 t.2 m)) ->
  exists results,
    gather (map (fun t => _search_one t.1 t.2 m) tasks) = Returned results.
Proof.
  induction tasks as [|[s q] tasks IH]; intros Hall; [now exists []|].
  destruct IH as [results IH].
  { intros t Ht. apply Hall. now right. }
  destruct (search_one_returns s q m) as [found Hfound].
  { apply (Hall (s, q)). left. }
  cbn [map gather fst snd]. rewrite Hfound, IH. eauto.
Qed.

Lemma gather_fan_out ss gs (queries github_queries : list string) m :
  (forall s q, s ∈ ss -> uninterrupted (Searcher.search s q m)) ->
  (forall s q, s ∈ gs -> uninterrupted (Searcher.search s q m)) ->
  exists results,
    gather (flat_map (fun query => map (fun s => _search_one s query m) ss) queries
            ++ flat_map (fun query => map (fun s => _search_one s query m) gs)
                        github_queries)
    = Returned results.
Proof.
  intros Hss Hgs.
  assert (H : forall (xs : list Searcher.t) (qs : list string),
            flat_map (fun query => map (fun s => _search_one s query m) xs) qs
            = map (fun t => _search_one t.1 t.2 m)
                  (flat_map (fun query => map (fun s => (s, query)) xs) qs)).
  { intros xs qs. induction qs as [|q qs IH]; [reflexivity|].
    simpl. rewrite IH, map_app, map_map. reflexivity. }
  assert (Hin : forall (xs : list Searcher.t) (qs : list string) t,
            t ∈ flat_map (fun query => map (fun s => (s, query)) xs) qs -> t.1 ∈ xs).
  { intros xs qs t Ht. apply list_elem_of_In, in_flat_map in Ht as (q & _ & Ht).
    apply in_map_iff in Ht as (s & <- & Hs). now apply list_elem_of_In. }
  rewrite !H, <- map_app. apply gather_search_one.
  intros t Ht. apply elem_of_app in Ht as [Ht|Ht].
  - apply Hss. now apply Hin in Ht.
  - apply Hgs. now apply Hin in Ht.
Qed.

Lemma github_queries_return ds : forall nodes,
  Forall (fun node => TaxonomyNode.keywords node <> []) nodes ->
  exists queries, _build_github_queries nodes ds = Returned queries.
Proof.
  induction 1 as [|node nodes Hk _ [queries IH]]; [now exists []|].
  simpl. destruct (bool_decide _); [|eauto].
  destruct (TaxonomyNode.keywords node); [contradiction|].
  rewrite IH. eauto.
Qed.

Lemma taxonomy_has_keywords :
  Forall (fun node => TaxonomyNode.keywords node <> []) TAXONOMY.
Proof. unfold TAXONOMY. repeat constructor; discriminate. Qed.

(** Allocation and upsert keep the catalog's references live. *)
Lemma closed_alloc st r :
  closed st ->
  closed (mk (<[fresh (dom (objects st)) := r]> (objects st))
             (repo st) (_cache st) (_loaded st)).
Proof.
  intros Hc. destruct (_loaded st) eqn:Hld.
  - intros k le. unfold _ensure_loaded. simpl.
    intros Hk. specialize (Hc k le). rewrite (ensure_loaded_idem st Hld) in Hc.
    destruct (Hc Hk) as [x Hx]. exists x.
    rewrite lookup_insert_ne; [done|].
    intros <-. apply (is_fresh (dom (objects st))). apply elem_of_dom. eauto.
  - now apply unloaded_closed.
Qed.

Lemma upsert_total st l r min_score :
  objects st !! l = Some r -> closed st ->
  exists b st', upsert l min_score st = Some (b, st')
                /\ closed st' /\ is_Some (objects st' !! l).
Proof.
  intros Hl Hc.
  destruct (Resource.quality_score r <? min_score) eqn:Hlt.
  - exists false, st. rewrite (upsert_rejected st l r min_score Hl Hlt). eauto.
  - pose proof (ensure_loaded_keeps_objects st l r Hl) as Hl'.
    destruct (_cache (_ensure_loaded st) !! Resource.id r) as [le|] eqn:Hk.
    + destruct (Hc _ _ Hk) as [existing He].
      eexists false, _. rewrite (upsert_merge st l r le existing min_score Hl Hlt Hk He).
      split_and!; [reflexivity| |].
      * intros k' le'. unfold _ensure_loaded. simpl. intros Hk'.
        destruct (decide (le' = l)) as [->|Hne]; [rewrite lookup_insert_eq; eauto|].
        rewrite lookup_insert_ne by congruence.
        apply lookup_insert_Some in Hk' as [[_ <-]|[_ Hk']]; [done|].
        now apply (Hc k' le').
      * simpl. rewrite lookup_insert_eq. eauto.
    + eexists true, _. rewrite (upsert_new st l r min_score Hl Hlt Hk).
      split_and!; [reflexivity| |].
      * intros k' le'. unfold _ensure_loaded. simpl. intros Hk'.
        apply lookup_insert_Some in Hk' as [[_ <-]|[_ Hk']]; [eauto|].
        now apply (Hc k' le').
      * simpl. eauto.
Qed.

(** The loop raises only what an evaluation raises outside [Exception]. *)
Lemma catalogue_no_raise settings evaluate clock :
  (forall now created result, uninterrupted (evaluate now created result)) ->
  forall unique_results i report st e st',
    catalogue settings evaluate clock i unique_results report st <> Some (Raised e, st').
Proof.
  intros Hev. induction unique_results as [|result rest IH]; intros i report st e st';
    [discriminate|].
  cbn [catalogue]. match goal with
  | |- context [evaluate ?a ?b result] => pose proof (Hev a b result) as Hu
  end.
  destruct (evaluate _ _ result) as [resource|[exc|exc]]; [|apply IH|destruct Hu].
  destruct (upsert _ _ _) as [[is_new st1]|]; [|discriminate]. cbn.
  destruct (objects st1 !! _); [|discriminate]. cbn. apply IH.
Qed.

Lemma catalogue_total settings evaluate clock :
  (forall now created result, uninterrupted (evaluate now created result)) ->
  forall unique_results i report st,
  closed st ->
  exists report' st',
    catalogue settings evaluate clock i unique_results report st
    = Some (Returned report', st').
Proof.
  intros Hev.
  induction unique_results as [|result rest IH]; intros i report st Hc; [simpl; eauto|].
  simpl. match goal with
  | |- context [evaluate ?a ?b result] => pose proof (Hev a b result) as Hu
  end.
  destruct (evaluate _ _ result) as [resource|[exc|exc]];
    [|now apply IH|destruct Hu].
  set (l := fresh (dom (objects st))).
  destruct (upsert_total
              (mk (<[l := resource]> (objects st)) (repo st) (_cache st) (_loaded st))
              l resource (Settings.min_quality_score settings))
    as (b & st' & Hup & Hc' & [r' Hr']).
  { simpl. apply lookup_insert_eq. }
  { now apply closed_alloc. }
  rewrite Hup. simpl. rewrite Hr'. simpl. now apply IH.
Qed.

(** C8, as stated, fails: a search call that is cancelled raises
    [asyncio.CancelledError], which is not an instance of [Exception]; the
    wrapper does not catch it and the run ends with it, beside a searcher
    that finds nothing, on the empty catalog. *)
Lemma cancelled_search_aborts_run :
  _search_one cancelled_searcher "awesome Deep Learning" 10
  = Raised (BaseException "")
  /\ run Settings.default (fun _ _ _ => Raised "unused") (fun _ => 0%Z)
         [silent_searcher; cancelled_searcher] (Some [DEEP_LEARNING]) 10
         (mk ∅ [] ∅ false)
     = Some (Raised (BaseException ""), mk ∅ [] ∅ false).
Proof. split; vm_compute; reflexivity. Qed.

(** C8, amended.  When the call [search(query)] of a searcher raises an
    instance of [Exception], [_search_one] returns the empty list for that
    task.  A run with that searcher among its searchers ends exactly as
    the run in which that call had returned no result: same report or same
    exception, same catalog.  When no search call and no evaluation raises
    an exception outside [Exception], the run does not raise, and on a
    catalog whose references are live it returns its report. *)
Theorem searcher_failure_isolated (s : Searcher.t) (query : string)
    (max_results : Z) (text : string) :
  Searcher.search s query max_results = Raised (Exception text) ->
  _search_one s query max_results = Returned []
  /\ forall settings evaluate clock before after domains st,
       run settings evaluate clock (before ++ s :: after) domains max_results st
       = run settings evaluate clock
           (before ++ quiet s query max_results :: after) domains max_results st
       /\ ((forall s' q, s' ∈ before ++ s :: after ->
              uninterrupted (Searcher.search s' q max_results)) ->
           (forall now created result, uninterrupted (evaluate now created result)) ->
           (forall e' st',
              run settings evaluate clock (before ++ s :: after) domains max_results st
              <> Some (Raised e', st'))
           /\ (closed st ->
               exists report st',
                 run settings evaluate clock (before ++ s :: after)
                   domains max_results st
                 = Some (Returned report, st'))).
Proof.
  intros Hfail. split.
  { unfold _search_one. now rewrite Hfail. }
  intros settings evaluate clock before after domains st.
  pose proof (alike_quiet s query max_results text before after Hfail) as Halike.
  set (ss := before ++ s :: after) in *.
  set (ss' := before ++ quiet s query max_results :: after) in *.
  unfold run. cbv zeta.
  match goal with
  | |- context [_build_github_queries TAXONOMY ?t] => set (target := t)
  end.
  destruct (github_queries_return target TAXONOMY taxonomy_has_keywords)
    as [github_queries ->].
  rewrite <- (alike_tasks ss ss' _ max_results Halike).
  rewrite <- (alike_tasks _ _ github_queries max_results (alike_filter ss ss' Halike)).
  rewrite <- (alike_length ss ss' Halike).
  rewrite <- (alike_length _ _ (alike_filter ss ss' Halike)).
  split; [reflexivity|].
  intros Hsearch Hev.
  destruct (gather_fan_out ss (filter (fun s => Searcher.name s = "github"%string) ss)
              (_build_queries TAXONOMY target) github_queries max_results)
    as [results ->].
  { intros s' q Hs'. now apply Hsearch. }
  { intros s' q Hs'. apply Hsearch. now apply list_elem_of_filter in Hs' as [_ Hs']. }
  split.
  - intros e' st'. now apply catalogue_no_raise.
  - intros Hc.
    match goal with
    | |- context [catalogue ?a ?b ?c ?i ?u ?r ?st] =>
        destruct (catalogue_total a b c Hev u i r st Hc) as (report' & st' & ->)
    end.
    eauto.
Qed.

Lemma searcher_failure_isolated_witness :
  _search_one failing_searcher "awesome Deep Learning" 10 = Returned []
  /\ forall settings evaluate clock before after domains st,
       run settings evaluate clock (before ++ failing_searcher :: after) domains 10 st
       = run settings evaluate clock
           (before ++ quiet failing_searcher "awesome Deep Learning" 10 :: after)
           domains 10 st
       /\ ((forall s' q, s' ∈ before ++ failing_searcher :: after ->
              uninterrupted (Searcher.search s' q 10)) ->
           (forall now created result, uninterrupted (evaluate now created result)) ->
           (forall e' st',
              run settings evaluate clock (before ++ failing_searcher :: after)
                domains 10 st
              <> Some (Raised e', st'))
           /\ (closed st ->
               exists report st',
                 run settings evaluate clock (before ++ failing_searcher :: after)
                   domains 10 st
                 = Some (Returned report, st'))).
Proof.
  apply (searcher_failure_isolated failing_searcher "awesome Deep Learning" 10
           "connection reset").
  reflexivity.
Defined.

(** One run: a searcher that always fails next to one that finds nothing,
    on the empty catalog.  Every task is counted, nothing is found, no
    error is recorded. *)
Example run_with_failing_searcher :
  run Settings.default (fun _ _ _ => Raised "unused") (fun _ => 0%Z)
      [failing_searcher; silent_searcher] (Some [DEEP_LEARNING]) 10
      (mk ∅ [] ∅ false)
  = Some (Returned (DiscoveryReport.mk 29 0 0 0 0 []), mk ∅ [] ∅ false).
Proof. vm_compute. reflexivity. Qed.

End AgentFacts.
(** ** The deduplicator: what the groups are *)

Section LinkInvariant.
Import ContentDeduplicator.
Variable R : string -> string -> Prop.
Hypothesis R_refl : forall x, R x x.
Hypothesis R_trans : forall x y z, R x y -> R y z -> R x z.

Lemma find_links fuel : forall parent x parent' r,
  links R parent -> find fuel parent x = Some (parent', r) ->
  links R parent' /\ R x r.
Proof.
  induction fuel as [|fuel IH]; intros parent x parent' r HL Hfind; [discriminate|].
  cbn [find] in Hfind.
  destruct (parent !! x) as [px|] eqn:Hx; [|discriminate].
  cbn [mbind option_bind] in Hfind.
  destruct (bool_decide (px <> x)) eqn:B.
  - destruct (parent !! px) as [ppx|] eqn:Hpx; [|discriminate].
    cbn [mbind option_bind] in Hfind.
    assert (Hx' : R x ppx) by (eapply R_trans; [apply (HL x px Hx) | apply (HL px ppx Hpx)]).
    destruct (IH (<[x := ppx]> parent) ppx parent' r) as [HL' Hr]; [|exact Hfind|].
    + intros z p Hz. apply lookup_insert_Some in Hz as [[<- <-]|[_ Hz]]; [exact Hx'|].
      apply (HL z p Hz).
    + split; [exact HL' | eapply R_trans; eassumption].
  - injection Hfind as <- <-. auto.
Qed.

Variable hc : gmap string nat.

(** [union a b] keeps the links in [R] when the new link, whichever way
    the heading counts make it point, is in [R]. *)
Lemma union_links fuel parent a b parent' :
  links R parent -> union fuel hc parent a b = Some parent' ->
  (forall ra rb, R a ra -> R b rb ->
     ((heading_count hc rb <= heading_count hc ra)%nat -> R rb ra)
     /\ ((heading_count hc ra < heading_count hc rb)%nat -> R ra rb)) ->
  links R parent'.
Proof.
  intros HL Hu Hnew. unfold union in Hu.
  destruct (find fuel parent a) as [[parent1 ra]|] eqn:Ha; [|discriminate].
  cbn [mbind option_bind] in Hu.
  destruct (find fuel parent1 b) as [[parent2 rb]|] eqn:Hb; [|discriminate].
  cbn [mbind option_bind] in Hu.
  destruct (find_links _ _ _ _ _ HL Ha) as [HL1 Hra].
  destruct (find_links _ _ _ _ _ HL1 Hb) as [HL2 Hrb].
  destruct (Hnew ra rb Hra Hrb) as [Hle Hlt].
  destruct (bool_decide (ra <> rb)); [|injection Hu as <-; exact HL2].
  destruct (heading_count hc rb <=? heading_count hc ra)%nat eqn:E;
    injection Hu as <-; intros z p Hz;
    apply lookup_insert_Some in Hz as [[<- <-]|[_ Hz]]; try apply (HL2 z p Hz).
  - apply Hle. now apply Nat.leb_le.
  - apply Hlt. apply Nat.leb_gt in E. lia.
Qed.

Variable thr : float.
Variable tri_map : list (string * gset string).
Hypothesis R_new : forall x y ra rb,
  alike_ids thr tri_map x y -> R x ra -> R y rb ->
  ((heading_count hc rb <= heading_count hc ra)%nat -> R rb ra)
  /\ ((heading_count hc ra < heading_count hc rb)%nat -> R ra rb).

Lemma compare_with_links fuel x : forall ys st st',
  links R st.1 -> compare_with thr fuel tri_map hc x ys st = Some st' ->
  links R st'.1.
Proof.
  induction ys as [|y ys IH]; intros st st' HL Hrun.
  - injection Hrun as <-. exact HL.
  - cbn [compare_with] in Hrun.
    destruct (Dict.get x tri_map) as [tx|] eqn:Hx; [|discriminate].
    destruct (Dict.get y tri_map) as [ty|] eqn:Hy; [|discriminate].
    cbn [mbind option_bind] in Hrun.
    destruct (thr <=? TextProcessing.jaccard tx ty)%float eqn:Hle.
    + destruct (union fuel hc st.1 x y) as [parent'|] eqn:Hu; [|discriminate].
      cbn [mbind option_bind] in Hrun.
      assert (Hlike : alike_ids thr tri_map x y) by (exists tx, ty; auto).
      apply (IH (parent', <[(x, y) := TextProcessing.jaccard tx ty]> st.2) st');
        [|exact Hrun].
      cbn [fst]. apply (union_links _ _ _ _ _ HL Hu).
      intros ra rb. now apply R_new.
    + cbn [mbind option_bind] in Hrun. apply (IH _ _ HL Hrun).
Qed.

Lemma compare_all_links fuel : forall l st st',
  links R st.1 -> compare_all thr fuel tri_map hc l st = Some st' ->
  links R st'.1.
Proof.
  induction l as [|x l IH]; intros st st' HL Hrun.
  - injection Hrun as <-. exact HL.
  - cbn [compare_all] in Hrun.
    destruct (compare_with thr fuel tri_map hc x l st) as [st1|] eqn:H1; [|discriminate].
    cbn [mbind option_bind] in Hrun.
    apply (IH _ _ (compare_with_links _ _ _ _ _ HL H1) Hrun).
Qed.

(** Every member of a group is related to the key of the group. *)
Lemma build_groups_links fuel : forall l parent groups_map groups_map',
  links R parent ->
  build_groups fuel l parent groups_map = Some groups_map' ->
  (forall r z, z ∈ default [] (Dict.get r groups_map) -> R z r) ->
  forall r z, z ∈ default [] (Dict.get r groups_map') -> R z r.
Proof.
  induction l as [|rid l IH]; intros parent gm gm' HL Hrun Hgm.
  - injection Hrun as <-. exact Hgm.
  - cbn [build_groups] in Hrun.
    destruct (find fuel parent rid) as [[parent1 r1]|] eqn:Hf; [|discriminate].
    cbn [mbind option_bind] in Hrun.
    destruct (find_links _ _ _ _ _ HL Hf) as [HL1 Hr1].
    apply (IH _ _ _ HL1 Hrun).
    intros r z Hz. destruct (decide (r1 = r)) as [->|Hne].
    + rewrite dict_get_set_eq in Hz. cbn [default from_option id] in Hz.
      apply elem_of_app in Hz as [Hz|Hz]; [now apply Hgm|].
      apply list_elem_of_singleton in Hz. now subst.
    + rewrite dict_get_set_ne in Hz by exact Hne. now apply Hgm.
Qed.
End LinkInvariant.

Section GroupFacts.
Import ContentDeduplicator TextProcessing.

Lemma root_total ids parent z :
  is_forest ids parent -> z ∈ ids -> exists r, root parent z r.
Proof.
  intros (rank & linked & F) Hz.
  destruct (find_forest ids rank linked (S (size linked)) parent z F Hz ltac:(lia))
    as (parent' & r & _ & _ & Hr & _).
  eauto.
Qed.

(** Appending an id to the list of its root adds it to the members once. *)
Lemma dict_append_concat r rid : forall groups_map : list (string * list string),
  concat (Dict.values
            (Dict.set r (default [] (Dict.get r groups_map) ++ [rid]) groups_map))
  ≡ₚ rid :: concat (Dict.values groups_map).
Proof.
  unfold Dict.values.
  induction groups_map as [|[k v] gm IH]; cbn [Dict.get Dict.set map snd concat].
  - reflexivity.
  - destruct (String.eqb k r) eqn:E; cbn [default from_option id map snd concat].
    + rewrite <- app_assoc. cbn [app].
      rewrite <- Permutation_middle. reflexivity.
    + rewrite IH. rewrite <- Permutation_middle. reflexivity.
Qed.

(** The groups map [build_groups] returns: its keys are roots, without
    repetition, and its lists hold every id of the loop once. *)
Lemma build_groups_partition ids fuel :
  (size ids < fuel)%nat ->
  forall l parent groups_map groups_map',
  is_forest ids parent -> (forall z, z ∈ l -> z ∈ ids) ->
  build_groups fuel l parent groups_map = Some groups_map' ->
  NoDup (Dict.keys groups_map) ->
  (forall r, r ∈ Dict.keys groups_map -> parent !! r = Some r) ->
  NoDup (Dict.keys groups_map')
  /\ concat (Dict.values groups_map') ≡ₚ concat (Dict.values groups_map) ++ l
  /\ (forall r, r ∈ Dict.keys groups_map' -> parent !! r = Some r).
Proof.
  intros Hfuel.
  induction l as [|rid l IH]; intros parent gm gm' F Hl Hrun Hnd Hroots.
  - injection Hrun as <-. rewrite app_nil_r. auto.
  - assert (Hrid : rid ∈ ids) by (apply Hl, elem_of_cons; now left).
    pose proof F as (rank & linked & F0).
    pose proof (forest_linked_size _ _ _ _ F0) as Hsize.
    destruct (find_forest ids rank linked fuel parent rid F0 Hrid ltac:(lia))
      as (parent1 & r1 & Hfind & F1 & Hr1 & Hkeep).
    cbn [build_groups] in Hrun. rewrite Hfind in Hrun.
    cbn [mbind option_bind] in Hrun.
    assert (Hfwd : forall z, parent !! z = Some z -> parent1 !! z = Some z).
    { intros z Hz. apply (root_is_root parent1 z z), Hkeep. now apply root_here. }
    assert (Hbwd : forall z, z ∈ ids -> parent1 !! z = Some z -> parent !! z = Some z).
    { intros z Hz Hz1. destruct (root_total ids parent z F Hz) as [r0 Hr0].
      assert (r0 = z).
      { apply (root_functional parent1 z); [now apply Hkeep | now apply root_here]. }
      subst r0. apply (root_is_root _ _ _ Hr0). }
    destruct (IH parent1 (Dict.set r1 (default [] (Dict.get r1 gm) ++ [rid]) gm) gm')
      as (Hnd' & Hperm & Hroots').
    + now exists rank, linked.
    + intros z Hz. apply Hl, elem_of_cons. now right.
    + exact Hrun.
    + now apply dict_keys_set_NoDup.
    + intros r Hr. apply dict_keys_set_elem in Hr as [->|Hr]; [|auto].
      apply Hfwd, (root_is_root _ _ _ Hr1).
    + split_and!; [exact Hnd' | |].
      * rewrite Hperm, dict_append_concat. cbn [app].
        rewrite <- Permutation_middle. reflexivity.
      * intros r Hr. pose proof (Hroots' r Hr) as H1.
        apply Hbwd; [|exact H1].
        destruct F1 as [_ Hclosed _ _ _]. apply (Hclosed r r H1).
Qed.

(** What [find_duplicates] goes through on two or more documents. *)
Lemma find_duplicates_anatomy thr contents :
  (2 <= length contents)%nat ->
  exists parent pair_sim groups_map,
    compare_all thr (S (length (Dict.keys (tri_map_of contents []))))
      (tri_map_of contents []) (heading_counts_of contents ∅)
      (Dict.keys (tri_map_of contents []))
      (parent_of (Dict.keys (tri_map_of contents [])) ∅, ∅) = Some (parent, pair_sim)
    /\ build_groups (S (length (Dict.keys (tri_map_of contents []))))
         (Dict.keys (tri_map_of contents [])) parent [] = Some groups_map
    /\ find_duplicates thr contents
       = Some (map (fun g => make_group pair_sim g.1 g.2)
                   (filter (fun g => (2 <=? length g.2)%nat) groups_map))
    /\ is_forest (list_to_set (Dict.keys (tri_map_of contents []))) parent
    /\ NoDup (Dict.keys (tri_map_of contents [])).
Proof.
  intros Hlen. unfold find_duplicates.
  rewrite (proj2 (Nat.ltb_ge _ _) Hlen).
  change (fold_left _ contents []) with (tri_map_of contents []).
  change (fold_left _ contents ∅) with (heading_counts_of contents ∅).
  set (tri_map := tri_map_of contents []).
  set (hc := heading_counts_of contents ∅).
  set (ids := Dict.keys tri_map).
  fold (parent_of ids ∅).
  assert (Hnd : NoDup ids) by (apply tri_map_keys_NoDup, NoDup_nil_2).
  assert (Hfuel : (size (list_to_set ids : gset string) < S (length ids))%nat).
  { rewrite size_list_to_set by exact Hnd. lia. }
  assert (Hget : forall z, z ∈ (list_to_set ids : gset string) ->
                           is_Some (Dict.get z tri_map)).
  { intros z Hz. apply elem_of_list_to_set in Hz. now apply dict_get_keys. }
  assert (Hids : forall z, z ∈ ids -> z ∈ (list_to_set ids : gset string)).
  { intros z Hz. now apply elem_of_list_to_set. }
  destruct (compare_all_forest thr tri_map hc (list_to_set ids) (S (length ids))
              Hget Hfuel ids (parent_of ids ∅, ∅)) as (st & Hrun & F & _ & _).
  { eexists _, _. apply parent_of_forest. }
  { exact Hids. }
  destruct st as [parent pair_sim]. cbn [fst] in F.
  destruct (build_groups_forest (list_to_set ids) (S (length ids)) Hfuel
              ids parent [] F Hids) as (groups_map & Hbuild & _ & _).
  exists parent, pair_sim, groups_map.
  rewrite Hrun. cbn [mbind option_bind]. rewrite Hbuild. cbn [mbind option_bind].
  auto.
Qed.

End GroupFacts.

Section GroupTheorems.
Import ContentDeduplicator TextProcessing.

Lemma dict_elem_get {V} (d : list (string * V)) k v :
  NoDup (Dict.keys d) -> (k, v) ∈ d -> Dict.get k d = Some v.
Proof.
  unfold Dict.keys. induction d as [|[k' v'] d IH]; cbn [map fst Dict.get]; intros Hnd H.
  - now apply elem_of_nil in H.
  - apply NoDup_cons in Hnd as [Hfresh Hnd].
    apply elem_of_cons in H as [[= -> ->]|H]; [now rewrite String.eqb_refl|].
    destruct (String.eqb k' k) eqn:E; [|auto].
    apply String.eqb_eq in E. subst k'. destruct Hfresh.
    apply list_elem_of_fmap. exists (k, v). auto.
Qed.

Lemma heading_counts_other contents k : forall d,
  k ∉ map ScrapedContent.resource_id contents ->
  heading_counts_of contents d !! k = d !! k.
Proof.
  induction contents as [|c cs IH]; intros d H; [reflexivity|].
  cbn [map] in H. apply not_elem_of_cons in H as [Hne H].
  cbn [heading_counts_of fold_left]. fold (heading_counts_of cs).
  rewrite IH by exact H. now rewrite lookup_insert_ne by congruence.
Qed.

Lemma heading_counts_lookup contents c : forall d,
  NoDup (map ScrapedContent.resource_id contents) -> c ∈ contents ->
  heading_count (heading_counts_of contents d) (ScrapedContent.resource_id c)
  = length (ScrapedContent.headings c).
Proof.
  unfold heading_count.
  induction contents as [|c' cs IH]; intros d Hnd Hc.
  - now apply elem_of_nil in Hc.
  - cbn [map] in Hnd. apply NoDup_cons in Hnd as [Hfresh Hnd].
    cbn [heading_counts_of fold_left]. fold (heading_counts_of cs).
    apply elem_of_cons in Hc as [->|Hc]; [|now apply IH].
    rewrite heading_counts_other by exact Hfresh.
    now rewrite lookup_insert_eq.
Qed.

(** A returned group comes from an entry of the groups map with two or more
    members. *)
Lemma group_of_entry pair_sim (groups_map : list (string * list string)) g :
  g ∈ map (fun e => make_group pair_sim e.1 e.2)
          (filter (fun e => (2 <=? length e.2)%nat) groups_map) ->
  exists r members,
    (r, members) ∈ groups_map /\ (2 <= length members)%nat
    /\ DuplicateGroup.canonical_id g = r
    /\ DuplicateGroup.duplicate_ids g = filter (fun m => m <> r) members.
Proof.
  intros H. apply list_elem_of_In, in_map_iff in H as ([r members] & <- & H).
  apply list_elem_of_In, list_elem_of_filter in H as [Hlen H].
  exists r, members. cbn [fst snd] in *.
  destruct (make_group_members pair_sim r members) as [-> ->].
  split_and!; auto. now apply Nat.leb_le, Is_true_true.
Qed.

(** The entries of the groups map, for two or more documents: every id is
    in one list, once; the key of a list is one of its members. *)
Lemma groups_map_facts thr contents :
  (2 <= length contents)%nat ->
  exists (pair_sim : gmap (string * string) float)
         (groups_map : list (string * list string)),
    find_duplicates thr contents
    = Some (map (fun g => make_group pair_sim g.1 g.2)
                (filter (fun g => (2 <=? length g.2)%nat) groups_map))
    /\ NoDup (Dict.keys groups_map)
    /\ concat (Dict.values groups_map) ≡ₚ Dict.keys (tri_map_of contents [])
    /\ (forall r members, (r, members) ∈ groups_map -> r ∈ members)
    /\ (forall R : string -> string -> Prop,
          (forall x, R x x) -> (forall x y z, R x y -> R y z -> R x z) ->
          (forall x y ra rb,
             alike_ids thr (tri_map_of contents []) x y -> R x ra -> R y rb ->
             ((heading_count (heading_counts_of contents ∅) rb
               <= heading_count (heading_counts_of contents ∅) ra)%nat -> R rb ra)
             /\ ((heading_count (heading_counts_of contents ∅) ra
                  < heading_count (heading_counts_of contents ∅) rb)%nat -> R ra rb)) ->
          forall r members z, (r, members) ∈ groups_map -> z ∈ members -> R z r).
Proof.
  intros Hlen.
  destruct (find_duplicates_anatomy thr contents Hlen)
    as (parent & pair_sim & gm & Hcmp & Hbuild & Hrun & F & Hnd).
  set (ids := Dict.keys (tri_map_of contents [])) in *.
  assert (Hfuel : (size (list_to_set ids : gset string) < S (length ids))%nat).
  { rewrite size_list_to_set by exact Hnd. lia. }
  assert (Hids : forall z, z ∈ ids -> z ∈ (list_to_set ids : gset string)).
  { intros z Hz. now apply elem_of_list_to_set. }
  destruct (build_groups_partition (list_to_set ids) (S (length ids)) Hfuel
              ids parent [] gm F Hids Hbuild)
    as (Hkeys & Hperm & Hroots).
  { apply NoDup_nil_2. }
  { intros r Hr. now apply elem_of_nil in Hr. }
  exists pair_sim, gm. split_and!; auto.
  - intros r members Hin.
    destruct (build_groups_forest (list_to_set ids) (S (length ids)) Hfuel
                ids parent [] F Hids) as (gm2 & Hbuild2 & Hmem & _).
    assert (gm2 = gm) by congruence. subst gm2.
    assert (Hr : parent !! r = Some r).
    { apply Hroots. apply list_elem_of_fmap. exists (r, members). auto. }
    assert (Hrid : r ∈ ids).
    { destruct F as (rank & linked & F).
      pose proof (forest_closed _ _ _ _ F r r Hr) as H.
      now apply elem_of_list_to_set in H. }
    pose proof (Hmem r r Hrid (root_here _ _ Hr)) as H.
    now rewrite (dict_elem_get gm r members Hkeys Hin) in H.
  - intros R Hrefl Htrans Hnew r members z Hin Hz.
    assert (HL0 : links R (parent_of ids ∅)).
    { intros x p. rewrite parent_of_lookup. destruct (decide (x ∈ ids)).
      - intros [= <-]. apply Hrefl.
      - now rewrite lookup_empty. }
    assert (HL : links R parent).
    { apply (compare_all_links R Hrefl Htrans _ thr _ Hnew _ _
               (parent_of ids ∅, ∅) (parent, pair_sim) HL0 Hcmp). }
    apply (build_groups_links R Hrefl Htrans _ _ _ _ _ HL Hbuild).
    + intros r0 z0 H. now apply elem_of_nil in H.
    + now rewrite (dict_elem_get gm r members Hkeys Hin).
Qed.

End GroupTheorems.

Section GroupClaims.
Import ContentDeduplicator TextProcessing.

Lemma find_duplicates_few thr contents :
  (length contents < 2)%nat -> find_duplicates thr contents = Some [].
Proof.
  intros H. unfold find_duplicates. now rewrite (proj2 (Nat.ltb_lt _ _) H).
Qed.

Lemma canonical_and_duplicates (r : string) : forall members,
  r ∈ members -> NoDup members ->
  r :: filter (fun m => m <> r) members ≡ₚ members.
Proof.
  induction members as [|a ms IH]; intros Hin Hnd.
  - now apply elem_of_nil in Hin.
  - apply NoDup_cons in Hnd as [Hfresh Hnd].
    destruct (decide (a = r)) as [->|Hne].
    + rewrite filter_cons_False by (intros H; now apply H).
      assert (Hall : filter (fun m => m <> r) ms = ms).
      { clear -Hfresh. induction ms as [|b ms IH]; [reflexivity|].
        apply not_elem_of_cons in Hfresh as [Hb Hfresh].
        rewrite filter_cons_True by congruence. now rewrite IH. }
      now rewrite Hall.
    + rewrite filter_cons_True by exact Hne.
      apply elem_of_cons in Hin as [->|Hin]; [congruence|].
      rewrite Permutation_swap. now rewrite IH.
Qed.

Lemma group_members_of_entry pair_sim r members :
  r ∈ members -> NoDup members ->
  group_ids (make_group pair_sim r members) ≡ₚ members.
Proof.
  intros Hin Hnd. unfold group_ids.
  destruct (make_group_members pair_sim r members) as [-> ->].
  now apply canonical_and_duplicates.
Qed.

Lemma concat_filter_sublist {A} (P : string * list A -> Prop)
    `{!forall e, Decision (P e)} (groups_map : list (string * list A)) :
  concat (Dict.values (filter P groups_map)) `sublist_of` concat (Dict.values groups_map).
Proof.
  unfold Dict.values. induction groups_map as [|e gm IH]; [constructor|].
  destruct (decide (P e)).
  - rewrite filter_cons_True by assumption. cbn [map concat].
    now apply sublist_app.
  - rewrite filter_cons_False by assumption. cbn [map concat].
    now apply sublist_inserts_l.
Qed.

Lemma concat_values_elem {A} (groups_map : list (string * list A)) r members z :
  (r, members) ∈ groups_map -> z ∈ members -> z ∈ concat (Dict.values groups_map).
Proof.
  unfold Dict.values. induction groups_map as [|e gm IH]; intros H Hz.
  - now apply elem_of_nil in H.
  - cbn [map concat]. apply elem_of_app.
    apply elem_of_cons in H as [<-|H]; [now left | right; auto].
Qed.

Lemma concat_values_NoDup {A} (groups_map : list (string * list A)) r members :
  NoDup (concat (Dict.values groups_map)) -> (r, members) ∈ groups_map -> NoDup members.
Proof.
  unfold Dict.values. induction groups_map as [|e gm IH]; intros Hnd H.
  - now apply elem_of_nil in H.
  - cbn [map concat] in Hnd. apply NoDup_app in Hnd as (H1 & _ & H2).
    apply elem_of_cons in H as [<-|H]; auto.
Qed.

Lemma flat_map_group_ids pair_sim : forall entries : list (string * list string),
  (forall r members, (r, members) ∈ entries -> r ∈ members /\ NoDup members) ->
  flat_map group_ids (map (fun e => make_group pair_sim e.1 e.2) entries)
  ≡ₚ concat (Dict.values entries).
Proof.
  unfold Dict.values. induction entries as [|[r members] es IH]; intros H; [reflexivity|].
  cbn [map flat_map concat fst snd].
  destruct (H r members) as [Hin Hnd]; [apply elem_of_cons; now left|].
  rewrite (group_members_of_entry pair_sim r members Hin Hnd).
  rewrite IH; [reflexivity|].
  intros r' ms' H'. apply H. apply elem_of_cons. now right.
Qed.

(** The groups come from entries whose lists are disjoint, hold ids of the
    input only, and hold their own key. *)
Lemma groups_of_entries thr contents :
  exists (pair_sim : gmap (string * string) float)
         (entries : list (string * list string)),
    find_duplicates thr contents
    = Some (map (fun e => make_group pair_sim e.1 e.2) entries)
    /\ NoDup (concat (Dict.values entries))
    /\ (forall r members, (r, members) ∈ entries ->
          r ∈ members /\ NoDup members /\ (2 <= length members)%nat)
    /\ (forall x, x ∈ concat (Dict.values entries) ->
          x ∈ map ScrapedContent.resource_id contents).
Proof.
  destruct (le_lt_dec 2 (length contents)) as [Hlen|Hlen].
  2: { exists ∅, []. split; [now apply find_duplicates_few|].
       split_and!; [apply NoDup_nil_2 | intros r ms H | intros x H];
         now apply elem_of_nil in H. }
  destruct (groups_map_facts thr contents Hlen)
    as (pair_sim & gm & Hrun & Hkeys & Hperm & Hself & _).
  assert (Hnd : NoDup (concat (Dict.values gm))).
  { rewrite Hperm. apply tri_map_keys_NoDup, NoDup_nil_2. }
  exists pair_sim, (filter (fun g => (2 <=? length g.2)%nat) gm).
  split; [exact Hrun|]. split_and!.
  - eapply sublist_NoDup; [exact Hnd | apply concat_filter_sublist].
  - intros r members H. apply list_elem_of_filter in H as [Hlen2 H].
    split_and!; [now apply (Hself r) | now apply (concat_values_NoDup gm r) |].
    now apply Nat.leb_le, Is_true_true.
  - intros x Hx.
    assert (Hcat : x ∈ concat (Dict.values gm)).
    { eapply elem_of_sublist; [exact Hx | apply concat_filter_sublist]. }
    rewrite Hperm in Hcat. apply tri_map_keys in Hcat as [Hcat|Hcat]; [|exact Hcat].
    now apply elem_of_nil in Hcat.
Qed.

Lemma group_entry pair_sim (entries : list (string * list string)) g :
  g ∈ map (fun e => make_group pair_sim e.1 e.2) entries ->
  exists r members,
    (r, members) ∈ entries
    /\ DuplicateGroup.canonical_id g = r
    /\ DuplicateGroup.duplicate_ids g = filter (fun m => m <> r) members.
Proof.
  intros H. apply list_elem_of_In, in_map_iff in H as ([r members] & <- & H).
  apply list_elem_of_In in H. exists r, members. cbn [fst snd].
  destruct (make_group_members pair_sim r members) as [-> ->]. auto.
Qed.

(** The groups are disjoint sets of ids of the input: over all groups no
    id occurs twice, as canonical or as duplicate; every group has a
    duplicate; every id is the id of a document of the list. *)
Theorem duplicate_groups_disjoint thr contents :
  exists groups,
    find_duplicates thr contents = Some groups
    /\ NoDup (flat_map group_ids groups)
    /\ (forall g, g ∈ groups -> DuplicateGroup.duplicate_ids g <> [])
    /\ (forall g x, g ∈ groups -> x ∈ group_ids g ->
          x ∈ map ScrapedContent.resource_id contents).
Proof.
  destruct (groups_of_entries thr contents) as (pair_sim & es & Hrun & Hnd & Hes & Hin).
  eexists. split; [exact Hrun|]. split_and!.
  - rewrite flat_map_group_ids; [exact Hnd|].
    intros r ms H. destruct (Hes r ms H) as (H1 & H2 & _). auto.
  - intros g Hg. destruct (group_entry _ _ _ Hg) as (r & ms & He & _ & ->).
    destruct (Hes r ms He) as (H1 & H2 & H3).
    pose proof (canonical_and_duplicates r ms H1 H2) as Hp.
    apply Permutation_length in Hp. cbn [length] in Hp.
    intros E. rewrite E in Hp. cbn [length] in Hp. lia.
  - intros g x Hg Hx. destruct (group_entry _ _ _ Hg) as (r & ms & He & Hc & Hd).
    destruct (Hes r ms He) as (H1 & H2 & H3).
    apply Hin. apply (concat_values_elem es r ms x He).
    unfold group_ids in Hx. rewrite Hc, Hd in Hx.
    apply elem_of_cons in Hx as [->|Hx]; [exact H1|].
    now apply list_elem_of_filter in Hx as [_ Hx].
Qed.

(** The docstring's rule for the canonical member: in a list with one
    document per id, the canonical document of a group has at least as
    many headings as every duplicate of the group. *)
Theorem canonical_has_most_headings thr contents :
  NoDup (map ScrapedContent.resource_id contents) ->
  exists groups,
    find_duplicates thr contents = Some groups
    /\ forall g C D, g ∈ groups -> C ∈ contents -> D ∈ contents ->
         ScrapedContent.resource_id C = DuplicateGroup.canonical_id g ->
         ScrapedContent.resource_id D ∈ DuplicateGroup.duplicate_ids g ->
         (length (ScrapedContent.headings D) <= length (ScrapedContent.headings C))%nat.
Proof.
  intros Hids.
  destruct (le_lt_dec 2 (length contents)) as [Hlen|Hlen].
  2: { exists []. split; [now apply find_duplicates_few|].
       intros g C D Hg. now apply elem_of_nil in Hg. }
  destruct (groups_map_facts thr contents Hlen)
    as (pair_sim & gm & Hrun & _ & _ & _ & Hrel).
  eexists. split; [exact Hrun|].
  intros g C D Hg HC HD Hcan Hdup.
  destruct (group_of_entry _ _ _ Hg) as (r & ms & Hin & _ & Hc & Hd).
  rewrite Hd in Hdup. apply list_elem_of_filter in Hdup as [_ Hdup].
  pose proof (Hrel (fewer_headings (heading_counts_of contents ∅))) as H.
  unfold fewer_headings in H.
  specialize (H ltac:(intros; lia) ltac:(intros; lia) ltac:(intros; lia)
                r ms _ Hin Hdup).
  rewrite <- Hc, <- Hcan in H.
  now rewrite !heading_counts_lookup in H by assumption.
Qed.

Lemma canonical_has_most_headings_witness :
  exists groups,
    find_duplicates 0.85 [example_A; example_B; example_C] = Some groups
    /\ forall g C D, g ∈ groups ->
         C ∈ [example_A; example_B; example_C] ->
         D ∈ [example_A; example_B; example_C] ->
         ScrapedContent.resource_id C = DuplicateGroup.canonical_id g ->
         ScrapedContent.resource_id D ∈ DuplicateGroup.duplicate_ids g ->
         (length (ScrapedContent.headings D) <= length (ScrapedContent.headings C))%nat.
Proof.
  apply (canonical_has_most_headings 0.85 [example_A; example_B; example_C]).
  apply (bool_decide_unpack _). vm_compute. reflexivity.
Defined.

(** Every duplicate of a group is tied to the canonical id by a chain of
    pairs of ids whose similarity reaches the threshold. *)
Theorem group_members_connected thr contents :
  exists groups,
    find_duplicates thr contents = Some groups
    /\ forall g d, g ∈ groups -> d ∈ DuplicateGroup.duplicate_ids g ->
         rtsc (alike_ids thr (tri_map_of contents [])) d (DuplicateGroup.canonical_id g).
Proof.
  destruct (le_lt_dec 2 (length contents)) as [Hlen|Hlen].
  2: { exists []. split; [now apply find_duplicates_few|].
       intros g d Hg. now apply elem_of_nil in Hg. }
  destruct (groups_map_facts thr contents Hlen)
    as (pair_sim & gm & Hrun & _ & _ & _ & Hrel).
  eexists. split; [exact Hrun|].
  intros g d Hg Hd.
  destruct (group_of_entry _ _ _ Hg) as (r & ms & Hin & _ & -> & Hdup).
  rewrite Hdup in Hd. apply list_elem_of_filter in Hd as [_ Hd].
  set (R := rtsc (alike_ids thr (tri_map_of contents []))).
  assert (Hrefl : forall x, R x x) by (intros x; reflexivity).
  assert (Htrans : forall x y z, R x y -> R y z -> R x z)
    by (intros x y z H1 H2; now transitivity y).
  refine (Hrel R Hrefl Htrans _ r ms d Hin Hd).
  intros x y ra rb Hxy Hx Hy.
  assert (H : R rb ra).
  { apply (Htrans _ y); [now symmetry|].
    apply (Htrans _ x); [now apply rtsc_rl | exact Hx]. }
  split; intros _; [exact H | now symmetry].
Qed.

End GroupClaims.

Section Ungrouped.
Import ContentDeduplicator TextProcessing.

(** A chain that leaves [x] has a first step that leaves [x]. *)
Lemma chain_first_step (R : relation string) x w :
  rtc R x w -> x <> w -> exists y, y <> x /\ R x y.
Proof.
  induction 1 as [x | x y z Hxy _ IH]; intros Hne; [congruence|].
  destruct (decide (y = x)) as [->|Hxy']; [now apply IH | eauto].
Qed.

(** A document whose similarity with every other document of the list is
    below the threshold is in no group, neither as canonical nor as
    duplicate (one document per id). *)
Theorem dissimilar_document_ungrouped thr contents C :
  NoDup (map ScrapedContent.resource_id contents) ->
  C ∈ contents ->
  (forall D, D ∈ contents ->
     ScrapedContent.resource_id D <> ScrapedContent.resource_id C ->
     (thr <=? doc_similarity C D)%float = false) ->
  exists groups,
    find_duplicates thr contents = Some groups
    /\ forall g, g ∈ groups -> ScrapedContent.resource_id C ∉ group_ids g.
Proof.
  intros Hids HC Hlow.
  destruct (le_lt_dec 2 (length contents)) as [Hlen|Hlen].
  2: { exists []. split; [now apply find_duplicates_few|].
       intros g Hg. now apply elem_of_nil in Hg. }
  destruct (groups_map_facts thr contents Hlen)
    as (pair_sim & gm & Hrun & Hkeys & Hperm & Hself & Hrel).
  eexists. split; [exact Hrun|].
  intros g Hg Hx.
  set (x := ScrapedContent.resource_id C) in *.
  set (R := rtsc (alike_ids thr (tri_map_of contents []))).
  assert (Hrefl : forall a, R a a) by (intros a; reflexivity).
  assert (Htrans : forall a b c, R a b -> R b c -> R a c)
    by (intros a b c H1 H2; now transitivity b).
  assert (Hnew : forall a b ra rb,
    alike_ids thr (tri_map_of contents []) a b -> R a ra -> R b rb ->
    ((heading_count (heading_counts_of contents ∅) rb
      <= heading_count (heading_counts_of contents ∅) ra)%nat -> R rb ra)
    /\ ((heading_count (heading_counts_of contents ∅) ra
         < heading_count (heading_counts_of contents ∅) rb)%nat -> R ra rb)).
  { intros a b ra rb Hab Ha Hb.
    assert (H : R rb ra).
    { apply (Htrans _ b); [now symmetry|].
      apply (Htrans _ a); [now apply rtsc_rl | exact Ha]. }
    split; intros _; [exact H | now symmetry]. }
  destruct (group_of_entry _ _ _ Hg) as (r & ms & Hin & Hlen2 & Hc & Hd).
  assert (Hnd : NoDup ms).
  { apply (concat_values_NoDup gm r); [|exact Hin].
    rewrite Hperm. apply tri_map_keys_NoDup, NoDup_nil_2. }
  pose proof (canonical_and_duplicates r ms (Hself r ms Hin) Hnd) as Hp.
  (* another member [w] of the group, tied to [x] by a chain *)
  assert (Hw : exists w, w <> x /\ R x w).
  { unfold group_ids in Hx. rewrite Hc, Hd in Hx.
    apply elem_of_cons in Hx as [Hx|Hx].
    - destruct (filter (fun m => m <> r) ms) as [|d ds] eqn:E.
      + apply Permutation_length in Hp. cbn [length] in Hp. lia.
      + assert (Hdm : d ∈ filter (fun m => m <> r) ms)
          by (rewrite E; apply elem_of_cons; now left).
        apply list_elem_of_filter in Hdm as [Hdr Hdm].
        exists d. split; [congruence|]. rewrite Hx. symmetry.
        apply (Hrel R Hrefl Htrans Hnew r ms d Hin Hdm).
    - apply list_elem_of_filter in Hx as [Hxr Hxm].
      exists r. split; [congruence|].
      apply (Hrel R Hrefl Htrans Hnew r ms x Hin Hxm). }
  destruct Hw as (w & Hwx & Hchain).
  destruct (chain_first_step _ x w Hchain ltac:(congruence)) as (y & Hyx & Hstep).
  assert (Hsim : forall a b ta tb,
    Dict.get a (tri_map_of contents []) = Some ta ->
    Dict.get b (tri_map_of contents []) = Some tb ->
    (a = x /\ b = y) \/ (a = y /\ b = x) ->
    (thr <=? jaccard ta tb)%float = true -> False).
  { intros a b ta tb Ha Hb Hab Hle.
    assert (Hy : exists D, D ∈ contents /\ ScrapedContent.resource_id D = y).
    { assert (Hk : y ∈ Dict.keys (tri_map_of contents [])).
      { destruct Hab as [[_ ->]|[-> _]].
        - apply list_elem_of_fmap. exists (y, tb).
          split; [reflexivity | now apply dict_get_elem].
        - apply list_elem_of_fmap. exists (y, ta).
          split; [reflexivity | now apply dict_get_elem]. }
      apply tri_map_keys in Hk as [Hk|Hk]; [now apply elem_of_nil in Hk|].
      apply list_elem_of_In, in_map_iff in Hk as (D & HD & Hin').
      exists D. split; [now apply list_elem_of_In | exact HD]. }
    destruct Hy as (D & HD & Hy).
    pose proof (tri_map_lookup contents C [] Hids HC) as HtC.
    pose proof (tri_map_lookup contents D [] Hids HD) as HtD.
    fold x in HtC. rewrite Hy in HtD.
    specialize (Hlow D HD ltac:(fold x; congruence)).
    unfold doc_similarity in Hlow.
    destruct Hab as [[-> ->]|[-> ->]].
    - assert (ta = doc_trigrams C) by congruence.
      assert (tb = doc_trigrams D) by congruence. subst. congruence.
    - assert (ta = doc_trigrams D) by congruence.
      assert (tb = doc_trigrams C) by congruence. subst.
      rewrite jaccard_comm in Hle. congruence. }
  destruct Hstep as [(ta & tb & Ha & Hb & Hle)|(ta & tb & Ha & Hb & Hle)].
  - apply (Hsim x y ta tb Ha Hb); auto.
  - apply (Hsim y x ta tb Ha Hb); auto.
Qed.

Lemma dissimilar_document_ungrouped_witness :
  exists groups,
    find_duplicates 0.85 [example_A; example_B; example_C] = Some groups
    /\ forall g, g ∈ groups -> "c"%string ∉ group_ids g.
Proof.
  apply (dissimilar_document_ungrouped 0.85 [example_A; example_B; example_C] example_C).
  - apply (bool_decide_unpack _). vm_compute. reflexivity.
  - do 2 (apply elem_of_cons; right). apply elem_of_cons. now left.
  - intros D HD Hne.
    apply elem_of_cons in HD as [->|HD]; [vm_compute; reflexivity|].
    apply elem_of_cons in HD as [->|HD]; [vm_compute; reflexivity|].
    apply elem_of_cons in HD as [->|HD]; [now destruct Hne|].
    now apply elem_of_nil in HD.
Defined.

End Ungrouped.
(** ** The ingestion pipeline: the duplicates it flags *)

Section PipelineFlags.
Import ContentDeduplicator IngestionPipeline.

Lemma flag_ids_spec : forall dup_ids acc,
  flag_ids dup_ids acc
  = (list_to_set dup_ids ∪ acc.1, acc.2 + Z.of_nat (length dup_ids)).
Proof.
  induction dup_ids as [|d ds IH]; intros [flagged n].
  - cbn [flag_ids list_to_set length fst snd]. f_equal; [|lia].
    now rewrite (left_id_L ∅ (∪)).
  - cbn [flag_ids]. rewrite IH. cbn [list_to_set length fst snd].
    f_equal; [|lia]. apply set_eq. intros x.
    rewrite !elem_of_union, elem_of_singleton. tauto.
Qed.

Lemma flag_groups_spec : forall groups acc,
  flag_groups groups acc
  = (list_to_set (flat_map DuplicateGroup.duplicate_ids groups) ∪ acc.1,
     acc.2 + Z.of_nat (length (flat_map DuplicateGroup.duplicate_ids groups))).
Proof.
  induction groups as [|g gs IH]; intros [flagged n].
  - cbn [flag_groups flat_map list_to_set length fst snd]. f_equal; [|lia].
    now rewrite (left_id_L ∅ (∪)).
  - cbn [flag_groups]. rewrite IH, flag_ids_spec. cbn [flat_map fst snd].
    rewrite length_app. f_equal; [|lia]. apply set_eq. intros x.
    rewrite !elem_of_union, !elem_of_list_to_set, elem_of_app. tauto.
Qed.

Lemma duplicates_of_groups : forall groups,
  NoDup (flat_map group_ids groups) ->
  NoDup (flat_map DuplicateGroup.duplicate_ids groups)
  /\ flat_map DuplicateGroup.duplicate_ids groups ⊆ flat_map group_ids groups
  /\ (forall g, g ∈ groups ->
        DuplicateGroup.canonical_id g
          ∉ flat_map DuplicateGroup.duplicate_ids groups).
Proof.
  induction groups as [|g gs IH]; intros Hnd.
  - split_and!; [constructor | done | intros g H; now apply elem_of_nil in H].
  - cbn [flat_map] in *. unfold group_ids in Hnd at 1. cbn [app] in Hnd.
    apply NoDup_cons in Hnd as [Hc Hnd].
    pose proof Hnd as Hnd0.
    apply NoDup_app in Hnd as (Hd & Hdis & Hrest).
    destruct (IH Hrest) as (H1 & H2 & H3).
    split_and!.
    + apply NoDup_app. split_and!; auto. intros x Hx Hx'. apply (Hdis x Hx). now apply H2.
    + intros x Hx. apply elem_of_app in Hx as [Hx|Hx].
      * unfold group_ids at 1. cbn [app]. apply elem_of_cons. right.
        apply elem_of_app. now left.
      * unfold group_ids at 1. cbn [app]. apply elem_of_cons. right.
        apply elem_of_app. right. now apply H2.
    + intros g' Hg'. apply elem_of_cons in Hg' as [->|Hg'].
      * intros Hx. apply Hc. apply elem_of_app in Hx as [Hx|Hx];
          apply elem_of_app; [now left | right; now apply H2].
      * intros Hx. apply elem_of_app in Hx as [Hx|Hx]; [|now apply (H3 g' Hg')].
        apply (Hdis _ Hx).
        apply list_elem_of_In, in_flat_map. exists g'.
        split; [now apply list_elem_of_In|]. now left.
Qed.

Lemma group_ids_length : forall groups,
  length (flat_map group_ids groups)
  = (length groups + length (flat_map DuplicateGroup.duplicate_ids groups))%nat.
Proof.
  induction groups as [|g gs IH]; [reflexivity|].
  cbn [flat_map length]. rewrite !length_app, IH. unfold group_ids. cbn [length]. lia.
Qed.

(** Stage 2 of a run flags the duplicates of every group and nothing else:
    no canonical document is flagged, [duplicates_flagged] is the number of
    the flagged ids, and at least one document of every group is left. *)
Theorem flagged_are_duplicates threshold contents :
  exists groups flagged n,
    find_duplicates threshold contents = Some groups
    /\ flag_duplicates threshold contents = Some (flagged, n)
    /\ n = Z.of_nat (size flagged)
    /\ (forall x, x ∈ flagged <->
          exists g, g ∈ groups /\ x ∈ DuplicateGroup.duplicate_ids g)
    /\ (forall g, g ∈ groups -> DuplicateGroup.canonical_id g ∉ flagged)
    /\ n + Z.of_nat (length groups) <= Z.of_nat (length contents).
Proof.
  destruct (groups_of_entries threshold contents)
    as (pair_sim & es & Hrun & Hnd & Hes & Hin).
  set (groups := map (fun e => make_group pair_sim e.1 e.2) es) in *.
  assert (Hperm : flat_map group_ids groups ≡ₚ concat (Dict.values es)).
  { apply flat_map_group_ids. intros r ms H. destruct (Hes r ms H) as (H1 & H2 & _). auto. }
  assert (Hids : NoDup (flat_map group_ids groups)) by now rewrite Hperm.
  destruct (duplicates_of_groups groups Hids) as (Hdups & Hsub & Hcan).
  exists groups, (list_to_set (flat_map DuplicateGroup.duplicate_ids groups)),
         (Z.of_nat (length (flat_map DuplicateGroup.duplicate_ids groups))).
  split; [exact Hrun|]. split_and!.
  - unfold flag_duplicates. rewrite Hrun. cbn [mbind option_bind].
    rewrite flag_groups_spec. cbn [fst snd]. f_equal. f_equal.
    now rewrite (right_id_L ∅ (∪)).
  - now rewrite size_list_to_set.
  - intros x. rewrite elem_of_list_to_set, list_elem_of_In, in_flat_map.
    split; intros (g & Hg & Hx); exists g; split;
      first [now apply list_elem_of_In | assumption].
  - intros g Hg. rewrite elem_of_list_to_set. now apply Hcan.
  - assert (Hle : (length (flat_map group_ids groups) <= length contents)%nat).
    { rewrite <- (length_map ScrapedContent.resource_id contents).
      apply submseteq_length, NoDup_submseteq; [exact Hids|].
      intros x Hx. apply Hin. now rewrite <- Hperm. }
    rewrite group_ids_length in Hle. lia.
Qed.

End PipelineFlags.

(** ** Text normalisation *)

Section NormaliseFacts.
Import Py TextProcessing.

Lemma az09_char (c : ascii) :
  is_az09 c = true ->
  isspace c = false /\ lower_char c = c /\ Ascii.eqb c " " = false.
Proof.
  destruct c as [[] [] [] [] [] [] [] []]; vm_compute; intros H;
    first [discriminate H | repeat split].
Qed.

Lemma space_char :
  isspace " " = true /\ lower_char " " = " "%char /\ is_az09 " " = false.
Proof. vm_compute. repeat split. Qed.

Lemma blank_other_char (c : ascii) :
  is_az09 (blank_other c) || isspace (blank_other c) = true.
Proof.
  unfold blank_other. destruct (is_az09 c) eqn:E1; cbn [orb]; [now rewrite E1|].
  destruct (isspace c) eqn:E2; [now rewrite E1, E2|]. reflexivity.
Qed.

(** After [collapse_ws] a text of letters, digits and white space is tidy. *)
Lemma collapse_ws_tidy : forall s b,
  tidy b (collapse_ws b (map_chars blank_other s)) = true.
Proof.
  induction s as [|c s IH]; intros b; [reflexivity|].
  cbn [map_chars collapse_ws].
  pose proof (blank_other_char c) as Hc.
  destruct (isspace (blank_other c)) eqn:Es.
  - destruct b; [apply IH|]. cbn [tidy]. cbn [Ascii.eqb Bool.eqb negb andb]. apply IH.
  - rewrite orb_false_r in Hc. destruct (az09_char _ Hc) as (_ & _ & Hsp).
    cbn [tidy]. rewrite Hsp, Hc. cbn [andb]. apply IH.
Qed.

Lemma tidy_weaken s : tidy true s = true -> tidy false s = true.
Proof.
  destruct s as [|c s]; [reflexivity|]. cbn [tidy].
  destruct (Ascii.eqb c " "); [discriminate | auto].
Qed.

Lemma lstrip_tidy s : tidy false s = true -> tidy true (lstrip_by isspace s) = true.
Proof.
  destruct s as [|c s]; [reflexivity|]. cbn [tidy lstrip_by].
  destruct (Ascii.eqb c " ") eqn:E.
  - apply Ascii.eqb_eq in E. subst c. cbn [negb andb]. intros H.
    rewrite (proj1 space_char).
    destruct s as [|d s]; [reflexivity|]. cbn [tidy lstrip_by] in *.
    destruct (Ascii.eqb d " "); [discriminate|].
    apply andb_true_iff in H as [Hd H]. destruct (az09_char _ Hd) as (-> & _ & _).
    cbn [tidy]. destruct (Ascii.eqb d " ") eqn:E'; [|now rewrite Hd, H].
    apply Ascii.eqb_eq in E'. subst d. now rewrite (proj2 (proj2 space_char)) in Hd.
  - intros H. apply andb_true_iff in H as [Hc H].
    destruct (az09_char _ Hc) as (-> & _ & _). cbn [tidy]. now rewrite E, Hc, H.
Qed.

Lemma rstrip_tidy : forall s b,
  tidy b s = true ->
  tidy b (rstrip_by isspace s) = true
  /\ no_trailing_space (rstrip_by isspace s) = true.
Proof.
  induction s as [|c s IH]; intros b H; [split; reflexivity|].
  cbn [tidy] in H. cbn [rstrip_by].
  destruct (Ascii.eqb c " ") eqn:E.
  - apply Ascii.eqb_eq in E. subst c. apply andb_true_iff in H as [Hb H].
    destruct (IH true H) as [H1 H2].
    destruct (rstrip_by isspace s) as [|d r] eqn:Er.
    + rewrite (proj1 space_char). split; reflexivity.
    + split.
      * change (negb b && tidy true (String d r) = true). now rewrite Hb, H1.
      * exact H2.
  - apply andb_true_iff in H as [Hc H].
    destruct (IH false H) as [H1 H2].
    destruct (az09_char _ Hc) as (Hs & _ & _).
    destruct (rstrip_by isspace s) as [|d r] eqn:Er.
    + rewrite Hs. split.
      * cbn [tidy]. now rewrite E, Hc.
      * cbn [no_trailing_space]. now rewrite E.
    + split.
      * change ((if Ascii.eqb c " " then negb b && tidy true (String d r)
                 else is_az09 c && tidy false (String d r)) = true).
        now rewrite E, Hc, H1.
      * exact H2.
Qed.

Lemma normalise_normal text : normal (normalise text) = true.
Proof.
  unfold normal, normalise, strip.
  pose proof (collapse_ws_tidy (lower text) false) as H.
  apply lstrip_tidy in H. destruct (rstrip_tidy _ true H) as [-> ->]. reflexivity.
Qed.

(** A normal text is a fixed point of every step of [normalise]. *)
Lemma tidy_lower : forall s b, tidy b s = true -> lower s = s.
Proof.
  induction s as [|c s IH]; intros b H; [reflexivity|].
  cbn [tidy] in H. cbn [lower].
  destruct (Ascii.eqb c " ") eqn:E.
  - apply Ascii.eqb_eq in E. subst c. apply andb_true_iff in H as [_ H].
    rewrite (proj1 (proj2 space_char)). now rewrite (IH true H).
  - apply andb_true_iff in H as [Hc H]. destruct (az09_char _ Hc) as (_ & -> & _).
    now rewrite (IH false H).
Qed.

Lemma tidy_blank_other : forall s b, tidy b s = true -> map_chars blank_other s = s.
Proof.
  induction s as [|c s IH]; intros b H; [reflexivity|].
  cbn [tidy] in H. cbn [map_chars]. unfold blank_other at 1.
  destruct (Ascii.eqb c " ") eqn:E.
  - apply Ascii.eqb_eq in E. subst c. apply andb_true_iff in H as [_ H].
    rewrite (proj1 space_char), orb_true_r. now rewrite (IH true H).
  - apply andb_true_iff in H as [Hc H]. rewrite Hc. cbn [orb].
    now rewrite (IH false H).
Qed.

Lemma tidy_collapse_ws : forall s b, tidy b s = true -> collapse_ws b s = s.
Proof.
  induction s as [|c s IH]; intros b H; [reflexivity|].
  cbn [tidy] in H. cbn [collapse_ws].
  destruct (Ascii.eqb c " ") eqn:E.
  - apply Ascii.eqb_eq in E. subst c. apply andb_true_iff in H as [Hb H].
    rewrite (proj1 space_char). destruct b; [discriminate|]. now rewrite (IH true H).
  - apply andb_true_iff in H as [Hc H]. destruct (az09_char _ Hc) as (-> & _ & _).
    now rewrite (IH false H).
Qed.

Lemma tidy_lstrip s : tidy true s = true -> lstrip_by isspace s = s.
Proof.
  destruct s as [|c s]; [reflexivity|]. cbn [tidy lstrip_by].
  destruct (Ascii.eqb c " "); [discriminate|].
  intros H. apply andb_true_iff in H as [Hc _].
  now destruct (az09_char _ Hc) as (-> & _ & _).
Qed.

Lemma tidy_rstrip : forall s b,
  tidy b s = true -> no_trailing_space s = true -> rstrip_by isspace s = s.
Proof.
  induction s as [|c s IH]; intros b H Hn; [reflexivity|].
  cbn [tidy] in H. cbn [rstrip_by].
  assert (Hs : exists b', tidy b' s = true).
  { destruct (Ascii.eqb c " "); apply andb_true_iff in H as [_ H]; eauto. }
  destruct Hs as [b' Hs].
  destruct s as [|d s].
  - cbn [rstrip_by no_trailing_space] in *.
    destruct (Ascii.eqb c " ") eqn:E; [discriminate|].
    apply andb_true_iff in H as [Hc _].
    now destruct (az09_char _ Hc) as (-> & _ & _).
  - rewrite (IH b' Hs Hn). reflexivity.
Qed.

Lemma normal_fixed s : normal s = true -> normalise s = s.
Proof.
  unfold normal. intros H. apply andb_true_iff in H as [Ht Hn].
  unfold normalise, strip.
  rewrite (tidy_lower s true Ht), (tidy_blank_other s true Ht).
  rewrite (tidy_collapse_ws s false (tidy_weaken s Ht)).
  rewrite (tidy_lstrip s Ht). apply (tidy_rstrip s true Ht Hn).
Qed.

(** [normalise] is idempotent: its result holds words of a-z and 0-9 with
    one space between them, and such a text is left as it is.  So the
    trigrams and the content hash of a text are those of its normal form. *)
Theorem normalise_idempotent text :
  normal (normalise text) = true
  /\ normalise (normalise text) = normalise text
  /\ trigrams (normalise text) = trigrams text
  /\ content_hash (normalise text) = content_hash text.
Proof.
  pose proof (normal_fixed _ (normalise_normal text)) as H.
  split_and!; [apply normalise_normal | exact H | |].
  - unfold trigrams. now rewrite H.
  - unfold content_hash. now rewrite H.
Qed.

End NormaliseFacts.

(** ** The catalog: what an upsert leaves alone *)

Section CatalogFrame.
Import Catalog.
Local Open Scope float_scope.

(** [upsert] never removes an entry and never touches the entry, the stored
    record or the object of another id; the number of catalogued resources
    grows by one when it returns [True] and stays when it returns [False]. *)
Theorem upsert_keeps_others st l r min_score b st' :
  objects st !! l = Some r ->
  upsert l min_score st = Some (b, st') ->
  (forall k, k <> Resource.id r ->
     _cache (_ensure_loaded st') !! k = _cache (_ensure_loaded st) !! k
     /\ Dict.get k (repo st') = Dict.get k (repo st))
  /\ (forall l', l' <> l ->
        objects (_ensure_loaded st') !! l' = objects (_ensure_loaded st) !! l')
  /\ dom (_cache (_ensure_loaded st)) ⊆ dom (_cache (_ensure_loaded st'))
  /\ count st' = (if b then S (count st) else count st).
Proof.
  intros Hl Hup. unfold upsert in Hup. rewrite Hl in Hup.
  cbn [mbind option_bind] in Hup.
  destruct (Resource.quality_score r <? min_score).
  { injection Hup as <- <-. split_and!; auto. }
  unfold count.
  pose proof (ensure_loaded_repo st) as Hrepo.
  set (st1 := _ensure_loaded st) in *.
  destruct (_cache st1 !! Resource.id r) as [le|] eqn:Hk.
  - destruct (objects st1 !! le) as [existing|] eqn:He; [|discriminate].
    cbn [mbind option_bind] in Hup. injection Hup as <- <-.
    rewrite ensure_loaded_idem by reflexivity. cbn [_cache objects repo].
    rewrite Hrepo. split_and!.
    + intros k Hne. rewrite lookup_insert_ne by congruence.
      unfold save. cbn [Resource.id Resource.set_discovered_at
                        Resource.set_quality_score].
      now rewrite dict_get_set_ne by congruence.
    + intros l' Hne. now rewrite lookup_insert_ne by congruence.
    + rewrite dom_insert_L. apply union_subseteq_r.
    + rewrite map_size_insert_Some by eauto. reflexivity.
  - injection Hup as <- <-.
    rewrite ensure_loaded_idem by reflexivity. cbn [_cache objects repo].
    rewrite Hrepo. split_and!.
    + intros k Hne. rewrite lookup_insert_ne by congruence.
      unfold save. now rewrite dict_get_set_ne by congruence.
    + reflexivity.
    + rewrite dom_insert_L. apply union_subseteq_r.
    + rewrite map_size_insert_None by exact Hk. reflexivity.
Qed.

Lemma upsert_keeps_others_witness :
  exists b st',
    upsert 2%positive 0.3 example_state = Some (b, st')
    /\ (forall k, k <> Resource.id example_second ->
          _cache (_ensure_loaded st') !! k = _cache (_ensure_loaded example_state) !! k
          /\ Dict.get k (repo st') = Dict.get k (repo example_state))
    /\ (forall l', l' <> 2%positive ->
          objects (_ensure_loaded st') !! l'
          = objects (_ensure_loaded example_state) !! l')
    /\ dom (_cache (_ensure_loaded example_state)) ⊆ dom (_cache (_ensure_loaded st'))
    /\ count st' = (if b then S (count example_state) else count example_state).
Proof.
  eexists _, _. split; [vm_compute; reflexivity|].
  apply (upsert_keeps_others example_state 2%positive example_second 0.3).
  - reflexivity.
  - vm_compute. reflexivity.
Defined.

End CatalogFrame.
(** ** The catalog and its file stay in step *)

Section CatalogSync.
Import Catalog.
Local Open Scope float_scope.

Lemma post_init_id v : Resource.id v <> ""%string -> Resource.model_post_init v = v.
Proof.
  intros H. unfold Resource.model_post_init.
  destruct (String.eqb (Resource.id v) "") eqn:E; [|reflexivity].
  apply String.eqb_eq in E. congruence.
Qed.

(** What [load] leaves in the cache: the records read, each under its id;
    the other ids as before. *)
Lemma load_held : forall stored objs cache,
  (forall k l, cache !! k = Some l -> is_Some (objs !! l)) ->
  NoDup (map Resource.id stored) ->
  (forall v, v ∈ stored -> Resource.id v <> ""%string) ->
  (forall v, v ∈ stored ->
     (l ← (load stored objs cache).2 !! Resource.id v; (load stored objs cache).1 !! l)
     = Some v)
  /\ (forall k, k ∉ map Resource.id stored ->
        (l ← (load stored objs cache).2 !! k; (load stored objs cache).1 !! l)
        = (l ← cache !! k; objs !! l)).
Proof.
  induction stored as [|v rest IH]; intros objs cache Hlive Hnd Hid.
  - split; [intros v H; now apply elem_of_nil in H | reflexivity].
  - cbn [map] in Hnd. apply NoDup_cons in Hnd as [Hfresh Hnd].
    cbn [load]. rewrite (post_init_id v) by (apply Hid, elem_of_cons; now left).
    set (l := fresh (dom objs)).
    assert (Hl : objs !! l = None) by (apply not_elem_of_dom, is_fresh).
    destruct (IH (<[l := v]> objs) (<[Resource.id v := l]> cache)) as [H1 H2].
    { intros k l' Hk. apply lookup_insert_Some in Hk as [[_ <-]|[_ Hk]].
      - rewrite lookup_insert_eq. eauto.
      - destruct (Hlive k l' Hk) as [r Hr].
        rewrite lookup_insert_ne by congruence. eauto. }
    { exact Hnd. }
    { intros v' Hv'. apply Hid, elem_of_cons. now right. }
    split.
    + intros v' Hv'. apply elem_of_cons in Hv' as [->|Hv']; [|now apply H1].
      rewrite H2 by exact Hfresh. rewrite lookup_insert_eq. cbn [mbind option_bind].
      apply lookup_insert_eq.
    + intros k Hk. cbn [map] in Hk. apply not_elem_of_cons in Hk as [Hne Hk].
      rewrite H2 by exact Hk. rewrite lookup_insert_ne by congruence.
      destruct (cache !! k) as [lk|] eqn:Ek; [|reflexivity].
      cbn [mbind option_bind]. destruct (Hlive k lk Ek) as [r Hr].
      rewrite lookup_insert_ne by congruence. reflexivity.
Qed.

Lemma values_ids (file : list (string * Resource.t)) :
  well_keyed file ->
  map Resource.id (Dict.values file) = Dict.keys file
  /\ (forall v, v ∈ Dict.values file -> Resource.id v <> ""%string).
Proof.
  intros [_ Hk]. unfold Dict.values, Dict.keys. split.
  - induction file as [|[k v] file IH]; [reflexivity|].
    cbn [map fst snd]. rewrite IH.
    + destruct (Hk k v) as [-> _]; [apply elem_of_cons; now left | reflexivity].
    + intros k' v' H. apply Hk, elem_of_cons. now right.
  - intros v Hv. apply list_elem_of_In, in_map_iff in Hv as ([k v'] & <- & Hin).
    apply list_elem_of_In in Hin. cbn [snd].
    destruct (Hk k v' Hin) as [E Hne]. now rewrite E.
Qed.

(** A catalog that loads a well-keyed file holds what the file holds. *)
Lemma loaded_in_sync objs file :
  well_keyed file -> in_sync (_ensure_loaded (mk objs file ∅ false)).
Proof.
  intros Hwk k. unfold held, _ensure_loaded. cbn [_loaded repo objects].
  destruct (values_ids file Hwk) as [Hids Hne].
  destruct (load (Dict.values file) objs ∅) as [objs' cache'] eqn:E.
  cbn [_cache objects repo].
  destruct (load_held (Dict.values file) objs ∅) as [H1 H2].
  { intros k' l'. now rewrite lookup_empty. }
  { rewrite Hids. apply Hwk. }
  { exact Hne. }
  rewrite E in H1, H2. cbn [fst snd] in H1, H2.
  destruct (Dict.get k file) as [v|] eqn:Hg.
  - apply dict_get_elem in Hg. destruct Hwk as [_ Hk].
    destruct (Hk k v Hg) as [<- _]. apply H1.
    apply list_elem_of_fmap. exists (Resource.id v, v). auto.
  - rewrite H2; [now rewrite lookup_empty|].
    rewrite Hids. intros Hin. apply dict_get_keys in Hin as [v Hv]. congruence.
Qed.

Lemma ensure_loaded_in_sync st :
  well_keyed (repo st) -> (_loaded st = true -> in_sync st) ->
  in_sync (_ensure_loaded st).
Proof.
  intros Hwk Hs. destruct (_loaded st) eqn:E.
  - rewrite ensure_loaded_idem by exact E. auto.
  - unfold _ensure_loaded. rewrite E.
    pose proof (loaded_in_sync (objects st) (repo st) Hwk) as H.
    unfold _ensure_loaded in H. cbn [_loaded repo objects] in H.
    destruct (load _ _ _). intros k. specialize (H k).
    unfold held in *. cbn [_cache objects repo] in *. exact H.
Qed.

Lemma dict_set_elem {V} k (v : V) : forall d k' v',
  (k', v') ∈ Dict.set k v d -> (k', v') = (k, v) \/ (k', v') ∈ d.
Proof.
  induction d as [|[k0 v0] d IH]; intros k' v' H; cbn [Dict.set] in H.
  - apply list_elem_of_singleton in H. now left.
  - destruct (String.eqb k0 k) eqn:E.
    + apply String.eqb_eq in E. subst k0.
      apply elem_of_cons in H as [H|H]; [now left | right; apply elem_of_cons; now right].
    + apply elem_of_cons in H as [H|H]; [right; apply elem_of_cons; now left|].
      destruct (IH k' v' H) as [H'|H']; [now left | right; apply elem_of_cons; now right].
Qed.

Lemma save_well_keyed r file :
  Resource.id r <> ""%string -> well_keyed file -> well_keyed (save r file).
Proof.
  intros Hne [Hnd Hk]. split; [now apply dict_keys_set_NoDup|].
  intros k v H. apply dict_set_elem in H as [[= -> ->]|H]; auto.
Qed.

(** One upsert keeps the file well keyed and the catalog in step with it. *)
Lemma upsert_in_sync st l r min_score b st' :
  well_keyed (repo st) -> (_loaded st = true -> in_sync st) ->
  objects st !! l = Some r -> Resource.id r <> ""%string ->
  upsert l min_score st = Some (b, st') ->
  well_keyed (repo st') /\ (_loaded st' = true -> in_sync st')
  /\ (forall l' r', objects st !! l' = Some r' ->
        exists r'', objects st' !! l' = Some r'' /\ Resource.id r'' = Resource.id r').
Proof.
  intros Hwk Hs Hl Hid Hup. unfold upsert in Hup. rewrite Hl in Hup.
  cbn [mbind option_bind] in Hup.
  destruct (Resource.quality_score r <? min_score).
  { injection Hup as <- <-. split_and!; eauto. }
  pose proof (ensure_loaded_in_sync st Hwk Hs) as Hsync.
  pose proof (ensure_loaded_repo st) as Hrepo.
  pose proof (ensure_loaded_keeps_objects st) as Hkeep.
  set (st1 := _ensure_loaded st) in *.
  destruct (_cache st1 !! Resource.id r) as [le|] eqn:Hk.
  - destruct (objects st1 !! le) as [existing|] eqn:He; [|discriminate].
    cbn [mbind option_bind] in Hup. injection Hup as <- <-.
    cbn [repo _loaded objects]. rewrite Hrepo.
    set (r' := Resource.set_discovered_at _ _).
    assert (Hid' : Resource.id r' = Resource.id r) by reflexivity.
    split_and!.
    + apply save_well_keyed; [now rewrite Hid' | exact Hwk].
    + intros _ k. unfold held. cbn [_cache objects repo].
      destruct (decide (k = Resource.id r)) as [->|Hne].
      * rewrite lookup_insert_eq. cbn [mbind option_bind]. rewrite lookup_insert_eq.
        unfold save. rewrite Hid'. now rewrite dict_get_set_eq.
      * rewrite lookup_insert_ne by congruence.
        unfold save. rewrite Hid', dict_get_set_ne by congruence.
        rewrite <- Hrepo, <- (Hsync k). unfold held.
        destruct (_cache st1 !! k) as [lk|] eqn:Ek; [|reflexivity].
        cbn [mbind option_bind].
        destruct (decide (lk = l)) as [->|Hlk]; [|now rewrite lookup_insert_ne by congruence].
        exfalso. pose proof (Hsync k) as Hsk. unfold held in Hsk.
        rewrite Ek in Hsk. cbn [mbind option_bind] in Hsk.
        rewrite (Hkeep l r Hl) in Hsk. symmetry in Hsk.
        rewrite Hrepo in Hsk. apply dict_get_elem in Hsk.
        destruct Hwk as [_ Hwk]. destruct (Hwk k r Hsk) as [E _]. congruence.
    + intros l' r0 Hl'. destruct (decide (l' = l)) as [->|Hne].
      * rewrite lookup_insert_eq. exists r'. split; [reflexivity|]. congruence.
      * rewrite lookup_insert_ne by congruence. eauto.
  - injection Hup as <- <-. cbn [repo _loaded objects]. rewrite Hrepo.
    split_and!.
    + now apply save_well_keyed.
    + intros _ k. unfold held. cbn [_cache objects repo].
      destruct (decide (k = Resource.id r)) as [->|Hne].
      * rewrite lookup_insert_eq. cbn [mbind option_bind].
        rewrite (Hkeep l r Hl). unfold save. now rewrite dict_get_set_eq.
      * rewrite lookup_insert_ne by congruence.
        unfold save. rewrite dict_get_set_ne by congruence.
        rewrite <- Hrepo. apply (Hsync k).
    + intros l' r0 Hl'. eauto.
Qed.

Lemma upsert_all_in_sync min_score : forall ls st bs st',
  well_keyed (repo st) -> (_loaded st = true -> in_sync st) ->
  (forall l, l ∈ ls ->
     exists r, objects st !! l = Some r /\ Resource.id r <> ""%string) ->
  upsert_all ls min_score st = Some (bs, st') ->
  well_keyed (repo st') /\ (_loaded st' = true -> in_sync st').
Proof.
  induction ls as [|l ls IH]; intros st bs st' Hwk Hs Hls Hrun.
  - injection Hrun as <- <-. auto.
  - cbn [upsert_all] in Hrun.
    destruct (upsert l min_score st) as [[b st1]|] eqn:Hup; [|discriminate].
    cbn [mbind option_bind] in Hrun.
    destruct (upsert_all ls min_score st1) as [[bs' st2]|] eqn:Hrest; [|discriminate].
    cbn [mbind option_bind] in Hrun. injection Hrun as <- <-.
    destruct (Hls l) as (r & Hl & Hid); [apply elem_of_cons; now left|].
    destruct (upsert_in_sync st l r min_score b st1 Hwk Hs Hl Hid Hup)
      as (Hwk1 & Hs1 & Hobj).
    apply (IH st1 bs' st2 Hwk1 Hs1); [|exact Hrest].
    intros l' Hl'. destruct (Hls l') as (r' & Hr' & Hid'); [apply elem_of_cons; now right|].
    destruct (Hobj l' r' Hr') as (r'' & Hr'' & E). exists r''. split; [exact Hr''|congruence].
Qed.

(** After any run of upserts on a catalog in step with a well-keyed file,
    the file is well keyed, the catalog holds under every id the record
    the file holds, and so does a catalog opened anew on the file. *)
Theorem upserts_keep_file_in_step st ls min_score bs st' :
  well_keyed (repo st) -> (_loaded st = true -> in_sync st) ->
  (forall l, l ∈ ls ->
     exists r, objects st !! l = Some r /\ Resource.id r <> ""%string) ->
  upsert_all ls min_score st = Some (bs, st') ->
  well_keyed (repo st')
  /\ in_sync (_ensure_loaded st')
  /\ in_sync (reopened st')
  /\ (forall k, held (reopened st') k = held (_ensure_loaded st') k).
Proof.
  intros Hwk Hs Hls Hrun.
  destruct (upsert_all_in_sync min_score ls st bs st' Hwk Hs Hls Hrun) as [Hwk' Hs'].
  pose proof (ensure_loaded_in_sync st' Hwk' Hs') as H1.
  pose proof (loaded_in_sync (objects st') (repo st') Hwk') as H2.
  fold (reopened st') in H2.
  split_and!; auto.
  intros k. rewrite (H1 k), (H2 k). unfold reopened.
  now rewrite !ensure_loaded_repo.
Qed.

Lemma upserts_keep_file_in_step_witness :
  exists bs st',
    upsert_all [1; 2; 1]%positive 0.3 example_state = Some (bs, st')
    /\ well_keyed (repo st')
    /\ in_sync (_ensure_loaded st')
    /\ in_sync (reopened st')
    /\ (forall k, held (reopened st') k = held (_ensure_loaded st') k).
Proof.
  eexists _, _. split; [vm_compute; reflexivity|].
  eapply (upserts_keep_file_in_step example_state [1; 2; 1]%positive 0.3).
  - split; [apply NoDup_nil_2 | intros k v H; now apply elem_of_nil in H].
  - discriminate.
  - intros l Hl.
    assert (Hc : l = 1%positive \/ l = 2%positive).
    { apply elem_of_cons in Hl as [->|Hl]; [now left|].
      apply elem_of_cons in Hl as [->|Hl]; [now right|].
      apply elem_of_cons in Hl as [->|Hl]; [now left|].
      now apply elem_of_nil in Hl. }
    destruct Hc as [-> | ->].
    + exists example_first. split; [reflexivity | vm_compute; discriminate].
    + exists example_second. split; [reflexivity | vm_compute; discriminate].
  - vm_compute. reflexivity.
Defined.

End CatalogSync.

(** ** The discovery agent: unique results and the report *)

Section AgentReport.
Import DiscoveryAgent Catalog.
Local Open Scope Z_scope.

Lemma unique_by_url_spec : forall results seen,
  let out := unique_by_url seen results in
  NoDup (map result_url out)
  /\ (forall r, r ∈ out -> result_url r ∉ seen)
  /\ (forall r, r ∈ results -> result_url r ∈ seen \/ result_url r ∈ map result_url out)
  /\ out `sublist_of` results
  /\ (forall r, r ∈ out ->
        exists before after, results = before ++ r :: after
                             /\ result_url r ∉ map result_url before).
Proof.
  induction results as [|x rest IH]; intros seen; cbn [unique_by_url].
  - split_and!; try (intros r H; now apply elem_of_nil in H); constructor.
  - fold (result_url x).
    destruct (bool_decide (result_url x ∈ seen)) eqn:B.
    + apply bool_decide_eq_true_1 in B.
      destruct (IH seen) as (H1 & H2 & H3 & H4 & H5). split_and!; auto.
      * intros r Hr. apply elem_of_cons in Hr as [->|Hr]; auto.
      * now apply sublist_cons.
      * intros r Hr. destruct (H5 r Hr) as (before & after & -> & Hb).
        exists (x :: before), after. split; [reflexivity|].
        cbn [map]. apply not_elem_of_cons. split; [|exact Hb].
        intros E. apply (H2 r Hr). now rewrite E.
    + apply bool_decide_eq_false_1 in B.
      destruct (IH ({[ result_url x ]} ∪ seen)) as (H1 & H2 & H3 & H4 & H5).
      split_and!.
      * cbn [map]. apply NoDup_cons. split; [|exact H1].
        intros Hin. apply list_elem_of_In, in_map_iff in Hin as (r & E & Hr).
        apply list_elem_of_In in Hr. apply (H2 r Hr). rewrite E.
        apply elem_of_union. left. now apply elem_of_singleton.
      * intros r Hr. apply elem_of_cons in Hr as [->|Hr]; [exact B|].
        intros Hs. apply (H2 r Hr). apply elem_of_union. now right.
      * intros r Hr. cbn [map].
        apply elem_of_cons in Hr as [->|Hr]; [right; apply elem_of_cons; now left|].
        destruct (H3 r Hr) as [Hs|Hs].
        -- apply elem_of_union in Hs as [Hs|Hs]; [|now left].
           apply elem_of_singleton in Hs. right. apply elem_of_cons. now left.
        -- right. apply elem_of_cons. now right.
      * now apply sublist_skip.
      * intros r Hr. apply elem_of_cons in Hr as [->|Hr].
        -- exists [], rest. split; [reflexivity | apply not_elem_of_nil].
        -- destruct (H5 r Hr) as (before & after & -> & Hb).
           exists (x :: before), after. split; [reflexivity|].
           cbn [map]. apply not_elem_of_cons. split; [|exact Hb].
           intros E. apply (H2 r Hr). rewrite E.
           apply elem_of_union. left. now apply elem_of_singleton.
Qed.

(** The results the agent evaluates: no two have the same canonical URL,
    every URL met is represented, the order is that of the search, and
    each result kept is the first with its URL. *)
Theorem unique_by_url_first_occurrences results :
  NoDup (map result_url (unique_by_url ∅ results))
  /\ (forall r, r ∈ results ->
        result_url r ∈ map result_url (unique_by_url ∅ results))
  /\ unique_by_url ∅ results `sublist_of` results
  /\ (forall r, r ∈ unique_by_url ∅ results ->
        exists before after, results = before ++ r :: after
                             /\ result_url r ∉ map result_url before).
Proof.
  destruct (unique_by_url_spec results ∅) as (H1 & _ & H3 & H4 & H5).
  split_and!; auto.
  intros r Hr. destruct (H3 r Hr) as [H|H]; [now apply elem_of_empty in H | exact H].
Qed.

(** Allocating an object changes nothing in what the catalog counts. *)
Lemma load_dom stored : forall objs objs' (cache cache' : gmap string loc),
  dom cache = dom cache' ->
  dom (load stored objs cache).2 = dom (load stored objs' cache').2.
Proof.
  induction stored as [|v rest IH]; intros objs objs' cache cache' H; [exact H|].
  cbn [load]. apply IH. rewrite !dom_insert_L. now rewrite H.
Qed.

Lemma count_alloc st l r :
  count (mk (<[l := r]> (objects st)) (repo st) (_cache st) (_loaded st)) = count st.
Proof.
  unfold count, _ensure_loaded. cbn [_loaded repo objects _cache].
  destruct (_loaded st); [reflexivity|].
  destruct (load (Dict.values (repo st)) (<[l := r]> (objects st)) ∅)
    as [objs1 cache1] eqn:E1.
  destruct (load (Dict.values (repo st)) (objects st) ∅) as [objs2 cache2] eqn:E2.
  cbn [_cache]. rewrite <- !size_dom.
  pose proof (load_dom (Dict.values (repo st)) (<[l := r]> (objects st)) (objects st)
                ∅ ∅ eq_refl) as H.
  rewrite E1, E2 in H. cbn [snd] in H. now rewrite H.
Qed.

Lemma upsert_count st l min_score b st' :
  upsert l min_score st = Some (b, st') ->
  count st' = (if b then S (count st) else count st).
Proof.
  intros Hup. unfold upsert in Hup.
  destruct (objects st !! l) as [r|]; [|discriminate].
  cbn [mbind option_bind] in Hup.
  destruct (Resource.quality_score r <? min_score)%float.
  { now injection Hup as <- <-. }
  unfold count. set (st1 := _ensure_loaded st) in *.
  destruct (_cache st1 !! Resource.id r) as [le|] eqn:Hk.
  - destruct (objects st1 !! le) as [existing|]; [|discriminate].
    cbn [mbind option_bind] in Hup. injection Hup as <- <-.
    rewrite ensure_loaded_idem by reflexivity. cbn [_cache].
    rewrite map_size_insert_Some by eauto. reflexivity.
  - injection Hup as <- <-.
    rewrite ensure_loaded_idem by reflexivity. cbn [_cache].
    rewrite map_size_insert_None by exact Hk. reflexivity.
Qed.

Section Loop.
Variable settings : Settings.t.
Variable evaluate : datetime -> datetime -> SearchResult.t -> outcome Resource.t.
Variable clock : nat -> datetime.

(** The loop over the unique results counts every result once, and counts
    as new what the catalog grows by. *)
Lemma catalogue_accounts : forall unique_results i report st report' st',
  catalogue settings evaluate clock i unique_results report st
  = Some (Returned report', st') ->
  accounted report' = accounted report + Z.of_nat (length unique_results)
  /\ DiscoveryReport.raw_results report' = DiscoveryReport.raw_results report
  /\ DiscoveryReport.queries_executed report' = DiscoveryReport.queries_executed report
  /\ Z.of_nat (count st')
     = Z.of_nat (count st) + (DiscoveryReport.new_resources report'
                              - DiscoveryReport.new_resources report).
Proof.
  induction unique_results as [|result rest IH]; intros i report st report' st' H.
  - injection H as <- <-. unfold accounted. cbn [length]. split_and!; lia.
  - cbn [catalogue] in H.
    destruct (evaluate _ _ result) as [resource|[exc|exc]]; [| |discriminate].
    + set (l := fresh (dom (objects st))) in H.
      set (st0 := mk (<[l := resource]> (objects st)) (repo st) (_cache st) (_loaded st)) in H.
      destruct (upsert l (Settings.min_quality_score settings) st0)
        as [[is_new st1]|] eqn:Hup; [|discriminate].
      cbn [mbind option_bind] in H.
      destruct (objects st1 !! l) as [resource'|]; [|discriminate].
      cbn [mbind option_bind] in H.
      pose proof (upsert_count _ _ _ _ _ Hup) as Hcount.
      unfold st0 in Hcount. rewrite count_alloc in Hcount.
      destruct is_new;
        [|destruct (Settings.min_quality_score settings
                      <=? Resource.quality_score resource')%float];
        apply IH in H as (H1 & H2 & H3 & H4);
        unfold accounted in *; cbn [DiscoveryReport.new_resources
          DiscoveryReport.updated_resources DiscoveryReport.below_threshold
          DiscoveryReport.errors DiscoveryReport.raw_results
          DiscoveryReport.queries_executed length] in *;
        split_and!; lia.
    + apply IH in H as (H1 & H2 & H3 & H4).
      unfold accounted in *. cbn [DiscoveryReport.new_resources
          DiscoveryReport.updated_resources DiscoveryReport.below_threshold
          DiscoveryReport.errors DiscoveryReport.raw_results
          DiscoveryReport.queries_executed length] in *.
      rewrite length_app in H1. cbn [length] in H1. split_and!; lia.
Qed.

(** A run on a catalog whose references are live, in which no search call
    and no evaluation raises an exception outside [Exception], returns a
    report in which every unique result is counted once, as new, updated,
    below the threshold or failed, and the catalog has grown by the number
    reported as new. *)
Theorem run_report_accounts searchers domains max_results st :
  closed st ->
  (forall s q, s ∈ searchers -> uninterrupted (Searcher.search s q max_results)) ->
  (forall now created result, uninterrupted (evaluate now created result)) ->
  exists report st',
    run settings evaluate clock searchers domains max_results st
    = Some (Returned report, st')
    /\ accounted report = DiscoveryReport.raw_results report
    /\ Z.of_nat (count st') = Z.of_nat (count st) + DiscoveryReport.new_resources report.
Proof.
  intros Hc Hsearch Hev. unfold run.
  match goal with |- context [_build_github_queries TAXONOMY ?t] => set (target := t) end.
  destruct (github_queries_return target TAXONOMY taxonomy_has_keywords)
    as [github_queries ->].
  destruct (gather_fan_out searchers
              (filter (fun s => Searcher.name s = "github"%string) searchers)
              (_build_queries TAXONOMY target) github_queries max_results)
    as [nested ->].
  { exact Hsearch. }
  { intros s q Hs. apply Hsearch. now apply list_elem_of_filter in Hs as [_ Hs]. }
  set (unique := unique_by_url ∅ (concat nested)).
  set (report0 := DiscoveryReport.mk _ (Z.of_nat (length unique)) 0 0 0 []).
  destruct (catalogue_total settings evaluate clock Hev unique 0%nat report0 st Hc)
    as (report & st' & Hrun).
  rewrite Hrun. exists report, st'. split; [reflexivity|].
  apply catalogue_accounts in Hrun as (H1 & H2 & _ & H4).
  unfold accounted in *. unfold report0 in *.
  cbn [DiscoveryReport.new_resources DiscoveryReport.updated_resources
       DiscoveryReport.below_threshold DiscoveryReport.errors
       DiscoveryReport.raw_results length] in *.
  split; lia.
Qed.
End Loop.

Lemma run_report_accounts_witness :
  exists report st',
    run Settings.default (fun _ _ _ => Raised "unused") (fun _ => 0)
        [failing_searcher; silent_searcher] (Some [DEEP_LEARNING]) 10
        (mk ∅ [] ∅ false)
    = Some (Returned report, st')
    /\ accounted report = DiscoveryReport.raw_results report
    /\ Z.of_nat (count st')
       = Z.of_nat (count (mk ∅ [] ∅ false)) + DiscoveryReport.new_resources report.
Proof.
  apply (run_report_accounts Settings.default (fun _ _ _ => Raised "unused")
           (fun _ => 0) [failing_searcher; silent_searcher] (Some [DEEP_LEARNING]) 10
           (mk ∅ [] ∅ false)).
  - apply unloaded_closed. reflexivity.
  - intros s q Hs.
    apply elem_of_cons in Hs as [->|Hs]; [exact I|].
    apply elem_of_cons in Hs as [->|Hs]; [exact I|].
    now apply elem_of_nil in Hs.
  - intros now created result. exact I.
Defined.

End AgentReport.

Section AgentQueries.
Import DiscoveryAgent Catalog.
Local Open Scope Z_scope.

Lemma build_queries_length ds : forall nodes,
  Forall (fun node => (5 <= length (TaxonomyNode.keywords node))%nat) nodes ->
  length (_build_queries nodes ds)
  = (8 * length (filter (fun node => TaxonomyNode.domain node ∈ ds) nodes))%nat
  /\ exists github_queries,
       _build_github_queries nodes ds = Returned github_queries
       /\ length github_queries
          = (13 * length (filter (fun node => TaxonomyNode.domain node ∈ ds) nodes))%nat.
Proof.
  induction nodes as [|node nodes IH]; intros H.
  - split; [reflexivity | exists []; split; reflexivity].
  - apply Forall_cons in H as [Hk H]. destruct (IH H) as (H1 & qs & H2 & H3).
    cbn [_build_queries flat_map _build_github_queries].
    fold (_build_queries nodes ds).
    destruct (decide (TaxonomyNode.domain node ∈ ds)) as [Hin|Hout].
    + rewrite bool_decide_eq_true_2 by exact Hin.
      rewrite filter_cons_True by exact Hin.
      destruct (TaxonomyNode.keywords node) as [|kw kws] eqn:Ekw;
        [cbn [length] in Hk; lia|].
      rewrite H2. split.
      * rewrite !length_app, length_map, length_firstn, H1.
        cbn [_QUERY_TEMPLATES length] in *. lia.
      * eexists. split; [reflexivity|].
        rewrite !length_app, length_map, length_firstn, H3.
        cbn [_GITHUB_TEMPLATES length] in *. lia.
    + rewrite bool_decide_eq_false_2 by exact Hout.
      rewrite filter_cons_False by exact Hout. split; [exact H1 | eauto].
Qed.

Lemma taxonomy_keywords : 
  Forall (fun node => (5 <= length (TaxonomyNode.keywords node))%nat) TAXONOMY.
Proof. unfold TAXONOMY. repeat constructor; cbn [TaxonomyNode.keywords length]; lia. Qed.

Section Loop.
Variable settings : Settings.t.
Variable evaluate : datetime -> datetime -> SearchResult.t -> outcome Resource.t.
Variable clock : nat -> datetime.

(** The number of search tasks of a run: for every targeted taxonomy node,
    8 queries to every searcher and 13 more to every searcher named
    "github"; without domains, or with an empty list of them, all 13
    nodes are targeted. *)
Theorem run_queries_executed searchers domains max_results st report st' :
  run settings evaluate clock searchers domains max_results st
  = Some (Returned report, st') ->
  DiscoveryReport.queries_executed report
  = Z.of_nat (length (targeted domains))
    * (8 * Z.of_nat (length searchers)
       + 13 * Z.of_nat (length (filter (fun s => Searcher.name s = "github"%string)
                                       searchers)))
  /\ length (targeted None) = 13%nat
  /\ targeted (Some []) = targeted None.
Proof.
  unfold run, targeted.
  match goal with |- context [_build_github_queries TAXONOMY ?t] => set (target := t) end.
  destruct (build_queries_length target TAXONOMY taxonomy_keywords)
    as (H1 & qs & -> & H2).
  destruct (gather _) as [nested|e]; [|discriminate].
  intros H. split_and!; [|reflexivity|reflexivity].
  apply catalogue_accounts in H as (_ & _ & -> & _).
  cbn [DiscoveryReport.queries_executed]. rewrite H1, H2. lia.
Qed.
End Loop.

Lemma run_queries_executed_witness :
  DiscoveryReport.queries_executed (DiscoveryReport.mk 29 0 0 0 0 [])
  = Z.of_nat (length (targeted (Some [DEEP_LEARNING])))
    * (8 * Z.of_nat (length [failing_searcher; silent_searcher])
       + 13 * Z.of_nat (length (filter (fun s => Searcher.name s = "github"%string)
                                       [failing_searcher; silent_searcher])))
  /\ length (targeted None) = 13%nat
  /\ targeted (Some []) = targeted None.
Proof.
  apply (run_queries_executed Settings.default (fun _ _ _ => Raised "unused")
           (fun _ => 0) [failing_searcher; silent_searcher] (Some [DEEP_LEARNING]) 10
           (mk ∅ [] ∅ false) (DiscoveryReport.mk 29 0 0 0 0 []) (mk ∅ [] ∅ false)).
  vm_compute. reflexivity.
Defined.

End AgentQueries.

(** ** The evaluator: what a resource it returns looks like *)

Section SortedFacts.
Context {A : Type} (key : A -> float).

Lemma insert_desc_perm x : forall l, PyFloat.insert_desc key x l ≡ₚ x :: l.
Proof.
  induction l as [|y l IH]; cbn [PyFloat.insert_desc]; [reflexivity|].
  destruct (key x <? key y)%float; [|reflexivity].
  rewrite IH. apply Permutation_swap.
Qed.

Lemma sorted_desc_perm : forall l, PyFloat.sorted_desc key l ≡ₚ l.
Proof.
  unfold PyFloat.sorted_desc.
  induction l as [|x l IH]; cbn [fold_right]; [reflexivity|].
  now rewrite insert_desc_perm, IH.
Qed.
End SortedFacts.

Section EvaluatorResults.
Import Evaluator TextProcessing.
Local Open Scope float_scope.

Lemma taxonomy_domains_NoDup : NoDup (map TaxonomyNode.domain TAXONOMY).
Proof. apply (bool_decide_unpack _). vm_compute. reflexivity. Qed.

Lemma scored_domains_sublist (f : TaxonomyNode.t -> float) : forall nodes,
  map snd (flat_map (fun node => if 0.02 <? f node
                                 then [(f node, TaxonomyNode.domain node)] else [])
                    nodes)
  `sublist_of` map TaxonomyNode.domain nodes.
Proof.
  induction nodes as [|node nodes IH]; [constructor|].
  cbn [flat_map map]. destruct (0.02 <? f node); cbn [app map snd].
  - now apply sublist_skip.
  - now apply sublist_cons.
Qed.

Lemma detect_domains_facts text :
  (length (_detect_domains text) <= 3)%nat
  /\ NoDup (_detect_domains text)
  /\ (forall d, d ∈ _detect_domains text ->
        exists node, node ∈ TAXONOMY /\ TaxonomyNode.domain node = d
          /\ (0.02 <? keyword_score text (TaxonomyNode.keywords node)) = true).
Proof.
  unfold _detect_domains.
  set (scored := flat_map _ TAXONOMY).
  assert (Hnd : NoDup (map snd scored)).
  { eapply sublist_NoDup; [apply taxonomy_domains_NoDup|].
    apply (scored_domains_sublist
             (fun node => keyword_score text (TaxonomyNode.keywords node))). }
  split_and!.
  - rewrite length_map, length_take. lia.
  - eapply sublist_NoDup; [|apply (fmap_sublist snd), sublist_take].
    change (NoDup (snd <$> PyFloat.sorted_desc fst scored)).
    now rewrite (sorted_desc_perm fst scored).
  - intros d Hd. apply list_elem_of_In, in_map_iff in Hd as ([s d'] & <- & Hin).
    apply list_elem_of_In in Hin.
    assert (Hin' : (s, d') ∈ scored).
    { rewrite <- (sorted_desc_perm fst scored).
      eapply elem_of_sublist; [exact Hin | apply sublist_take]. }
    apply list_elem_of_In, in_flat_map in Hin' as (node & Hnode & Hin').
    exists node. split; [now apply list_elem_of_In|].
    destruct (0.02 <? keyword_score text (TaxonomyNode.keywords node)) eqn:E;
      [|now destruct Hin'].
    destruct Hin' as [[= <- <-]|[]]. auto.
Qed.

Lemma detect_provider_known url title :
  _detect_provider url title = ""%string
  \/ _detect_provider url title ∈ Dict.keys REPUTABLE_PROVIDERS.
Proof.
  unfold _detect_provider.
  destruct (filter _ (Dict.keys REPUTABLE_PROVIDERS)) as [|name rest] eqn:E; [now left|].
  right. assert (H : name ∈ name :: rest) by (apply elem_of_cons; now left).
  rewrite <- E in H. now apply list_elem_of_filter in H as [_ H].
Qed.

(** A resource that [evaluate] returns: its id is the id of the result's
    URL, its score is within [0, 1], it has at most three domains, all
    different, each of a taxonomy node whose keywords score above 0.02 on
    the title and snippet, and its provider is empty or one of the
    reputable providers. *)
Theorem evaluate_returns_valid fromisoformat log10 validation_error now created result r :
  evaluate fromisoformat log10 validation_error now created result = Returned r ->
  Resource.id r = _resource_id (SearchResult.url result)
  /\ Resource.url r = SearchResult.url result
  /\ (0 <=? Resource.quality_score r) = true
  /\ (Resource.quality_score r <=? 1) = true
  /\ (length (Resource.domains r) <= 3)%nat
  /\ NoDup (Resource.domains r)
  /\ (forall d, d ∈ Resource.domains r ->
        exists node, node ∈ TAXONOMY /\ TaxonomyNode.domain node = d
          /\ (0.02 <? keyword_score
                        (SearchResult.title result ++ " " ++ SearchResult.snippet result)
                        (TaxonomyNode.keywords node)) = true)
  /\ (Resource.provider r = ""%string
      \/ Resource.provider r ∈ Dict.keys REPUTABLE_PROVIDERS).
Proof.
  unfold evaluate.
  set (provider := _detect_provider _ _).
  set (text := (SearchResult.title result ++ " " ++ SearchResult.snippet result)%string).
  set (domains := _detect_domains text).
  set (ctype := _detect_content_type _ _).
  set (score4 := add_stars log10 _ _).
  destruct (add_freshness fromisoformat now _ score4) as [score5|e]; [|discriminate].
  cbv zeta.
  match goal with |- context [PyFloat.round ?x 3] => set (q := PyFloat.round x 3) end.
  destruct (0 <=? q) eqn:E0; [|discriminate].
  destruct (q <=? 1) eqn:E1; [|discriminate].
  cbn [andb]. intros [= <-].
  destruct (detect_domains_facts text) as (Hlen & Hnd & Hdom).
  unfold Resource.create, Resource.model_post_init.
  cbn [Resource.id String.eqb Resource.set_id Resource.url Resource.quality_score
       Resource.domains Resource.provider].
  split_and!; auto. apply detect_provider_known.
Qed.

Lemma evaluate_returns_valid_witness :
  exists r,
    evaluate new_year_2024 (fun _ => 0) (fun _ => ""%string) june_2024 june_2024
      example_result = Returned r
    /\ Resource.id r = _resource_id (SearchResult.url example_result)
    /\ Resource.url r = SearchResult.url example_result
    /\ (0 <=? Resource.quality_score r) = true
    /\ (Resource.quality_score r <=? 1) = true
    /\ (length (Resource.domains r) <= 3)%nat
    /\ NoDup (Resource.domains r)
    /\ (forall d, d ∈ Resource.domains r ->
          exists node, node ∈ TAXONOMY /\ TaxonomyNode.domain node = d
            /\ (0.02 <? keyword_score
                          (SearchResult.title example_result ++ " "
                           ++ SearchResult.snippet example_result)
                          (TaxonomyNode.keywords node)) = true)
    /\ (Resource.provider r = ""%string
        \/ Resource.provider r ∈ Dict.keys REPUTABLE_PROVIDERS).
Proof.
  eexists. split; [vm_compute; reflexivity|].
  apply (evaluate_returns_valid new_year_2024 (fun _ => 0) (fun _ => ""%string)
           june_2024 june_2024
           example_result).
  vm_compute. reflexivity.
Defined.

(** A value of [updated_at] that is true and is not a string (a number, a
    list, ...) ends the evaluation in [AttributeError], at every instant,
    with the text Python gives for the type of the value: the [try] block
    of step 5 only catches [ValueError] and [TypeError].  In a run the
    result is not catalogued: the loop records the failure under the URL
    and goes on with the next result. *)
Theorem evaluate_updated_at_not_string fromisoformat log10 validation_error
    now created result v :
  Dict.get "updated_at" (SearchResult.raw result) = Some v ->
  truthy v = true ->
  (forall s, v <> JStr s) ->
  evaluate fromisoformat log10 validation_error now created result
  = Raised (Exception ("'" ++ type_name v ++ "' object has no attribute 'replace'"))
  /\ type_name v ∈ ["bool"; "int"; "float"; "list"; "dict"]%string
  /\ forall settings clock i rest report st,
       DiscoveryAgent.catalogue settings
         (evaluate fromisoformat log10 validation_error) clock i (result :: rest)
         report st
       = DiscoveryAgent.catalogue settings
           (evaluate fromisoformat log10 validation_error) clock (S i) rest
           (DiscoveryReport.mk
              (DiscoveryReport.queries_executed report)
              (DiscoveryReport.raw_results report)
              (DiscoveryReport.new_resources report)
              (DiscoveryReport.updated_resources report)
              (DiscoveryReport.below_threshold report)
              (DiscoveryReport.errors report
               ++ [("Failed to evaluate " ++ SearchResult.url result ++ ": '"
                    ++ type_name v ++ "' object has no attribute 'replace'")%string]))
           st.
Proof.
  intros Hv Ht Hs.
  assert (Hraise : forall now created,
            evaluate fromisoformat log10 validation_error now created result
            = Raised (Exception ("'" ++ type_name v
                                 ++ "' object has no attribute 'replace'"))).
  { intros now' created'. unfold evaluate, add_freshness. rewrite Hv.
    cbn [default from_option id]. rewrite Ht.
    destruct v; try reflexivity. now destruct (Hs s). }
  split_and!.
  - apply Hraise.
  - destruct v; cbn [type_name truthy] in *;
      try discriminate; try (now destruct (Hs s)); set_solver.
  - intros settings clock i rest report st.
    cbn [DiscoveryAgent.catalogue]. rewrite Hraise.
    reflexivity.
Qed.

Lemma evaluate_updated_at_not_string_witness :
  evaluate new_year_2024 (fun _ => 0) (fun _ => ""%string) june_2024 june_2024
    numeric_date_result
  = Raised (Exception "'int' object has no attribute 'replace'")
  /\ type_name (JInt 1704067200) ∈ ["bool"; "int"; "float"; "list"; "dict"]%string
  /\ forall settings clock i rest report st,
       DiscoveryAgent.catalogue settings
         (evaluate new_year_2024 (fun _ => 0) (fun _ => ""%string)) clock i
         (numeric_date_result :: rest) report st
       = DiscoveryAgent.catalogue settings
           (evaluate new_year_2024 (fun _ => 0) (fun _ => ""%string)) clock (S i) rest
           (DiscoveryReport.mk
              (DiscoveryReport.queries_executed report)
              (DiscoveryReport.raw_results report)
              (DiscoveryReport.new_resources report)
              (DiscoveryReport.updated_resources report)
              (DiscoveryReport.below_threshold report)
              (DiscoveryReport.errors report
               ++ ["Failed to evaluate https://github.com/example/ml-course: 'int' object has no attribute 'replace'"%string]))
           st.
Proof.
  apply (evaluate_updated_at_not_string new_year_2024 (fun _ => 0) (fun _ => ""%string)
           june_2024 june_2024 numeric_date_result (JInt 1704067200)).
  - reflexivity.
  - reflexivity.
  - discriminate.
Defined.

End EvaluatorResults.
(** ** The categoriser *)

Section CategorizerFacts.
Import ContentCategorizer.

Lemma assign_spec pt st text : forall scores primary secondary tags p s t,
  assign pt st text scores primary secondary tags = (p, s, t) ->
  (exists added, s = secondary ++ added
     /\ (forall d, d ∈ added -> d ∈ map (fun sn => TaxonomyNode.domain sn.2) scores)
     /\ (NoDup (map (fun sn => TaxonomyNode.domain sn.2) scores) ->
         NoDup added
         /\ (primary = None -> forall d, p = Some d -> d ∉ added)))
  /\ (match primary with
      | Some d => p = Some d /\ t = tags
      | None =>
          match p with
          | None => t = tags
          | Some d => d ∈ map (fun sn => TaxonomyNode.domain sn.2) scores
          end
      end).
Proof.
  induction scores as [|[score node] rest IH]; intros primary secondary tags p s t H;
    cbn [assign] in H.
  - injection H as <- <- <-. split.
    + exists []. rewrite app_nil_r. split; [reflexivity|]. split.
      * intros d Hd. now apply elem_of_nil in Hd.
      * intros _. split; [constructor|]. intros _ d _. apply not_elem_of_nil.
    + destruct primary as [d|]; [split|]; reflexivity.
  - cbn [map fst snd].
    destruct ((pt <=? score)%float
              && match primary with None => true | Some _ => false end) eqn:E.
    + apply andb_true_iff in E as [_ E]. destruct primary; [discriminate|].
      apply IH in H as [(added & -> & Hin & Hnd) Hp]. destruct Hp as [-> _].
      split.
      * exists added. split; [reflexivity|]. split.
        -- intros d Hd. apply elem_of_cons. right. now apply Hin.
        -- intros Hn. apply NoDup_cons in Hn as [Hfresh Hn].
           destruct (Hnd Hn) as [H1 _]. split; [exact H1|].
           intros _ d Hd Hd'. injection Hd as <-. apply Hfresh. now apply Hin.
      * apply elem_of_cons. now left.
    + destruct (st <=? score)%float.
      * apply IH in H as [(added & -> & Hin & Hnd) Hp]. split.
        -- exists (TaxonomyNode.domain node :: added).
           rewrite <- app_assoc. split; [reflexivity|]. split.
           ++ intros d Hd. apply elem_of_cons in Hd as [->|Hd];
                apply elem_of_cons; [now left | right; now apply Hin].
           ++ intros Hn. apply NoDup_cons in Hn as [Hfresh Hn].
              destruct (Hnd Hn) as [H1 H2]. split.
              ** apply NoDup_cons. split; [|exact H1]. intros Hd. apply Hfresh.
                 now apply Hin.
              ** intros Hnone d Hd. subst primary p.
                 apply not_elem_of_cons. split; [|now apply H2].
                 intros ->. apply Hfresh. exact Hp.
        -- destruct primary; [exact Hp|]. destruct p; [|exact Hp].
           apply elem_of_cons. now right.
      * apply IH in H as [(added & -> & Hin & Hnd) Hp]. split.
        -- exists added. split; [reflexivity|]. split.
           ++ intros d Hd. apply elem_of_cons. right. now apply Hin.
           ++ intros Hn. apply NoDup_cons in Hn as [_ Hn]. now apply Hnd.
        -- destruct primary; [exact Hp|]. destruct p; [|exact Hp].
           apply elem_of_cons. now right.
Qed.

(** What [categorize] returns: the id of the content; at most 4 secondary
    domains and 15 tags; no tag without a primary domain; the domains are
    domains of the taxonomy, and when no two of its nodes share a domain
    the secondary domains differ from each other and from the primary. *)
Theorem categorize_result taxonomy pt st content :
  let result := categorize taxonomy pt st content in
  resource_id result = ScrapedContent.resource_id content
  /\ (length (secondary_domains result) <= 4)%nat
  /\ (length (tags result) <= 15)%nat
  /\ (primary_domain result = None -> tags result = [])
  /\ (forall d, primary_domain result = Some d \/ d ∈ secondary_domains result ->
        d ∈ map TaxonomyNode.domain taxonomy)
  /\ (NoDup (map TaxonomyNode.domain taxonomy) ->
      NoDup (secondary_domains result)
      /\ forall d, primary_domain result = Some d -> d ∉ secondary_domains result).
Proof.
  unfold categorize.
  set (text := (_ ++ " " ++ _)%string).
  set (scores := PyFloat.sorted_desc fst _).
  assert (Hdom : map (fun sn : float * TaxonomyNode.t => TaxonomyNode.domain sn.2) scores
                 ≡ₚ map TaxonomyNode.domain taxonomy).
  { unfold scores.
    change (map (fun sn : float * TaxonomyNode.t => TaxonomyNode.domain sn.2)
                (PyFloat.sorted_desc fst ?l))
      with ((fun sn : float * TaxonomyNode.t => TaxonomyNode.domain sn.2)
              <$> PyFloat.sorted_desc fst l).
    rewrite sorted_desc_perm.
    change (map TaxonomyNode.domain taxonomy) with (TaxonomyNode.domain <$> taxonomy).
    rewrite <- list_fmap_compose. reflexivity. }
  destruct (assign pt st text scores None [] []) as [[p s] t] eqn:E.
  apply assign_spec in E as [(added & -> & Hin & Hnd) Hp].
  cbn [app resource_id secondary_domains tags primary_domain].
  split_and!.
  - reflexivity.
  - rewrite length_firstn. lia.
  - rewrite length_firstn. lia.
  - intros ->. now rewrite Hp.
  - intros d [->|Hd].
    + rewrite <- Hdom. exact Hp.
    + rewrite <- Hdom. apply Hin. eapply elem_of_sublist; [exact Hd | apply sublist_take].
  - intros Hn. rewrite <- Hdom in Hn. destruct (Hnd Hn) as [H1 H2]. split.
    + eapply sublist_NoDup; [exact H1 | apply sublist_take].
    + intros d Hd Hin'. apply (H2 eq_refl d Hd).
      eapply elem_of_sublist; [exact Hin' | apply sublist_take].
Qed.

End CategorizerFacts.

(** ** The learning path builder: the shape of a path *)

Section PathShape.
Import LearningPathBuilder.

Lemma chunks_concat {A} (n : nat) : forall fuel (selected : list A),
  (1 <= n)%nat -> (length selected <= fuel)%nat ->
  concat (chunks fuel n selected) = selected.
Proof.
  induction fuel as [|fuel IH]; intros selected Hn Hlen.
  - destruct selected; [reflexivity | cbn [length] in Hlen; lia].
  - destruct selected as [|x xs]; [reflexivity|].
    cbn [chunks concat]. rewrite IH; [apply firstn_skipn | exact Hn |].
    rewrite length_skipn. cbn [length] in *. lia.
Qed.

Lemma chunks_each {A} (n : nat) : forall fuel (selected : list A) c,
  (1 <= n)%nat -> c ∈ chunks fuel n selected ->
  (1 <= length c <= n)%nat.
Proof.
  induction fuel as [|fuel IH]; intros selected c Hn Hc.
  - now apply elem_of_nil in Hc.
  - destruct selected as [|x xs]; [now apply elem_of_nil in Hc|].
    cbn [chunks] in Hc. apply elem_of_cons in Hc as [->|Hc]; [|now apply (IH _ c Hn Hc)].
    rewrite length_firstn. cbn [length]. lia.
Qed.

Lemma chunks_count {A} (n : nat) : forall fuel (selected : list A) k,
  (1 <= n)%nat -> (length selected <= k * n)%nat ->
  (length (chunks fuel n selected) <= k)%nat.
Proof.
  induction fuel as [|fuel IH]; intros selected k Hn Hlen; [cbn; lia|].
  destruct selected as [|x xs]; [cbn; lia|].
  cbn [chunks length].
  destruct k as [|k]; [cbn [length] in Hlen; lia|].
  apply le_n_S, IH; [exact Hn|].
  rewrite length_skipn. cbn [length] in *. lia.
Qed.

Lemma make_modules_shape domain difficulty : forall cs first,
  map ModuleUnit.resource_ids (make_modules domain difficulty first cs)
  = map (map Resource.id) cs
  /\ map ModuleUnit.order (make_modules domain difficulty first cs)
     = map (fun i => first + Z.of_nat i) (seq 0 (length cs))
  /\ Forall (fun m => length (ModuleUnit.objectives m)
                      = length (ModuleUnit.resource_ids m))
            (make_modules domain difficulty first cs).
Proof.
  induction cs as [|c cs IH]; intros first; [now repeat split|].
  destruct (IH (first + 1)) as (H1 & H2 & H3).
  cbn [make_modules map length seq]. split_and!.
  - now rewrite H1.
  - rewrite H2. f_equal; [cbn; lia|].
    rewrite <- seq_shift, map_map. apply map_ext. intros i. lia.
  - constructor; [|exact H3]. cbn [make_module ModuleUnit.objectives
                                   ModuleUnit.resource_ids].
    now rewrite !length_map.
Qed.

Lemma trim_prefix cap : forall modules running,
  trim cap modules running `prefix_of` modules.
Proof.
  induction modules as [|m ms IH]; intros running; cbn [trim]; [reflexivity|].
  destruct (_ <=? cap)%float; [now apply prefix_cons | apply prefix_nil].
Qed.

Lemma apply_diversity_perm cap rs out :
  _apply_diversity cap rs = Returned out -> out ≡ₚ rs.
Proof.
  unfold _apply_diversity. destruct rs as [|r rs]; [now intros [= <-]|].
  unfold max_per_provider.
  destruct (PyFloat.to_int _) as [n|]; [|discriminate].
  destruct (diversity_pass_spec (Z.max 1 n) (r :: rs) ∅ [] [])
    as (result & deferred & -> & Hperm & _).
  - intros p. now rewrite lookup_empty.
  - intros p. cbn. lia.
  - intros d Hd. now apply elem_of_nil in Hd.
  - intros [= <-]. exact Hperm.
Qed.

(** The shape of a path, for a positive [max_resources_per_module] : at
    most three modules, numbered from 1; every module has between one and
    [max_resources_per_module] resources and one objective per resource;
    the ids of the modules, in order, are the ids of the first resources
    of the list in diversity order, which is a permutation of the input. *)
Theorem build_path_shape settings domain difficulty resources path :
  0 < Settings.max_resources_per_module settings ->
  _build_path settings domain difficulty resources = Returned path ->
  exists ordered,
    _apply_diversity (Settings.provider_diversity_cap settings)
      (PyFloat.sorted_desc Resource.quality_score resources) = Returned ordered
    /\ ordered ≡ₚ resources
    /\ concat (map ModuleUnit.resource_ids (LearningPath.modules path))
         `prefix_of` map Resource.id ordered
    /\ (length (LearningPath.modules path) <= 3)%nat
    /\ map ModuleUnit.order (LearningPath.modules path)
       = map (fun i => 1 + Z.of_nat i) (seq 0 (length (LearningPath.modules path)))
    /\ Forall (fun m =>
                 (1 <= length (ModuleUnit.resource_ids m))%nat
                 /\ Z.of_nat (length (ModuleUnit.resource_ids m))
                    <= Settings.max_resources_per_module settings
                 /\ length (ModuleUnit.objectives m)
                    = length (ModuleUnit.resource_ids m))
              (LearningPath.modules path).
Proof.
  intros Hpos. unfold _build_path, untrimmed_modules.
  destruct (_apply_diversity _ _) as [ordered|e] eqn:Hdiv; [|discriminate].
  rewrite (proj2 (Z.eqb_neq _ 0)) by lia.
  rewrite (proj2 (Z.ltb_ge _ 0)) by lia.
  set (k := Z.to_nat (Settings.max_resources_per_module settings)).
  set (selected := slice_to_int _ ordered).
  set (cs := chunks (length selected) k selected).
  set (untrimmed := make_modules domain difficulty 1 cs).
  intros [= <-]. cbn [LearningPath.modules].
  match goal with
  | |- context [if ?b then trim ?c untrimmed ?z else untrimmed] =>
      set (modules := if b then trim c untrimmed z else untrimmed)
  end.
  assert (Hk : (1 <= k)%nat) by (unfold k; lia).
  assert (Hsel : selected = firstn (3 * k) ordered).
  { unfold selected, slice_to_int. rewrite (proj2 (Z.leb_le 0 _)) by lia.
    f_equal. unfold k. lia. }
  assert (Hpre : modules `prefix_of` untrimmed).
  { unfold modules. destruct (_ && _); [apply trim_prefix | reflexivity]. }
  destruct Hpre as [dropped Hun].
  destruct (make_modules_shape domain difficulty cs 1) as (Hids & Hord & Hobj).
  fold untrimmed in Hids, Hord, Hobj.
  assert (Hcount : (length untrimmed <= 3)%nat).
  { rewrite <- (length_map ModuleUnit.resource_ids), Hids, length_map.
    apply chunks_count; [exact Hk|]. rewrite Hsel, length_firstn. lia. }
  exists ordered. split_and!.
  - reflexivity.
  - rewrite (apply_diversity_perm _ _ _ Hdiv). apply sorted_desc_perm.
  - assert (Hcat : concat (map ModuleUnit.resource_ids untrimmed)
                   = map Resource.id selected).
    { rewrite Hids, <- concat_map. f_equal.
      now apply chunks_concat. }
    transitivity (map Resource.id selected).
    + rewrite <- Hcat, Hun, map_app, concat_app. now apply prefix_app_r.
    + rewrite Hsel. rewrite <- (firstn_skipn (3 * k) ordered) at 2.
      rewrite map_app. now apply prefix_app_r.
  - rewrite Hun, length_app in Hcount. lia.
  - assert (Hlen : length cs = (length modules + length dropped)%nat).
    { rewrite <- (length_map (map Resource.id)), <- Hids, length_map, Hun.
      apply length_app. }
    rewrite Hun, map_app, Hlen, seq_app, map_app in Hord.
    apply app_inj_1 in Hord as [Hord _]; [exact Hord|].
    now rewrite !length_map, length_seq.
  - rewrite Hun in Hobj, Hids. apply Forall_app in Hobj as [Hobj _].
    apply Forall_forall. intros m Hm.
    assert (Hc : ModuleUnit.resource_ids m ∈ map (map Resource.id) cs).
    { rewrite <- Hids, map_app. apply elem_of_app. left.
      apply list_elem_of_fmap. exists m. auto. }
    apply list_elem_of_In, in_map_iff in Hc as (c & Hc & Hin).
    apply list_elem_of_In in Hin.
    pose proof (chunks_each k _ _ c Hk Hin) as Hlen.
    rewrite <- Hc, length_map. split_and!; [lia | unfold k in Hlen; lia |].
    rewrite Forall_forall in Hobj. rewrite (Hobj m Hm), <- Hc. now rewrite length_map.
Qed.

Lemma build_path_shape_witness :
  exists path,
    _build_path one_per_module ML_BASICS BEGINNER beginner_pair = Returned path
    /\ exists ordered,
    _apply_diversity (Settings.provider_diversity_cap one_per_module)
         (PyFloat.sorted_desc Resource.quality_score beginner_pair) = Returned ordered
    /\ ordered ≡ₚ beginner_pair
    /\ concat (map ModuleUnit.resource_ids (LearningPath.modules path))
         `prefix_of` map Resource.id ordered
    /\ (length (LearningPath.modules path) <= 3)%nat
    /\ map ModuleUnit.order (LearningPath.modules path)
       = map (fun i => 1 + Z.of_nat i) (seq 0 (length (LearningPath.modules path)))
    /\ Forall (fun m =>
                 (1 <= length (ModuleUnit.resource_ids m))%nat
                 /\ Z.of_nat (length (ModuleUnit.resource_ids m))
                    <= Settings.max_resources_per_module one_per_module
                 /\ length (ModuleUnit.objectives m)
                    = length (ModuleUnit.resource_ids m))
              (LearningPath.modules path).
Proof.
  eexists. split; [vm_compute; reflexivity|].
  apply (build_path_shape one_per_module ML_BASICS BEGINNER beginner_pair).
  - reflexivity.
  - vm_compute. reflexivity.
Defined.

End PathShape.

Section BuildLevels.
Import LearningPathBuilder.

(** What [build] returns for one level: nothing when the bucket is empty or
    the path ends without modules, the path of the bucket otherwise. *)
Lemma build_levels_spec settings domain resources : forall levels paths,
  build_levels settings domain resources levels = Returned paths ->
  map LearningPath.difficulty paths `sublist_of` levels
  /\ Forall (fun p =>
               LearningPath.modules p <> []
               /\ filter (fun r => Resource.difficulty r = LearningPath.difficulty p)
                         resources <> []
               /\ _build_path settings domain (LearningPath.difficulty p)
                    (filter (fun r => Resource.difficulty r = LearningPath.difficulty p)
                            resources) = Returned p)
            paths.
Proof.
  induction levels as [|diff rest IH]; intros paths H; cbn [build_levels] in H.
  - injection H as <-. split; constructor.
  - destruct (filter (fun r => Resource.difficulty r = diff) resources)
      as [|r0 bucket] eqn:Hb.
    + destruct (IH paths H) as [H1 H2]. split; [now apply sublist_cons | exact H2].
    + destruct (_build_path settings domain diff (r0 :: bucket)) as [path|e] eqn:Hp;
        [|discriminate].
      destruct (build_levels settings domain resources rest) as [paths'|e] eqn:Hr;
        [|discriminate].
      destruct (IH paths' eq_refl) as [H1 H2].
      assert (Hd : LearningPath.difficulty path = diff).
      { unfold _build_path in Hp. destruct (untrimmed_modules _ _ _ _); [|discriminate].
        now injection Hp as <-. }
      destruct (LearningPath.modules path) as [|m ms] eqn:Hm; injection H as <-.
      * split; [now apply sublist_cons | exact H2].
      * split; [cbn [map]; rewrite Hd; now apply sublist_skip|].
        constructor; [|exact H2]. rewrite Hd, Hb, Hm. split_and!; auto; discriminate.
Qed.

(** [build] returns at most one path per difficulty level, in the order
    beginner, intermediate, advanced: for every level whose resources are
    not empty, the path [_build_path] makes of them, unless that path has
    no module. *)
Theorem build_paths_by_level settings domain resources paths :
  build settings domain resources = Returned paths ->
  map LearningPath.difficulty paths `sublist_of` [BEGINNER; INTERMEDIATE; ADVANCED]
  /\ Forall (fun p =>
               LearningPath.modules p <> []
               /\ filter (fun r => Resource.difficulty r = LearningPath.difficulty p)
                         resources <> []
               /\ _build_path settings domain (LearningPath.difficulty p)
                    (filter (fun r => Resource.difficulty r = LearningPath.difficulty p)
                            resources) = Returned p)
            paths.
Proof. apply build_levels_spec. Qed.

Lemma build_paths_by_level_witness :
  exists paths,
    build one_per_module ML_BASICS beginner_pair = Returned paths
    /\ map LearningPath.difficulty paths `sublist_of` [BEGINNER; INTERMEDIATE; ADVANCED]
    /\ Forall (fun p =>
                 LearningPath.modules p <> []
                 /\ filter (fun r => Resource.difficulty r = LearningPath.difficulty p)
                           beginner_pair <> []
                 /\ _build_path one_per_module ML_BASICS (LearningPath.difficulty p)
                      (filter (fun r => Resource.difficulty r = LearningPath.difficulty p)
                              beginner_pair) = Returned p)
              paths.
Proof.
  eexists. split; [vm_compute; reflexivity|].
  apply (build_paths_by_level one_per_module ML_BASICS beginner_pair).
  vm_compute. reflexivity.
Defined.

(** Without a positive [max_resources_per_module] there is no path: with 0
    every [build] on resources raises (the step of [range] is 0, unless the
    diversity step has raised before), with a negative value no module is
    made and every path is dropped. *)
Theorem build_without_module_size settings domain resources :
  Settings.max_resources_per_module settings <= 0 ->
  (forall paths, build settings domain resources = Returned paths -> paths = [])
  /\ (Settings.max_resources_per_module settings = 0 -> resources <> [] ->
      exists e, build settings domain resources = Raised e).
Proof.
  intros Hle.
  assert (Hpath : forall diff bucket path,
            _build_path settings domain diff bucket = Returned path ->
            LearningPath.modules path = []
            /\ Settings.max_resources_per_module settings < 0).
  { intros diff bucket path. unfold _build_path, untrimmed_modules.
    destruct (_apply_diversity _ _); [|discriminate].
    destruct (Settings.max_resources_per_module settings =? 0) eqn:E0; [discriminate|].
    apply Z.eqb_neq in E0.
    rewrite (proj2 (Z.ltb_lt _ 0)) by lia.
    intros [= <-]. cbn [LearningPath.modules].
    split; [|lia]. destruct (_ && _); reflexivity. }
  split.
  - intros paths H. apply build_levels_spec in H as [_ H].
    destruct paths as [|p ps]; [reflexivity|].
    apply Forall_cons in H as [(Hm & _ & Hp) _].
    now destruct (Hpath _ _ _ Hp) as [Hnil _].
  - intros H0 Hne. unfold build.
    assert (Hlevel : forall r, r ∈ resources ->
              Resource.difficulty r ∈ [BEGINNER; INTERMEDIATE; ADVANCED]).
    { intros r _. destruct (Resource.difficulty r).
      - apply elem_of_cons. now left.
      - apply elem_of_cons. right. apply elem_of_cons. now left.
      - do 2 (apply elem_of_cons; right). apply elem_of_cons. now left. }
    revert Hlevel. generalize [BEGINNER; INTERMEDIATE; ADVANCED].
    induction l as [|diff rest IH]; intros Hlevel.
    + destruct resources as [|r rs]; [congruence|].
      specialize (Hlevel r ltac:(apply elem_of_cons; now left)).
      now apply elem_of_nil in Hlevel.
    + cbn [build_levels].
      destruct (filter (fun r => Resource.difficulty r = diff) resources)
        as [|r0 bucket] eqn:Hb.
      * apply IH. intros r Hr. specialize (Hlevel r Hr).
        apply elem_of_cons in Hlevel as [Hd|Hd]; [|exact Hd].
        assert (Hin : r ∈ filter (fun r => Resource.difficulty r = diff) resources)
          by (apply list_elem_of_filter; auto).
        rewrite Hb in Hin. now apply elem_of_nil in Hin.
      * destruct (_build_path settings domain diff (r0 :: bucket)) as [path|e] eqn:Hp;
          [|eauto].
        destruct (Hpath _ _ _ Hp) as [_ Hneg]. lia.
Qed.

Lemma build_without_module_size_witness :
  (forall paths,
     build (Settings.mk 0.3 0 20 0.4) ML_BASICS beginner_pair = Returned paths ->
     paths = [])
  /\ (Settings.max_resources_per_module (Settings.mk 0.3 0 20 0.4) = 0 ->
      beginner_pair <> [] ->
      exists e, build (Settings.mk 0.3 0 20 0.4) ML_BASICS beginner_pair = Raised e).
Proof.
  apply (build_without_module_size (Settings.mk 0.3 0 20 0.4) ML_BASICS beginner_pair).
  simpl. lia.
Defined.

End BuildLevels.
(** ** The best-practices rules *)

Section BestPractices.
Import BestPracticesEngine LearningPathBuilder.

Lemma business_rule_issues resources path : forall domains i,
  i ∈ business_rule resources path domains ->
  rule i = "business_needs_cases"%string /\ severity i = INFO.
Proof.
  induction domains as [|d ds IH]; intros i H; cbn [business_rule] in H.
  - now apply elem_of_nil in H.
  - destruct (DOMAIN_CATEGORY d); [now apply IH|].
    destruct (existsb _ resources); [now apply elem_of_nil in H|].
    apply list_elem_of_singleton in H. now subst.
Qed.

(** The rules a finding of [path_issues] can be of, each with its severity. *)
Lemma path_issues_rules by_id max_beginner cap path i :
  i ∈ path_issues by_id max_beginner cap path ->
  path_id i = LearningPath.id path
  /\ ((rule i = "hands_on_required"%string /\ severity i = WARNING)
      \/ (rule i = "beginner_hour_cap"%string /\ severity i = WARNING
          /\ LearningPath.difficulty path = BEGINNER
          /\ (max_beginner <? LearningPath.total_estimated_hours path)%float = true)
      \/ (rule i = "advanced_needs_paper"%string /\ severity i = INFO
          /\ LearningPath.difficulty path = ADVANCED)
      \/ (rule i = "business_needs_cases"%string /\ severity i = INFO)
      \/ (rule i = "prerequisites_required"%string /\ severity i = WARNING
          /\ LearningPath.prerequisites path = []
          /\ LearningPath.difficulty path <> BEGINNER)
      \/ (rule i = "provider_diversity"%string /\ severity i = WARNING)
      \/ (rule i = "module_objectives"%string /\ severity i = INFO
          /\ exists m, m ∈ LearningPath.modules path /\ ModuleUnit.objectives m = [])).
Proof.
  unfold path_issues. intros H.
  repeat (apply elem_of_app in H as [H|H]).
  - destruct (existsb _ _); [now apply elem_of_nil in H|].
    apply list_elem_of_singleton in H. subst. cbn. tauto.
  - destruct (bool_decide (LearningPath.difficulty path = BEGINNER)) eqn:B;
      [|now apply elem_of_nil in H].
    destruct (max_beginner <? _)%float eqn:E; [|now apply elem_of_nil in H].
    apply bool_decide_eq_true_1 in B.
    apply list_elem_of_singleton in H. subst. cbn. tauto.
  - destruct (bool_decide (LearningPath.difficulty path = ADVANCED)) eqn:B;
      [|now apply elem_of_nil in H].
    destruct (negb _); [|now apply elem_of_nil in H].
    apply bool_decide_eq_true_1 in B.
    apply list_elem_of_singleton in H. subst. cbn. tauto.
  - assert (Hp : path_id i = LearningPath.id path).
    { revert H. generalize (LearningPath.domains path).
      induction l as [|d ds IH]; intros H; cbn [business_rule] in H.
      - now apply elem_of_nil in H.
      - destruct (DOMAIN_CATEGORY d); [now apply IH|].
        destruct (existsb _ _); [now apply elem_of_nil in H|].
        apply list_elem_of_singleton in H. now subst. }
    apply business_rule_issues in H. tauto.
  - destruct (LearningPath.prerequisites path) eqn:E; [|now apply elem_of_nil in H].
    destruct (bool_decide (LearningPath.difficulty path <> BEGINNER)) eqn:B;
      [|now apply elem_of_nil in H].
    apply bool_decide_eq_true_1 in B.
    apply list_elem_of_singleton in H. subst. cbn. tauto.
  - apply list_elem_of_In, in_flat_map in H as (pc & _ & H).
    destruct (_ <? _)%float; [|now destruct H].
    destruct H as [<-|[]]. cbn. tauto.
  - apply list_elem_of_In, in_flat_map in H as (m & Hm & H).
    apply list_elem_of_In in Hm.
    destruct (ModuleUnit.objectives m) eqn:E; [|now destruct H].
    destruct H as [<-|[]]. cbn. split; [reflexivity|].
    do 6 right. eauto.
Qed.

(** No rule reports an error: whatever the curriculum, [error_count] is 0,
    and every finding is a warning or an information. *)
Theorem validate_never_errors by_id max_beginner cap learning_paths :
  error_count (validate by_id max_beginner cap learning_paths) = 0%nat
  /\ forall i, i ∈ validate by_id max_beginner cap learning_paths ->
       severity i = WARNING \/ severity i = INFO.
Proof.
  assert (H : forall i, i ∈ validate by_id max_beginner cap learning_paths ->
                        severity i = WARNING \/ severity i = INFO).
  { intros i Hi. unfold validate in Hi.
    apply list_elem_of_In, in_flat_map in Hi as (path & _ & Hi).
    apply list_elem_of_In, path_issues_rules in Hi as [_ Hi].
    repeat (destruct Hi as [Hi|Hi]); tauto. }
  split; [|exact H]. unfold error_count.
  destruct (filter _ _) as [|i rest] eqn:E; [reflexivity|].
  assert (Hi : i ∈ filter (fun i => severity i = ERROR)
                 (validate by_id max_beginner cap learning_paths))
    by (rewrite E; apply elem_of_cons; now left).
  apply list_elem_of_filter in Hi as [He Hi]. destruct (H i Hi); congruence.
Qed.

(** What [_build_path] puts in a path, for a positive module size. *)
Lemma build_path_fields settings domain difficulty resources path :
  0 < Settings.max_resources_per_module settings ->
  _build_path settings domain difficulty resources = Returned path ->
  LearningPath.difficulty path = difficulty
  /\ LearningPath.prerequisites path = prerequisites_for domain difficulty
  /\ Forall (fun m => ModuleUnit.objectives m <> []) (LearningPath.modules path).
Proof.
  intros Hpos. unfold _build_path, untrimmed_modules.
  destruct (_apply_diversity _ _) as [ordered|e]; [|discriminate].
  rewrite (proj2 (Z.eqb_neq _ 0)) by lia.
  rewrite (proj2 (Z.ltb_ge _ 0)) by lia.
  set (k := Z.to_nat (Settings.max_resources_per_module settings)).
  set (selected := slice_to_int _ ordered).
  set (cs := chunks (length selected) k selected).
  intros [= <-]. cbn [LearningPath.difficulty LearningPath.prerequisites
                      LearningPath.modules].
  split_and!; [reflexivity | reflexivity |].
  assert (Hun : Forall (fun m => ModuleUnit.objectives m <> [])
                       (make_modules domain difficulty 1 cs)).
  { assert (Hcs : Forall (fun c => c <> []) cs).
    { apply Forall_forall. intros c Hc.
      pose proof (chunks_each k _ _ c ltac:(unfold k; lia) Hc) as Hlen.
      intros ->. cbn [length] in Hlen. lia. }
    revert Hcs. generalize 1. induction cs as [|c cs' IH]; intros first Hcs;
      cbn [make_modules]; [constructor|].
    apply Forall_cons in Hcs as [Hc Hcs]. constructor; [|now apply IH].
    cbn [make_module ModuleUnit.objectives]. destruct c; [congruence | discriminate]. }
  destruct (_ && _); [|exact Hun].
  destruct (trim_prefix (Settings.max_hours_beginner_path settings)
              (make_modules domain difficulty 1 cs) 0%float) as [dropped E].
  rewrite E in Hun. now apply Forall_app in Hun as [Hun _].
Qed.

(** A path the builder makes with a positive module size never breaks
    rule 5 (prerequisites declared) nor rule 7 (objectives per module). *)
Theorem built_path_passes_rules settings domain difficulty resources path
    by_id max_beginner cap :
  0 < Settings.max_resources_per_module settings ->
  _build_path settings domain difficulty resources = Returned path ->
  forall i, i ∈ path_issues by_id max_beginner cap path ->
    rule i <> "prerequisites_required"%string
    /\ rule i <> "module_objectives"%string.
Proof.
  intros Hpos Hp i Hi.
  destruct (build_path_fields _ _ _ _ _ Hpos Hp) as (Hd & Hpre & Hobj).
  apply path_issues_rules in Hi as [_ Hi].
  repeat (destruct Hi as [Hi|Hi]);
    try (destruct Hi as [-> _]; split; discriminate).
  - destruct Hi as (_ & _ & Hnil & Hnb). exfalso.
    rewrite Hpre in Hnil. rewrite Hd in Hnb. unfold prerequisites_for in Hnil.
    destruct difficulty; [congruence | |];
      apply app_eq_nil in Hnil as [_ Hnil]; discriminate.
  - destruct Hi as (_ & _ & m & Hm & Hnil). exfalso.
    rewrite Forall_forall in Hobj. now apply (Hobj m Hm).
Qed.

Lemma built_path_passes_rules_witness :
  exists path,
    _build_path one_per_module ML_BASICS BEGINNER beginner_pair = Returned path
    /\ forall i, i ∈ path_issues ∅ 20 0.4 path ->
         rule i <> "prerequisites_required"%string
         /\ rule i <> "module_objectives"%string.
Proof.
  eexists. split; [vm_compute; reflexivity|].
  apply (built_path_passes_rules one_per_module ML_BASICS BEGINNER beginner_pair
           _ ∅ 20 0.4).
  - reflexivity.
  - vm_compute. reflexivity.
Defined.

End BestPractices.
(** ** Path ids *)

Section PathIds.
Import LearningPathBuilder.

Lemma path_ids_table :
  NoDup (map (fun p => _path_id p.1 p.2)
             (flat_map (fun d => map (pair d) [BEGINNER; INTERMEDIATE; ADVANCED])
                       DiscoveryAgent.all_domains)).
Proof. apply (bool_decide_unpack _). vm_compute. reflexivity. Qed.

Lemma NoDup_map_inj {A B} (f : A -> B) : forall l x y,
  NoDup (map f l) -> x ∈ l -> y ∈ l -> f x = f y -> x = y.
Proof.
  induction l as [|a l IH]; intros x y Hnd Hx Hy E.
  - now apply elem_of_nil in Hx.
  - cbn [map] in Hnd. apply NoDup_cons in Hnd as [Hfresh Hnd].
    apply elem_of_cons in Hx as [->|Hx]; apply elem_of_cons in Hy as [->|Hy]; auto.
    + destruct Hfresh. rewrite E. apply list_elem_of_fmap. eauto.
    + destruct Hfresh. rewrite <- E. apply list_elem_of_fmap. eauto.
Qed.

(** No two learning paths share an id: the 39 pairs of a domain and a
    difficulty have 39 different ids. *)
Theorem path_ids_distinct d1 l1 d2 l2 :
  _path_id d1 l1 = _path_id d2 l2 -> d1 = d2 /\ l1 = l2.
Proof.
  intros E.
  assert (Hall : forall d l,
            (d, l) ∈ flat_map (fun d => map (pair d) [BEGINNER; INTERMEDIATE; ADVANCED])
                              DiscoveryAgent.all_domains).
  { intros d l. apply list_elem_of_In. destruct d, l; vm_compute; tauto. }
  pose proof (NoDup_map_inj (fun p => _path_id p.1 p.2) _ (d1, l1) (d2, l2)
                path_ids_table (Hall d1 l1) (Hall d2 l2) E) as H.
  now injection H.
Qed.

Lemma path_ids_distinct_witness :
  NLP = NLP /\ ADVANCED = ADVANCED.
Proof. apply (path_ids_distinct NLP ADVANCED NLP ADVANCED). reflexivity. Defined.

End PathIds.

(** ** The repositories *)

Section RepositoryFacts.
Import ResourceRepository.

Lemma pop_get {V} k : forall (d : list (string * V)) k',
  NoDup (Dict.keys d) ->
  Dict.get k' (pop k d) = if String.eqb k k' then None else Dict.get k' d.
Proof.
  unfold Dict.keys. induction d as [|[k0 v0] d IH]; intros k' Hnd; cbn [pop Dict.get map fst].
  - now destruct (String.eqb k k').
  - cbn [map fst] in Hnd. apply NoDup_cons in Hnd as [Hfresh Hnd].
    destruct (String.eqb k0 k) eqn:E0.
    + apply String.eqb_eq in E0. subst k0.
      destruct (String.eqb k k') eqn:E; [|reflexivity].
      apply String.eqb_eq in E. subst k'.
      destruct (Dict.get k d) as [v|] eqn:Hg; [|reflexivity].
      destruct Hfresh. apply list_elem_of_fmap. exists (k, v).
      split; [reflexivity | now apply dict_get_elem].
    + cbn [Dict.get]. rewrite IH by exact Hnd.
      destruct (String.eqb k0 k') eqn:E1; [|reflexivity].
      apply String.eqb_eq in E1. subst k'. rewrite String.eqb_sym. now rewrite E0.
Qed.

Lemma pop_keys {V} k : forall d : list (string * V),
  Dict.keys (pop k d) `sublist_of` Dict.keys d.
Proof.
  unfold Dict.keys. induction d as [|[k0 v0] d IH]; cbn [pop map fst]; [constructor|].
  destruct (String.eqb k0 k); cbn [map fst].
  - apply sublist_cons. reflexivity.
  - now apply sublist_skip.
Qed.

(** [delete] tells whether the id was stored; afterwards [find_by_id] finds
    nothing under the id and what it found under every other id; the file
    keeps its order and has no key twice. *)
Theorem delete_then_find resource_id file :
  NoDup (Dict.keys file) ->
  (delete resource_id file).1 = bool_decide (is_Some (find_by_id resource_id file))
  /\ find_by_id resource_id (delete resource_id file).2 = None
  /\ (forall k, k <> resource_id ->
        find_by_id k (delete resource_id file).2 = find_by_id k file)
  /\ Dict.keys (delete resource_id file).2 `sublist_of` Dict.keys file
  /\ NoDup (Dict.keys (delete resource_id file).2).
Proof.
  intros Hnd. unfold delete, find_by_id, Dict.contains. cbn [fst snd].
  split_and!.
  - destruct (Dict.get resource_id file); cbn [fmap option_fmap option_map].
    + symmetry. apply bool_decide_eq_true_2. eauto.
    + symmetry. apply bool_decide_eq_false_2. intros [x [=]].
  - rewrite pop_get by exact Hnd. now rewrite String.eqb_refl.
  - intros k Hne. rewrite pop_get by exact Hnd.
    now rewrite (proj2 (String.eqb_neq _ _)) by congruence.
  - apply pop_keys.
  - eapply sublist_NoDup; [exact Hnd | apply pop_keys].
Qed.

Lemma delete_then_find_witness :
  let file := Catalog.save example_second (Catalog.save example_first []) in
  (delete "731f488ad48ecff5" file).1
  = bool_decide (is_Some (find_by_id "731f488ad48ecff5" file))
  /\ find_by_id "731f488ad48ecff5" (delete "731f488ad48ecff5" file).2 = None
  /\ (forall k, k <> "731f488ad48ecff5"%string ->
        find_by_id k (delete "731f488ad48ecff5" file).2 = find_by_id k file)
  /\ Dict.keys (delete "731f488ad48ecff5" file).2 `sublist_of` Dict.keys file
  /\ NoDup (Dict.keys (delete "731f488ad48ecff5" file).2).
Proof.
  apply (delete_then_find "731f488ad48ecff5"
           (Catalog.save example_second (Catalog.save example_first []))).
  apply (bool_decide_unpack _). vm_compute. reflexivity.
Defined.

Lemma save_many_other k : forall resources file,
  k ∉ map Resource.id resources ->
  Dict.get k (save_many resources file) = Dict.get k file.
Proof.
  induction resources as [|r rs IH]; intros file H; [reflexivity|].
  cbn [map] in H. apply not_elem_of_cons in H as [Hne H].
  cbn [save_many fold_left]. fold (save_many rs).
  rewrite IH by exact H. apply dict_get_set_ne. congruence.
Qed.

(** [save_many] stores every resource under its id, the last of an id
    winning; ids it does not save keep their record; a file without a key
    twice stays so. *)
Theorem save_many_then_find resources file :
  NoDup (Dict.keys file) ->
  NoDup (Dict.keys (save_many resources file))
  /\ (forall before r after,
        resources = before ++ r :: after ->
        Resource.id r ∉ map Resource.id after ->
        Dict.get (Resource.id r) (save_many resources file) = Some r)
  /\ (forall k, k ∉ map Resource.id resources ->
        Dict.get k (save_many resources file) = Dict.get k file).
Proof.
  intros Hnd. split_and!.
  - revert file Hnd. induction resources as [|r rs IH]; intros file Hnd; [exact Hnd|].
    cbn [save_many fold_left]. apply IH. now apply dict_keys_set_NoDup.
  - intros before r after -> Hlast.
    unfold save_many. rewrite fold_left_app. cbn [fold_left].
    fold (save_many after). rewrite save_many_other by exact Hlast.
    apply dict_get_set_eq.
  - intros k Hk. now apply save_many_other.
Qed.

Lemma save_many_then_find_witness :
  NoDup (Dict.keys (save_many [example_first; example_second] []))
  /\ (forall before r after,
        [example_first; example_second] = before ++ r :: after ->
        Resource.id r ∉ map Resource.id after ->
        Dict.get (Resource.id r) (save_many [example_first; example_second] []) = Some r)
  /\ (forall k, k ∉ map Resource.id [example_first; example_second] ->
        Dict.get k (save_many [example_first; example_second] []) = Dict.get k []).
Proof.
  apply (save_many_then_find [example_first; example_second] []).
  apply NoDup_nil_2.
Defined.

End RepositoryFacts.

Section CurriculumFiles.
Import CurriculumRepository.

Lemma replace_char_one (old new : ascii) : forall s,
  Py.replace_char old (String new EmptyString) s
  = Py.map_chars (fun c => if Ascii.eqb c old then new else c) s.
Proof.
  induction s as [|c s IH]; [reflexivity|].
  cbn [Py.replace_char Py.map_chars]. rewrite IH.
  now destruct (Ascii.eqb c old).
Qed.

Lemma map_chars_app f : forall a b : string,
  Py.map_chars f (a ++ b) = (Py.map_chars f a ++ Py.map_chars f b)%string.
Proof.
  induction a as [|c a IH]; intros b; [reflexivity|].
  change (String (f c) (Py.map_chars f (a ++ b))
          = String (f c) (Py.map_chars f a ++ Py.map_chars f b)%string).
  now rewrite IH.
Qed.

(** The character of a safe name that stands for [c]. *)
Lemma safe_chars s :
  safe s = Py.map_chars (fun c => if Ascii.eqb c "/" || Ascii.eqb c " "
                                  then "_"%char else c) s.
Proof.
  unfold safe. rewrite !replace_char_one.
  induction s as [|c s IH]; [reflexivity|].
  cbn [Py.map_chars]. rewrite IH. f_equal.
  destruct (Ascii.eqb c "/") eqn:E; [reflexivity|]. cbn [orb].
  now destruct (Ascii.eqb c " ").
Qed.

(** The file of a curriculum is named by its id with every slash and every
    space replaced by an underscore: the name has the length of the id and
    holds no slash and no space; ids that differ only by such characters
    share one file. *)
Theorem curriculum_file_name curriculum_id :
  String.length (safe curriculum_id) = String.length curriculum_id
  /\ Py.contains "/" (safe curriculum_id) = false
  /\ Py.contains " " (safe curriculum_id) = false
  /\ safe (safe curriculum_id) = safe curriculum_id
  /\ (forall a b,
        file_name (a ++ "/" ++ b) = file_name (a ++ "_" ++ b)
        /\ file_name (a ++ " " ++ b) = file_name (a ++ "_" ++ b)).
Proof.
  rewrite !safe_chars. split_and!.
  - induction curriculum_id as [|c s IH]; [reflexivity|].
    cbn [Py.map_chars String.length]. now rewrite IH.
  - induction curriculum_id as [|c s IH]; [reflexivity|].
    cbn [Py.map_chars Py.contains String.prefix]. rewrite IH.
    destruct (Ascii.eqb c "/") eqn:E; cbn [orb].
    + reflexivity.
    + destruct (Ascii.eqb c " ") eqn:E'.
      * reflexivity.
      * destruct (ascii_dec "/" c) as [<-|Hne]; [|now rewrite orb_false_r].
        now rewrite Ascii.eqb_refl in E.
  - induction curriculum_id as [|c s IH]; [reflexivity|].
    cbn [Py.map_chars Py.contains String.prefix]. rewrite IH.
    destruct (Ascii.eqb c "/") eqn:E; cbn [orb].
    + reflexivity.
    + destruct (Ascii.eqb c " ") eqn:E'.
      * reflexivity.
      * destruct (ascii_dec " " c) as [<-|Hne]; [|now rewrite orb_false_r].
        now rewrite Ascii.eqb_refl in E'.
  - induction curriculum_id as [|c s IH]; [reflexivity|].
    cbn [Py.map_chars]. rewrite IH. f_equal.
    destruct (Ascii.eqb c "/") eqn:E; [reflexivity|]. cbn [orb].
    destruct (Ascii.eqb c " ") eqn:E'; [reflexivity|]. cbn [orb]. now rewrite E, E'.
  - intros a b. unfold file_name. rewrite !safe_chars, !map_chars_app.
    split; reflexivity.
Qed.

End CurriculumFiles.

